(** * Protardio Discord verification: the reconciliation core

    A shallow embedding of the verification flow of [src/index.ts], the
    persistence layer of [src/supabase-database.ts], the social-graph helpers
    of [src/neynar.ts] and the balance lookup of [blockchain.ts], followed by
    the properties the specification states about them.

    Conventions of the embedding:
    - JavaScript strings are [string]; wallet addresses and ids are ASCII, so
      [toLowerCase] is the ASCII lower-casing.
    - JavaScript numbers that hold counts, balances and ids are [Z]; the
      [uint256] an ERC-721 [balanceOf] returns is [N], and [Number] is exact
      on it (token counts are far below 2^53).
    - timestamps are milliseconds since the epoch, in [Z].
    - every external collaborator (Discord OAuth, the Neynar API, the chain
      RPC, the Discord role API, the clock) is a field of [Env]: the answer it
      gives during one request or one reconciliation run.
    - a database table is the list of its rows, in insertion order; the
      database is reachable, so a request to it fails only where a table
      constraint refuses the row.
    - what a handler does besides reading and writing the tables and asking
      for roles (the guild auto-join, logging, the HTML of the pages) is left
      out. *)

From Stdlib Require Import List String Ascii Bool ZArith NArith QArith Lia Permutation.
Import ListNotations.

Local Open Scope string_scope.
Local Open Scope list_scope.
Local Open Scope Z_scope.

(** ** JavaScript helpers *)

Module Js.

(** Truthiness of a string: only the empty string is falsy. *)
Definition truthy (s : string) : bool :=
  match s with
  | EmptyString => false
  | String _ _ => true
  end.

(** Truthiness of a [string | null]. *)
Definition truthyOpt (o : option string) : bool :=
  match o with
  | None => false
  | Some s => truthy s
  end.

Definition lowerAscii (c : ascii) : ascii :=
  let n := nat_of_ascii c in
  if (Nat.leb 65 n && Nat.leb n 90)%bool then ascii_of_nat (n + 32) else c.

(** [String.prototype.toLowerCase] on ASCII text. *)
Fixpoint toLowerCase (s : string) : string :=
  match s with
  | EmptyString => EmptyString
  | String c rest => String (lowerAscii c) (toLowerCase rest)
  end.

(** [String.prototype.includes]: [needle] occurs somewhere in [hay]. *)
Fixpoint includes (needle hay : string) : bool :=
  if String.prefix needle hay then true
  else match hay with
       | EmptyString => false
       | String _ rest => includes needle rest
       end.

(** [Array.prototype.includes] on an array of strings. *)
Definition arrayIncludes (x : string) (l : list string) : bool :=
  existsb (String.eqb x) l.

(** Adding to an insertion-ordered collection: a value already present is
    left where it is, a new one goes to the end.  This is [Set.prototype.add]
    and also the [if (!wallets.includes(x)) wallets.push(x)] idiom. *)
Definition pushNew (acc : list string) (x : string) : list string :=
  if arrayIncludes x acc then acc else acc ++ [x].

(** [[...new Set(l)]]: the elements of [l] in order of first occurrence. *)
Definition newSet (l : list string) : list string :=
  fold_left pushNew l [].

(** [.single()] of the Supabase client: the row when the query matched
    exactly one, an error (seen by the callers as [null]) otherwise. *)
Definition single {A : Type} (rows : list A) : option A :=
  match rows with
  | [r] => Some r
  | _ => None
  end.

End Js.

(** ** neynar.ts *)

Module Neynar.

Record FarcasterUser := {
  fid : Z;
  username : string;
  display_name : string;
  pfp_url : string;
  custody_address : string;
  (** [verified_addresses?.eth_addresses], [None] when either level is missing *)
  eth_addresses : option (list string);
  follower_count : Z;
  following_count : Z;
  power_badge : bool
}.

(** [getFarcasterWallets]: the argument is what the bulk-user request gave,
    [None] standing for every path that returns [[]] before a user is read
    (no API key, a failed or non-OK request, an empty [users] array). *)
Definition getFarcasterWallets (resp : option FarcasterUser) : list string :=
  match resp with
  | None => []
  | Some user =>
      let wallets :=
        if Js.truthy (custody_address user)
        then [Js.toLowerCase (custody_address user)]
        else [] in
      match eth_addresses user with
      | Some addrs =>
          fold_left (fun wallets addr =>
                       let normalized := Js.toLowerCase addr in
                       if negb (Js.arrayIncludes normalized wallets)
                       then wallets ++ [normalized]
                       else wallets)
                    addrs wallets
      | None => wallets
      end
  end.

(** [getFarcasterUser] returns the same first user, or [null]. *)
Definition getFarcasterUser (resp : option FarcasterUser) : option FarcasterUser :=
  resp.

(** The buckets of [calculateSybilScore], one per [score +=] group. *)

Definition followerPoints (user : FarcasterUser) : Z :=
  if follower_count user >=? 1000 then 30
  else if follower_count user >=? 500 then 25
  else if follower_count user >=? 100 then 20
  else if follower_count user >=? 50 then 15
  else if follower_count user >=? 10 then 10
  else if follower_count user >=? 1 then 5
  else 0.

Definition followingPoints (user : FarcasterUser) : Z :=
  if following_count user >=? 100 then 10
  else if following_count user >=? 50 then 7
  else if following_count user >=? 10 then 5
  else 0.

Definition badgePoints (user : FarcasterUser) : Z :=
  if power_badge user then 25 else 0.

(** [user.verified_addresses?.eth_addresses?.length || 0] *)
Definition ethAddresses (user : FarcasterUser) : Z :=
  match eth_addresses user with
  | Some addrs => Z.of_nat (List.length addrs)
  | None => 0
  end.

Definition addressPoints (user : FarcasterUser) : Z :=
  if ethAddresses user >=? 3 then 20
  else if ethAddresses user >=? 2 then 15
  else if ethAddresses user >=? 1 then 10
  else 0.

(** [user.pfp_url && !user.pfp_url.includes('default')] *)
Definition hasAvatar (user : FarcasterUser) : bool :=
  Js.truthy (pfp_url user) && negb (Js.includes "default" (pfp_url user)).

Definition avatarPoints (user : FarcasterUser) : Z :=
  if hasAvatar user then 5 else 0.

(** [user.display_name && user.display_name !== user.username] *)
Definition hasDisplayName (user : FarcasterUser) : bool :=
  Js.truthy (display_name user) && negb (display_name user =? username user)%string.

Definition displayNamePoints (user : FarcasterUser) : Z :=
  if hasDisplayName user then 5 else 0.

(** The ratio [follower_count / following_count], read only when
    [following_count > 0].  The source divides in double precision; for
    counts below 2^50 the two comparisons with 0.5 and 10 give the same
    answer on the exact quotient, which is what [Q] computes. *)
Definition ratio (user : FarcasterUser) : Q :=
  Qmake (follower_count user) (Z.to_pos (following_count user)).

Definition ratioPoints (user : FarcasterUser) : Z :=
  if following_count user >? 0 then
    if Qle_bool (1 # 2) (ratio user) && Qle_bool (ratio user) (10 # 1) then 5 else 0
  else 0.

(** [calculateSybilScore], on the answer of [getFarcasterUser]. *)
Definition calculateSybilScore (resp : option FarcasterUser) : Z :=
  match getFarcasterUser resp with
  | None => 0
  | Some user =>
      let score := 0 in
      let score := score + followerPoints user in
      let score := score + followingPoints user in
      let score := score + badgePoints user in
      let score := score + addressPoints user in
      let score := score + avatarPoints user in
      let score := score + displayNamePoints user in
      let score := score + ratioPoints user in
      Z.min score 100
  end.

End Neynar.

(** ** blockchain.ts *)

Module Blockchain.

(** [getProtardioBalance]: [rpc wallet] is what [readContract] gives for
    [balanceOf(wallet)], [None] when it throws; the [catch] turns that
    into 0. *)
Definition getProtardioBalance (rpc : string -> option N) (wallet : string) : Z :=
  match rpc wallet with
  | Some balance => Z.of_N balance
  | None => 0
  end.

End Blockchain.

(** ** supabase.ts and supabase-database.ts *)

Module Supabase.

(** A row of [discord_verifications] (the serial [id], which no code reads,
    is left out).  The table declares [discord_id] unique. *)
Record DiscordVerification := {
  fid : Z;
  wallet : string;
  discord_id : string;
  discord_username : string;
  nft_balance : Z;
  verified_at : Z;
  last_checked : Z
}.

Module Pending.
(** A row of [discord_pending_verifications]; [session_id] is unique. *)
Record DiscordPendingVerification := {
  session_id : string;
  fid : Z;
  wallet : string;
  created_at : Z
}.
End Pending.

Record Database := {
  discord_verifications : list DiscordVerification;
  discord_pending_verifications : list Pending.DiscordPendingVerification
}.

Definition withVerifications (d : Database) (rows : list DiscordVerification) : Database :=
  {| discord_verifications := rows;
     discord_pending_verifications := discord_pending_verifications d |}.

Definition withPending (d : Database)
    (rows : list Pending.DiscordPendingVerification) : Database :=
  {| discord_verifications := discord_verifications d;
     discord_pending_verifications := rows |}.

Definition emptyDatabase : Database :=
  {| discord_verifications := []; discord_pending_verifications := [] |}.

(** A value that a column declared [INTEGER] takes: a signed 32-bit
    integer. *)
Definition isInteger (n : Z) : bool :=
  (-2147483648 <=? n) && (n <=? 2147483647).

(** [storePending]: an upsert on the primary key with no [id] given, that is
    an insert.  The table refuses a [fid] that its [INTEGER NOT NULL] column
    does not take, and a second row with the same unique [session_id]; the
    error is only logged and no row is stored.  ([fid] is the number handed
    over when it is an integer; [NaN], which is sent as [null], and a
    fraction are refused as a value out of range is, so a call with one of
    them is a call that leaves the table as it is.) *)
Definition storePending (sessionId : string) (fid : Z) (wallet : string) (now : Z)
    (d : Database) : Database :=
  if negb (isInteger fid) then d
  else if existsb (fun p => Pending.session_id p =? sessionId)%string
                  (discord_pending_verifications d)
  then d
  else withPending d
         (discord_pending_verifications d ++
          [{| Pending.session_id := sessionId;
              Pending.fid := fid;
              Pending.wallet := Js.toLowerCase wallet;
              Pending.created_at := now |}]).

Definition getPending (sessionId : string) (d : Database)
    : option Pending.DiscordPendingVerification :=
  Js.single (filter (fun p => Pending.session_id p =? sessionId)%string
                    (discord_pending_verifications d)).

Definition deletePending (sessionId : string) (d : Database) : Database :=
  withPending d
    (filter (fun p => negb (Pending.session_id p =? sessionId)%string)
            (discord_pending_verifications d)).

(** [storeVerification]: upsert with [onConflict: 'discord_id'].  The two
    [new Date()] of the row are read as the same instant [now]. *)
Definition storeVerification (fid : Z) (wallet discordId discordUsername : string)
    (nftBalance : Z) (now : Z) (d : Database) : Database :=
  let row := {| fid := fid;
                wallet := Js.toLowerCase wallet;
                discord_id := discordId;
                discord_username := discordUsername;
                nft_balance := nftBalance;
                verified_at := now;
                last_checked := now |} in
  if existsb (fun r => discord_id r =? discordId)%string (discord_verifications d)
  then withVerifications d
         (map (fun r => if (discord_id r =? discordId)%string then row else r)
              (discord_verifications d))
  else withVerifications d (discord_verifications d ++ [row]).

Definition updateNftBalance (discordId : string) (nftBalance : Z) (now : Z)
    (d : Database) : Database :=
  withVerifications d
    (map (fun r =>
            if (discord_id r =? discordId)%string
            then {| fid := fid r;
                    wallet := wallet r;
                    discord_id := discord_id r;
                    discord_username := discord_username r;
                    nft_balance := nftBalance;
                    verified_at := verified_at r;
                    last_checked := now |}
            else r)
         (discord_verifications d)).

Definition getVerificationByDiscord (discordId : string) (d : Database)
    : option DiscordVerification :=
  Js.single (filter (fun r => discord_id r =? discordId)%string
                    (discord_verifications d)).

Definition getVerificationByWallet (wallet_ : string) (d : Database)
    : option DiscordVerification :=
  Js.single (filter (fun r => wallet r =? Js.toLowerCase wallet_)%string
                    (discord_verifications d)).

Definition getVerificationByFid (fid_ : Z) (d : Database)
    : option DiscordVerification :=
  Js.single (filter (fun r => fid r =? fid_) (discord_verifications d)).

Definition getVerifiedCount (d : Database) : Z :=
  Z.of_nat (List.length (discord_verifications d)).

Definition deleteVerification (discordId : string) (d : Database) : Database :=
  withVerifications d
    (filter (fun r => negb (discord_id r =? discordId)%string)
            (discord_verifications d)).

(** [cleanupOldPending]: the sweep of sessions older than one hour; the
    result is the database and the number of rows deleted. *)
Definition cleanupOldPending (now : Z) (d : Database) : Database * Z :=
  let oneHourAgo := now - 60 * 60 * 1000 in
  let gone := filter (fun p => Pending.created_at p <? oneHourAgo)
                     (discord_pending_verifications d) in
  (withPending d
     (filter (fun p => negb (Pending.created_at p <? oneHourAgo))
             (discord_pending_verifications d)),
   Z.of_nat (List.length gone)).

(** [.order('last_checked', { ascending: true })] *)
Fixpoint insertByLastChecked (v : DiscordVerification) (l : list DiscordVerification)
    : list DiscordVerification :=
  match l with
  | [] => [v]
  | x :: rest =>
      if last_checked v <=? last_checked x then v :: l
      else x :: insertByLastChecked v rest
  end.

Definition orderByLastChecked (l : list DiscordVerification) : list DiscordVerification :=
  fold_right insertByLastChecked [] l.

(** [getStaleVerifications]: not checked in the last 24 hours, oldest first,
    at most 100. *)
Definition getStaleVerifications (now : Z) (d : Database) : list DiscordVerification :=
  let oneDayAgo := now - 24 * 60 * 60 * 1000 in
  firstn 100
    (orderByLastChecked
       (filter (fun r => last_checked r <? oneDayAgo) (discord_verifications d))).

End Supabase.

(** ** index.ts *)

Module Server.

Import Supabase.

Record DiscordUser := { id : string; username : string }.

(** Calls made to the Discord role API of [bot.ts].  The result of
    [assignHolderRole] decides the branch the callback takes; the result of
    [removeHolderRole] is dropped by its caller, so the call is kept with
    it: [removed] is what the function returned, [true] only after
    [member.roles.remove] went through, [false] when the bot was not ready,
    the member or the role was not found, or Discord refused. *)
Inductive RoleCall :=
| AssignHolderRole (discordId : string)
| RemoveHolderRole (discordId : string) (removed : bool).

(** What the collaborators answer while one request, or one reconciliation
    run, is served. *)
Record Env := {
  (** token exchange and [users/@me]; [None] when either request fails *)
  oauth : string -> option DiscordUser;
  (** first user of the Neynar bulk lookup of a FID *)
  neynar : Z -> option Neynar.FarcasterUser;
  (** [balanceOf] on the NFT contract *)
  rpc : string -> option N;
  (** result of [assignHolderRole] *)
  assignHolderRole : string -> bool;
  (** result of [removeHolderRole] *)
  removeHolderRole : string -> bool;
  (** the clock *)
  now : Z
}.

(** The server's view of the world: the database, and the role calls it has
    made so far. *)
Record World := {
  db : Database;
  roleCalls : list RoleCall
}.

(** The page or status a request ends with. *)
Inductive Response :=
| MissingParameter                               (* 400 *)
| InvalidSession                                 (* 400 *)
| VerificationError                              (* 500, from the catch *)
| FidAlreadyLinked (fid : Z) (otherUsername : string)
| WalletAlreadyLinked (otherUsername : string)
| RoleAssignmentFailed
| SuccessPage (discordUsername : string) (balance : Z) (sybilScore : Z)
| NoNFTPage (wallets : list string).

(** [GET /auth/discord]: the part after validation of the query, which only
    asks [fid] and [wallet] to be present and [wallet] to look like an
    address; [fid] is [Number(req.query.fid)] when that is an integer (for
    any other value [storePending] stores nothing, as for an integer out of
    the range of the column). *)
Definition authDiscord (env : Env) (sessionId : string) (fid : Z) (wallet : string)
    (w : World) : World :=
  {| db := storePending sessionId fid wallet (now env) (db w);
     roleCalls := roleCalls w |}.

(** [[...new Set([wallet.toLowerCase(), ...farcasterWallets])]] *)
Definition allWallets (wallet : string) (farcasterWallets : list string) : list string :=
  Js.newSet (Js.toLowerCase wallet :: farcasterWallets).

(** The candidate wallets of the callback: Farcaster is asked only when the
    session has a positive FID. *)
Definition callbackWallets (env : Env) (pending : Pending.DiscordPendingVerification)
    : list string :=
  let farcasterWallets :=
    if Pending.fid pending >? 0
    then Neynar.getFarcasterWallets (neynar env (Pending.fid pending))
    else [] in
  allWallets (Pending.wallet pending) farcasterWallets.

(** One turn of the [for (const wallet of allWallets)] loop of the callback,
    on the pair [(totalBalance, holdingWallet)]. *)
Definition walletStep (rpc : string -> option N) (st : Z * option string)
    (wallet : string) : Z * option string :=
  let '(totalBalance, holdingWallet) := st in
  let balance := Blockchain.getProtardioBalance rpc wallet in
  if balance >? 0
  then (totalBalance + balance,
        if negb (Js.truthyOpt holdingWallet) then Some wallet else holdingWallet)
  else (totalBalance, holdingWallet).

Definition checkWallets (rpc : string -> option N) (wallets : list string)
    : Z * option string :=
  fold_left (walletStep rpc) wallets (0, None).

(** [existing && existing.discord_id !== discordUser.id] *)
Definition linkedToOther (existing : option DiscordVerification) (discordId : string)
    : option DiscordVerification :=
  match existing with
  | Some e => if negb (discord_id e =? discordId)%string then Some e else None
  | None => None
  end.

(** [GET /auth/discord/callback] *)
Definition callback (env : Env) (code state : string) (w : World) : World * Response :=
  if negb (Js.truthy code) || negb (Js.truthy state) then (w, MissingParameter)
  else
    let sessionId := state in
    match getPending sessionId (db w) with
    | None => (w, InvalidSession)
    | Some pending =>
        match oauth env code with
        | None => (w, VerificationError)
        | Some discordUser =>
            let wallets := callbackWallets env pending in
            let '(totalBalance, holdingWallet) := checkWallets (rpc env) wallets in
            let notHolder :=
              ({| db := deletePending sessionId (db w); roleCalls := roleCalls w |},
               NoNFTPage wallets) in
            match holdingWallet with
            | None => notHolder
            | Some holding =>
                if (totalBalance >? 0) && Js.truthy holding then
                  let existingFid :=
                    if Pending.fid pending >? 0
                    then linkedToOther (getVerificationByFid (Pending.fid pending) (db w))
                                       (id discordUser)
                    else None in
                  match existingFid with
                  | Some other =>
                      ({| db := deletePending sessionId (db w);
                          roleCalls := roleCalls w |},
                       FidAlreadyLinked (Pending.fid pending) (discord_username other))
                  | None =>
                      match linkedToOther (getVerificationByWallet holding (db w))
                                          (id discordUser) with
                      | Some other =>
                          ({| db := deletePending sessionId (db w);
                              roleCalls := roleCalls w |},
                           WalletAlreadyLinked (discord_username other))
                      | None =>
                          let sybilScore :=
                            if Pending.fid pending >? 0
                            then Neynar.calculateSybilScore (neynar env (Pending.fid pending))
                            else 0 in
                          let roleAssigned := assignHolderRole env (id discordUser) in
                          let calls := roleCalls w ++ [AssignHolderRole (id discordUser)] in
                          if roleAssigned then
                            ({| db := deletePending sessionId
                                        (storeVerification (Pending.fid pending) holding
                                           (id discordUser) (username discordUser)
                                           totalBalance (now env) (db w));
                                roleCalls := calls |},
                             SuccessPage (username discordUser) totalBalance sybilScore)
                          else
                            ({| db := db w; roleCalls := calls |}, RoleAssignmentFailed)
                      end
                  end
                else notHolder
            end
        end
    end.

(** The wallets re-checked for a stored verification: here Farcaster is
    asked whatever the FID is. *)
Definition reverifyWallets (env : Env) (verification : DiscordVerification) : list string :=
  allWallets (wallet verification)
             (Neynar.getFarcasterWallets (neynar env (fid verification))).

Definition reverifyBalance (env : Env) (verification : DiscordVerification) : Z :=
  fold_left (fun totalBalance wallet =>
               totalBalance + Blockchain.getProtardioBalance (rpc env) wallet)
            (reverifyWallets env verification) 0.

(** The body of the re-verification loop for one stale row. *)
Definition reverifyOne (env : Env) (w : World) (verification : DiscordVerification)
    : World :=
  let totalBalance := reverifyBalance env verification in
  if totalBalance =? 0 then
    {| db := deleteVerification (discord_id verification) (db w);
       roleCalls := roleCalls w ++
                    [RemoveHolderRole (discord_id verification)
                       (removeHolderRole env (discord_id verification))] |}
  else
    {| db := updateNftBalance (discord_id verification) totalBalance (now env) (db w);
       roleCalls := roleCalls w |}.

(** The six-hourly re-verification: the stale rows are read once, then
    handled one after the other. *)
Definition reverify (env : Env) (w : World) : World :=
  fold_left (reverifyOne env) (getStaleVerifications (now env) (db w)) w.

(** The hourly sweep of pending sessions. *)
Definition cleanup (env : Env) (w : World) : World :=
  {| db := fst (cleanupOldPending (now env) (db w)); roleCalls := roleCalls w |}.

End Server.

(** * Notions used in the statements *)

(** The elements of a list in order of first occurrence, by recursion on
    the list: the reading of "ordered, de-duplicated" used below. *)
Fixpoint dedup (l : list string) : list string :=
  match l with
  | [] => []
  | x :: rest => x :: filter (fun y => negb (y =? x)%string) (dedup rest)
  end.

(** What the social-graph lookup returned for a user, in the order it is
    read: the custody address when there is one, then the verified ETH
    addresses. *)
Definition returnedWallets (resp : option Neynar.FarcasterUser) : list string :=
  match resp with
  | None => []
  | Some user =>
      (if Js.truthy (Neynar.custody_address user)
       then [Neynar.custody_address user] else [])
      ++ match Neynar.eth_addresses user with
         | Some addrs => addrs
         | None => []
         end
  end.

(** The wallets discovered for a pending session: none without a positive
    social identifier. *)
Definition discoveredWallets (env : Server.Env)
    (pending : Supabase.Pending.DiscordPendingVerification) : list string :=
  if Supabase.Pending.fid pending >? 0
  then returnedWallets (Server.neynar env (Supabase.Pending.fid pending))
  else [].

(** The Identity Resolver as the specification words it (4.1): the ordered,
    de-duplicated union, submitted wallet first, then the discovered wallets
    in the order returned, all in lowercase. *)
Definition orderedUnion (submitted : string) (discovered : list string) : list string :=
  dedup (map Js.toLowerCase (submitted :: discovered)).

(** The sum of the per-wallet lookups, a failed lookup counting 0. *)
Definition sumOfLookups (rpc : string -> option N) (wallets : list string) : Z :=
  fold_right (fun wallet acc =>
                match rpc wallet with
                | Some balance => Z.of_N balance
                | None => 0
                end + acc)
             0 wallets.

(** The lookup of a wallet returns a positive value. *)
Definition positiveBalance (rpc : string -> option N) (wallet : string) : bool :=
  match rpc wallet with
  | Some balance => (0 <? balance)%N
  | None => false
  end.

(** ** Sample data for the worked instances *)

Module Sample.

Import Supabase Server.

Definition walletA : string := "0xaaaaaaaaaaaaaaaaaaaaaaaaaaaaaaaaaaaaaaaa".
Definition walletB : string := "0xbbbbbbbbbbbbbbbbbbbbbbbbbbbbbbbbbbbbbbbb".
Definition walletC : string := "0xcccccccccccccccccccccccccccccccccccccccc".

Definition alice : DiscordUser := {| id := "100000000000000001"; username := "alice" |}.
Definition bob : DiscordUser := {| id := "100000000000000002"; username := "bob" |}.

(** [walletA] holds nothing, [walletB] three tokens, [walletC] two; any
    other lookup fails. *)
Definition rpcAB (wallet : string) : option N :=
  if (wallet =? walletA)%string then Some 0%N
  else if (wallet =? walletB)%string then Some 3%N
  else if (wallet =? walletC)%string then Some 2%N
  else None.

(** Nobody holds anything. *)
Definition rpcNone (wallet : string) : option N :=
  if (wallet =? walletA)%string then Some 0%N else None.

Definition envFor (user : DiscordUser) (rpc : string -> option N) (granted : bool)
    (now : Z) : Env :=
  {| oauth := fun _ => Some user;
     neynar := fun _ => None;
     rpc := rpc;
     assignHolderRole := fun _ => granted;
     removeHolderRole := fun _ => true;
     now := now |}.

Definition emptyWorld : World := {| db := emptyDatabase; roleCalls := [] |}.

End Sample.

(** ** Uniqueness of bindings *)

(** No two of the rows that [relevant] selects have the same [key]. *)
Definition uniqueBy {K : Type} (relevant : Supabase.DiscordVerification -> bool)
    (key : Supabase.DiscordVerification -> K)
    (rows : list Supabase.DiscordVerification) : Prop :=
  NoDup (map key (filter relevant rows)).

Definition uniqueDiscordIds (rows : list Supabase.DiscordVerification) : Prop :=
  uniqueBy (fun _ => true) Supabase.discord_id rows.

Definition uniqueWallets (rows : list Supabase.DiscordVerification) : Prop :=
  uniqueBy (fun _ => true) Supabase.wallet rows.

(** No two rows share a social identifier other than 0. *)
Definition uniqueNonZeroFids (rows : list Supabase.DiscordVerification) : Prop :=
  uniqueBy (fun r => negb (Supabase.fid r =? 0)) Supabase.fid rows.

(** No two rows share a positive social identifier. *)
Definition uniquePositiveFids (rows : list Supabase.DiscordVerification) : Prop :=
  uniqueBy (fun r => Supabase.fid r >? 0) Supabase.fid rows.

Definition bindingsUnique (rows : list Supabase.DiscordVerification) : Prop :=
  uniqueDiscordIds rows /\ uniquePositiveFids rows /\ uniqueWallets rows.

(** ** Histories of the server *)

(** What the server can be asked to do, each with the answers the
    collaborators give meanwhile.  [AuthDiscord] stands for the three routes
    that open a session ([GET /auth/discord], [POST /verify],
    [POST /auth/wallet-connect]): all end in [storePending]. *)
Inductive Request :=
| AuthDiscord (sessionId : string) (fid : Z) (wallet : string)
| Callback (code state : string)
| Reverify
| Cleanup.

Definition serve (w : Server.World) (step : Server.Env * Request) : Server.World :=
  let '(env, request) := step in
  match request with
  | AuthDiscord sessionId fid wallet => Server.authDiscord env sessionId fid wallet w
  | Callback code state => fst (Server.callback env code state w)
  | Reverify => Server.reverify env w
  | Cleanup => Server.cleanup env w
  end.

Definition run (history : list (Server.Env * Request)) (w : Server.World) : Server.World :=
  fold_left serve history w.

(** The request asks for a session to be stored under [sessionId]. *)
Definition opens (sessionId : string) (request : Request) : bool :=
  match request with
  | AuthDiscord other _ _ => (other =? sessionId)%string
  | _ => false
  end.

(** No request of the history opens a session under [sessionId]: the
    routes draw their session ids at random, 32 bytes each. *)
Definition neverOpens (sessionId : string) (history : list (Server.Env * Request)) : bool :=
  forallb (fun step => negb (opens sessionId (snd step))) history.

(** The verifications persisted after a history that starts with empty
    tables. *)
Definition bindingsAfter (history : list (Server.Env * Request))
    : list Supabase.DiscordVerification :=
  Supabase.discord_verifications (Server.db (run history Sample.emptyWorld)).

(** ** Worked histories *)

Module Scenario.

Import Supabase Server Sample.

(** Two accounts start from [/auth/discord] with the same negative [fid]
    and different holding wallets, and both complete the callback. *)
Definition negativeFidTwice : list (Env * Request) :=
  [ (envFor alice rpcAB true 1000, AuthDiscord "session-1" (-5) walletB);
    (envFor alice rpcAB true 2000, Callback "code-1" "session-1");
    (envFor bob rpcAB true 3000, AuthDiscord "session-2" (-5) walletC);
    (envFor bob rpcAB true 4000, Callback "code-2" "session-2") ].

(** A session for [walletB], which holds tokens. *)
Definition holderWaiting : World :=
  authDiscord (envFor alice rpcAB true 1000) "session-1" 0 walletB emptyWorld.

(** A session for [walletA], which holds nothing. *)
Definition nonHolderWaiting : World :=
  authDiscord (envFor alice rpcNone true 1000) "session-1" 0 walletA emptyWorld.

Definition pendingOf (w : World) (sessionId : string) : Pending.DiscordPendingVerification :=
  match getPending sessionId (db w) with
  | Some pending => pending
  | None => {| Pending.session_id := ""; Pending.fid := 0;
               Pending.wallet := ""; Pending.created_at := 0 |}
  end.

End Scenario.

(** ** The callback as a relation *)

(** The ways a callback can end, each with the world it leaves and the
    page it answers: one constructor per [res.send] of the handler. *)
Inductive CallbackOutcome (env : Server.Env) (code state : string) (w : Server.World)
    : Server.World * Server.Response -> Prop :=
| MissingParameterOutcome :
    Js.truthy code = false \/ Js.truthy state = false ->
    CallbackOutcome env code state w (w, Server.MissingParameter)
| InvalidSessionOutcome :
    Supabase.getPending state (Server.db w) = None ->
    CallbackOutcome env code state w (w, Server.InvalidSession)
| VerificationErrorOutcome pending :
    Supabase.getPending state (Server.db w) = Some pending ->
    Server.oauth env code = None ->
    CallbackOutcome env code state w (w, Server.VerificationError)
| NoNFTOutcome pending discordUser :
    Supabase.getPending state (Server.db w) = Some pending ->
    Server.oauth env code = Some discordUser ->
    CallbackOutcome env code state w
      ({| Server.db := Supabase.deletePending state (Server.db w);
          Server.roleCalls := Server.roleCalls w |},
       Server.NoNFTPage (Server.callbackWallets env pending))
| FidAlreadyLinkedOutcome pending discordUser other :
    Supabase.getPending state (Server.db w) = Some pending ->
    Server.oauth env code = Some discordUser ->
    Supabase.discord_id other <> Server.id discordUser ->
    CallbackOutcome env code state w
      ({| Server.db := Supabase.deletePending state (Server.db w);
          Server.roleCalls := Server.roleCalls w |},
       Server.FidAlreadyLinked (Supabase.Pending.fid pending)
                               (Supabase.discord_username other))
| WalletAlreadyLinkedOutcome pending discordUser other :
    Supabase.getPending state (Server.db w) = Some pending ->
    Server.oauth env code = Some discordUser ->
    Supabase.discord_id other <> Server.id discordUser ->
    CallbackOutcome env code state w
      ({| Server.db := Supabase.deletePending state (Server.db w);
          Server.roleCalls := Server.roleCalls w |},
       Server.WalletAlreadyLinked (Supabase.discord_username other))
| RoleAssignmentFailedOutcome pending discordUser :
    Supabase.getPending state (Server.db w) = Some pending ->
    Server.oauth env code = Some discordUser ->
    Server.assignHolderRole env (Server.id discordUser) = false ->
    CallbackOutcome env code state w
      ({| Server.db := Server.db w;
          Server.roleCalls :=
            Server.roleCalls w ++ [Server.AssignHolderRole (Server.id discordUser)] |},
       Server.RoleAssignmentFailed)
| SuccessOutcome pending discordUser totalBalance holding sybilScore :
    Supabase.getPending state (Server.db w) = Some pending ->
    Server.oauth env code = Some discordUser ->
    Server.assignHolderRole env (Server.id discordUser) = true ->
    Server.checkWallets (Server.rpc env) (Server.callbackWallets env pending)
    = (totalBalance, Some holding) ->
    CallbackOutcome env code state w
      ({| Server.db :=
            Supabase.deletePending state
              (Supabase.storeVerification (Supabase.Pending.fid pending) holding
                 (Server.id discordUser) (Server.username discordUser)
                 totalBalance (Server.now env) (Server.db w));
          Server.roleCalls :=
            Server.roleCalls w ++ [Server.AssignHolderRole (Server.id discordUser)] |},
       Server.SuccessPage (Server.username discordUser) totalBalance sybilScore).

(** ** A verification without its timestamps *)

Definition withoutTimestamps (r : Supabase.DiscordVerification)
    : Z * string * string * string * Z :=
  (Supabase.fid r, Supabase.wallet r, Supabase.discord_id r,
   Supabase.discord_username r, Supabase.nft_balance r).

(** ** Reconciliation *)

(** The row [updateNftBalance] leaves for a verification: new balance,
    new last-checked time, every other field as it was. *)
Definition rechecked (v : Supabase.DiscordVerification) (totalBalance now : Z)
    : Supabase.DiscordVerification :=
  {| Supabase.fid := Supabase.fid v;
     Supabase.wallet := Supabase.wallet v;
     Supabase.discord_id := Supabase.discord_id v;
     Supabase.discord_username := Supabase.discord_username v;
     Supabase.nft_balance := totalBalance;
     Supabase.verified_at := Supabase.verified_at v;
     Supabase.last_checked := now |}.

Module Stale.

Import Supabase Server Sample.

Definition aliceRow : DiscordVerification :=
  {| fid := 0; wallet := walletB; discord_id := id alice;
     discord_username := username alice; nft_balance := 1;
     verified_at := 500; last_checked := 1000 |}.

Definition bobRow : DiscordVerification :=
  {| fid := 0; wallet := walletA; discord_id := id bob;
     discord_username := username bob; nft_balance := 2;
     verified_at := 600; last_checked := 900 |}.

(** Both rows were last checked more than a day before [twoDaysLater]. *)
Definition world : World :=
  {| db := {| discord_verifications := [aliceRow; bobRow];
              discord_pending_verifications := [] |};
     roleCalls := [] |}.

Definition twoDaysLater : Env := envFor alice rpcAB true (2 * 24 * 60 * 60 * 1000).



End Stale.



(** ** Trust score *)

(** The score of a profile that was found. *)
Definition score (user : Neynar.FarcasterUser) : Z :=
  Neynar.calculateSybilScore (Some user).

(** Every input signal of [u'] is at least that of [u]. *)
Definition signalsLe (u u' : Neynar.FarcasterUser) : Prop :=
  Neynar.follower_count u <= Neynar.follower_count u'
  /\ Neynar.following_count u <= Neynar.following_count u'
  /\ Neynar.ethAddresses u <= Neynar.ethAddresses u'
  /\ (Neynar.power_badge u = true -> Neynar.power_badge u' = true)
  /\ (Neynar.hasAvatar u = true -> Neynar.hasAvatar u' = true)
  /\ (Neynar.hasDisplayName u = true -> Neynar.hasDisplayName u' = true).

(** [needle] occurs in [hay]. *)
Definition occursIn (needle hay : string) : Prop :=
  exists pre post, hay = (pre ++ needle ++ post)%string.

Module Profile.

Import Neynar.

(** A bare profile with the given follower and following counts. *)
Definition bare (followers following : Z) : FarcasterUser :=
  {| fid := 42; username := "carol"; display_name := ""; pfp_url := "";
     custody_address := ""; eth_addresses := None;
     follower_count := followers; following_count := following;
     power_badge := false |}.

(** A profile whose picture is the stock one. *)
Definition stockPicture : FarcasterUser :=
  {| fid := 42; username := "carol"; display_name := "";
     pfp_url := "https://cdn.example/default-avatar.png";
     custody_address := ""; eth_addresses := None;
     follower_count := 0; following_count := 0;
     power_badge := false |}.

End Profile.

(** Every wallet kept in a pending session is in lowercase. *)
Definition pendingLowercase (w : Server.World) : Prop :=
  Forall (fun p => Js.toLowerCase (Supabase.Pending.wallet p) = Supabase.Pending.wallet p)
         (Supabase.discord_pending_verifications (Server.db w)).

Module Mixed.

Import Supabase Server Sample.

(** A session opened with an address typed in capitals. *)
Definition history : list (Env * Request) :=
  [ (envFor alice rpcAB true 1000,
     AuthDiscord "session-1" 0 "0xBBBBBBBBBBBBBBBBBBBBBBBBBBBBBBBBBBBBBBBB") ].

Definition pending : Pending.DiscordPendingVerification :=
  {| Pending.session_id := "session-1"; Pending.fid := 0;
     Pending.wallet := walletB; Pending.created_at := 1000 |}.

End Mixed.


(** * The rest of the persistence layer, the routes and the bot *)

(** ** Ordered queries *)

Module Order.

(** Insertion into a list ordered by [before], ahead of the first element
    the new one may precede: the stable order of [.order(...)] and of
    [Array.prototype.sort]. *)
Fixpoint insertBy {A : Type} (before : A -> A -> bool) (v : A) (l : list A) : list A :=
  match l with
  | [] => [v]
  | x :: rest => if before v x then v :: l else x :: insertBy before v rest
  end.

Definition sortBy {A : Type} (before : A -> A -> bool) (l : list A) : list A :=
  fold_right (insertBy before) [] l.

End Order.

(** ** supabase-database.ts, the remaining queries *)

Module Listing.

Import Supabase.

(** [getAllVerifications]: every row, latest verification first. *)
Definition getAllVerifications (d : Database) : list DiscordVerification :=
  Order.sortBy (fun v x => verified_at x <=? verified_at v) (discord_verifications d).

End Listing.

Module WalletOnly.

Import Supabase.

(** A row of [wallet_pending_verifications]; [session_id] is unique and
    [signature] may be null. *)
Record WalletPendingVerification := {
  session_id : string;
  wallet : string;
  nonce : string;
  signature : option string;
  verified : bool;
  created_at : Z
}.

(** [storeWalletPending]: like [storePending], an insert that the unique
    [session_id] can refuse. *)
Definition storeWalletPending (sessionId wallet_ nonce_ : string) (now : Z)
    (table : list WalletPendingVerification) : list WalletPendingVerification :=
  if existsb (fun p => session_id p =? sessionId)%string table
  then table
  else table ++ [{| session_id := sessionId;
                    wallet := Js.toLowerCase wallet_;
                    nonce := nonce_;
                    signature := None;
                    verified := false;
                    created_at := now |}].

Definition getWalletPending (sessionId : string) (table : list WalletPendingVerification)
    : option WalletPendingVerification :=
  Js.single (filter (fun p => session_id p =? sessionId)%string table).

Definition markWalletVerified (sessionId signature_ : string)
    (table : list WalletPendingVerification) : list WalletPendingVerification :=
  map (fun p =>
         if (session_id p =? sessionId)%string
         then {| session_id := session_id p;
                 wallet := wallet p;
                 nonce := nonce p;
                 signature := Some signature_;
                 verified := true;
                 created_at := created_at p |}
         else p)
      table.

Definition deleteWalletPending (sessionId : string)
    (table : list WalletPendingVerification) : list WalletPendingVerification :=
  filter (fun p => negb (session_id p =? sessionId)%string) table.

Definition cleanupOldWalletPending (now : Z) (table : list WalletPendingVerification)
    : list WalletPendingVerification * Z :=
  let oneHourAgo := now - 60 * 60 * 1000 in
  (filter (fun p => negb (created_at p <? oneHourAgo)) table,
   Z.of_nat (List.length (filter (fun p => created_at p <? oneHourAgo) table))).

(** [storeWalletOnlyVerification]: the upsert of [storeVerification] with
    the FID fixed to 0. *)
Definition storeWalletOnlyVerification (wallet_ discordId discordUsername : string)
    (nftBalance : Z) (now : Z) (d : Database) : Database :=
  let row := {| fid := 0;
                Supabase.wallet := Js.toLowerCase wallet_;
                discord_id := discordId;
                discord_username := discordUsername;
                nft_balance := nftBalance;
                verified_at := now;
                last_checked := now |} in
  if existsb (fun r => discord_id r =? discordId)%string (discord_verifications d)
  then withVerifications d
         (map (fun r => if (discord_id r =? discordId)%string then row else r)
              (discord_verifications d))
  else withVerifications d (discord_verifications d ++ [row]).

End WalletOnly.

(** ** neynar.ts and blockchain.ts, the remaining checks *)

Module SybilCheck.

(** [passesSybilCheck(fid, threshold = 25)] *)
Definition passesSybilCheck (resp : option Neynar.FarcasterUser) (threshold : option Z) : bool :=
  let threshold := match threshold with Some t => t | None => 25 end in
  Neynar.calculateSybilScore resp >=? threshold.

End SybilCheck.

Module Ownership.

(** [checkProtardioOwnership]: [balance > 0n], and [false] from the catch. *)
Definition checkProtardioOwnership (rpc : string -> option N) (wallet : string) : bool :=
  match rpc wallet with
  | Some balance => (0 <? balance)%N
  | None => false
  end.

End Ownership.

(** ** index.ts, validation and the pages *)

Module Routes.

Import Supabase Server.

Definition isDigit (c : ascii) : bool :=
  let n := nat_of_ascii c in (Nat.leb 48 n && Nat.leb n 57)%bool.

(** [[a-fA-F0-9]] *)
Definition isHexDigit (c : ascii) : bool :=
  let n := nat_of_ascii c in
  ((Nat.leb 48 n && Nat.leb n 57) || (Nat.leb 97 n && Nat.leb n 102)
   || (Nat.leb 65 n && Nat.leb n 70))%bool.

Fixpoint allChars (p : ascii -> bool) (s : string) : bool :=
  match s with
  | EmptyString => true
  | String c rest => p c && allChars p rest
  end.

(** [/^0x[a-fA-F0-9]{40}$/.test(wallet)] *)
Definition isWalletAddress (wallet : string) : bool :=
  match wallet with
  | String "0" (String "x" digits) =>
      Nat.eqb (String.length digits) 40 && allChars isHexDigit digits
  | _ => false
  end.

(** [/^\d{17,20}$/.test(discord_id)] *)
Definition isDiscordId (discordId : string) : bool :=
  Nat.leb 17 (String.length discordId) && Nat.leb (String.length discordId) 20
  && allChars isDigit discordId.

(** White space and line terminators of ASCII. *)
Definition isWhiteSpace (c : ascii) : bool :=
  let n := nat_of_ascii c in
  ((Nat.leb 9 n && Nat.leb n 13) || Nat.eqb n 32)%bool.

Fixpoint trimStart (s : string) : string :=
  match s with
  | EmptyString => EmptyString
  | String c rest => if isWhiteSpace c then trimStart rest else s
  end.

Fixpoint trimEnd (s : string) : string :=
  match s with
  | EmptyString => EmptyString
  | String c rest =>
      match trimEnd rest with
      | EmptyString => if isWhiteSpace c then EmptyString else String c EmptyString
      | kept => String c kept
      end
  end.

(** [String.prototype.trim] on ASCII text. *)
Definition trim (s : string) : string := trimEnd (trimStart s).

(** How a route that opens a session ends. *)
Inductive RouteResponse :=
| InvalidDiscordId                    (* 400 *)
| FormError (message : string)        (* the form again, with the message *)
| RedirectToDiscord (state : string).

(** [POST /auth/wallet-connect]; [sessionId] is the fresh random id, and a
    field missing from the body is [None]. *)
Definition postWalletConnect (env : Env) (sessionId : string)
    (discord_id_ wallet_ : option string) (w : World) : World * RouteResponse :=
  match discord_id_ with
  | None => (w, InvalidDiscordId)
  | Some discordId =>
      if negb (Js.truthy discordId) || negb (isDiscordId discordId)
      then (w, InvalidDiscordId)
      else
        let walletAddress :=
          match wallet_ with
          | Some wallet => if Js.truthy (trim wallet) then trim wallet else EmptyString
          | None => EmptyString
          end in
        if negb (Js.truthy walletAddress) || negb (isWalletAddress walletAddress)
        then (w, FormError "Please enter a valid wallet address")
        else
          ({| db := storePending sessionId 0 walletAddress (now env) (db w);
              roleCalls := roleCalls w |},
           RedirectToDiscord sessionId)
  end.

(** [GET /api/verification/:discordId]: [None] renders [{ verified: false }],
    a row renders its fields with [verified: true]. *)
Definition apiVerification (discordId : string) (w : World) : option DiscordVerification :=
  getVerificationByDiscord discordId (db w).

(** [GET /api/stats] *)
Definition apiStats (w : World) : Z := getVerifiedCount (db w).

(** The label [renderSuccessPage] puts beside the trust score. *)
Definition scoreLabel (sybilScore : Z) : string :=
  if sybilScore >=? 50 then "High Trust"
  else if sybilScore >=? 25 then "Medium Trust"
  else "Low Trust".

End Routes.

(** ** Strings cut for display *)

Module Display.

(** An index argument of [slice], counted from the end when negative and
    clamped to the string. *)
Definition clampIndex (len i : Z) : Z :=
  if i <? 0 then Z.max (len + i) 0 else Z.min i len.

(** [String.prototype.slice(start, end)]; [None] is an omitted [end]. *)
Definition slice (s : string) (start : Z) (end_ : option Z) : string :=
  let len := Z.of_nat (String.length s) in
  let from := clampIndex len start in
  let to := match end_ with Some e => clampIndex len e | None => len end in
  String.substring (Z.to_nat from) (Z.to_nat (to - from)) s.

(** [`${address.slice(0, 6)}...${address.slice(-4)}`]: [truncateAddress] of
    reservoir.ts, and the same expression in index.ts and bot.ts. *)
Definition truncateAddress (address : string) : string :=
  (slice address 0 (Some 6) ++ "..." ++ slice address (-4) None)%string.

(** [String.prototype.endsWith] *)
Fixpoint endsWith (suffix s : string) : bool :=
  if (s =? suffix)%string then true
  else match s with
       | EmptyString => false
       | String _ rest => endsWith suffix rest
       end.

End Display.

(** ** bot.ts *)

Module Bot.

Import Supabase.

(** [getBaseUrl]: the argument is [process.env.BASE_URL]. *)
Definition getBaseUrl (BASE_URL : option string) : string :=
  let url := match BASE_URL with
             | Some u => if Js.truthy u then u else "http://localhost:3000"
             | None => "http://localhost:3000"
             end in
  if Display.endsWith "/" url then Display.slice url 0 (Some (-1)) else url.

(** The rows of the [!leaderboard] command:
    [verifications.sort((a, b) => b.nft_balance - a.nft_balance).slice(0, 10)];
    an empty list is answered with "No verified holders yet." *)
Definition leaderboard (d : Database) : list DiscordVerification :=
  firstn 10
    (Order.sortBy (fun v x => nft_balance x <=? nft_balance v)
                  (Listing.getAllVerifications d)).

End Bot.

(** ** Loops that an exception ends *)

Module Control.

(** A [for] loop inside a [try] whose [catch] is outside the loop: the
    turns run in order until one throws, and the state is then what the
    turns before it left.  [turn] gives [None] for a turn that throws. *)
Fixpoint forEachUntilThrow {S A : Type} (turn : S -> A -> option S)
    (l : list A) (st : S) : S :=
  match l with
  | [] => st
  | x :: rest =>
      match turn st x with
      | Some st' => forEachUntilThrow turn rest st'
      | None => st
      end
  end.

(** The elements such a loop handles: those before the first that
    throws. *)
Fixpoint beforeThrow {A : Type} (throws : A -> bool) (l : list A) : list A :=
  match l with
  | [] => []
  | x :: rest => if throws x then [] else x :: beforeThrow throws rest
  end.

End Control.

(** ** farcaster-feed.ts *)

Module FarcasterFeed.

(** [addTrackedFid] on the array [TRACKED_FIDS] *)
Definition addTrackedFid (fid : Z) (tracked : list Z) : list Z :=
  if negb (existsb (Z.eqb fid) tracked) then tracked ++ [fid] else tracked.

(** [splice(index, 1)] at the first position holding [fid] *)
Fixpoint removeFirst (fid : Z) (tracked : list Z) : list Z :=
  match tracked with
  | [] => []
  | x :: rest => if x =? fid then rest else x :: removeFirst fid rest
  end.

(** [removeTrackedFid]: [indexOf] gives -1 when [fid] is not tracked. *)
Definition removeTrackedFid (fid : Z) (tracked : list Z) : list Z :=
  if existsb (Z.eqb fid) tracked then removeFirst fid tracked else tracked.

(** The fields of a cast the feed reads ([embeds] as the list of their
    urls). *)
Record Cast := {
  hash : string;
  parent_hash : option string;
  author_username : string;
  text : string;
  embeds : list string
}.

(** What [postCast] sends to the channel (the author line and the
    engagement counters are left out). *)
Record Post := {
  warpcastUrl : string;
  description : string;
  image : option string
}.

Definition isImageUrl (url : string) : bool :=
  Js.truthy url
  && (Display.endsWith ".jpg" url || Display.endsWith ".png" url
      || Display.endsWith ".gif" url || Display.endsWith ".webp" url).

Definition postCast (cast : Cast) : Post :=
  {| warpcastUrl := ("https://warpcast.com/" ++ author_username cast ++ "/"
                     ++ Display.slice (hash cast) 0 (Some 10))%string;
     description := Display.slice (text cast) 0 (Some 4000);
     image := find isImageUrl (embeds cast) |}.

(** [postCast] builds its message before its [try], and a setter of
    [EmbedBuilder] throws on an argument it refuses; the exception then
    leaves [postCast].  [setDescription] refuses the empty string, which is
    what a cast without text gives; [refused] stands for every other reason
    the building throws (what the other setters refuse of the author line,
    the timestamp or the image url, a field missing from the response), on
    fields that are not kept here. *)
Definition embedThrows (refused : Cast -> bool) (cast : Cast) : bool :=
  negb (Js.truthy (Display.slice (text cast) 0 (Some 4000))) || refused cast.

(** The module state: the set [postedCastHashes], in insertion order, and
    what has been handed to [farcasterChannel.send] (a failure of [send]
    itself is caught and logged by [postCast]). *)
Record Feed := {
  postedCastHashes : list string;
  sent : list Post
}.

(** A turn of the loop of [checkForNewCasts] for a cast whose embed is
    built: the message is sent, the hash is added to the set and the set is
    trimmed. *)
Definition postAndRemember (feed : Feed) (cast : Cast) : Feed :=
  let posted := Js.pushNew (postedCastHashes feed) (hash cast) in
  {| postedCastHashes :=
       if Nat.ltb 1000 (List.length posted)
       then let oldHashes := firstn 500 posted in
            filter (fun h => negb (Js.arrayIncludes h oldHashes)) posted
       else posted;
     sent := sent feed ++ [postCast cast] |}.

(** One turn of the loop of [checkForNewCasts]: [None] when [postCast]
    throws, and then nothing is sent and the hash is not added. *)
Definition postOne (refused : Cast -> bool) (feed : Feed) (cast : Cast) : option Feed :=
  if embedThrows refused cast then None else Some (postAndRemember feed cast).

(** The casts of a response that are posted: not yet posted, not replies. *)
Definition newCasts (feed : Feed) (casts : list Cast) : list Cast :=
  filter (fun cast =>
            if Js.arrayIncludes (hash cast) (postedCastHashes feed) then false
            else if Js.truthyOpt (parent_hash cast) then false
            else true)
         casts.

(** [checkForNewCasts]: [channel] tells whether [farcasterChannel] is set,
    [casts] is the answer of [getRecentCasts] ([[]] when it failed).  The
    loop is inside the [try] of the function: an exception of [postCast]
    ends the run. *)
Definition checkForNewCasts (channel : bool) (tracked : list Z) (refused : Cast -> bool)
    (casts : list Cast) (feed : Feed) : Feed :=
  if negb channel || Nat.eqb (List.length tracked) 0 then feed
  else Control.forEachUntilThrow (postOne refused) (rev (newCasts feed casts)) feed.

(** The casts of a response that a run posts. *)
Definition castsPosted (refused : Cast -> bool) (casts : list Cast) (feed : Feed)
    : list Cast :=
  Control.beforeThrow (embedThrows refused) (rev (newCasts feed casts)).

End FarcasterFeed.

(** ** sales-bot.ts *)

Module SalesBot.

Record Sale := {
  saleId : string;
  timestamp : Z
}.

(** The module state: [lastCheckedTimestamp] and the sales posted so far. *)
Record Sales := {
  lastCheckedTimestamp : Z;
  posted : list Sale
}.

(** [Math.max(...xs)] of a non-empty array *)
Definition mathMax (x : Z) (rest : list Z) : Z := fold_left Z.max rest x.

(** One turn of the loop of [checkForNewSales].  [postSale] too builds
    its message before its [try]: [refused] tells the sales for which the
    building throws (a setter of [EmbedBuilder] refusing a thumbnail that is
    no http url, a formatter called on a missing price), on fields that are
    not kept here. *)
Definition postSale (refused : Sale -> bool) (log : list Sale) (sale : Sale)
    : option (list Sale) :=
  if refused sale then None else Some (log ++ [sale]).

(** [checkForNewSales]: [sales] is the answer of
    [getSalesSince(lastCheckedTimestamp)] ([[]] when it failed).  The time
    of the last check is moved before the loop, and the loop is inside the
    [try] of the function: an exception of [postSale] ends the run. *)
Definition checkForNewSales (channel : bool) (refused : Sale -> bool) (sales : list Sale)
    (st : Sales) : Sales :=
  if negb channel then st
  else match map timestamp sales with
       | [] => st
       | t :: ts =>
           {| lastCheckedTimestamp := mathMax t ts + 1;
              posted := Control.forEachUntilThrow (postSale refused) (rev sales)
                                                  (posted st) |}
       end.

(** The sales of an answer that a run posts. *)
Definition salesPosted (refused : Sale -> bool) (sales : list Sale) : list Sale :=
  Control.beforeThrow refused (rev sales).

End SalesBot.

(** ** More sample data *)

Module Sample2.

Import Neynar.

(** A profile with the power badge and nothing else. *)
Definition badged : FarcasterUser :=
  {| fid := 7; username := "dave"; display_name := ""; pfp_url := "";
     custody_address := ""; eth_addresses := None;
     follower_count := 0; following_count := 0; power_badge := true |}.

(** A profile whose custody address is given again, in capitals, among its
    verified addresses. *)
Definition twoWallets : FarcasterUser :=
  {| fid := 8; username := "erin"; display_name := "Erin"; pfp_url := "";
     custody_address := "0xBBBBBBBBBBBBBBBBBBBBBBBBBBBBBBBBBBBBBBBB";
     eth_addresses := Some ["0xbbbbbbbbbbbbbbbbbbbbbbbbbbbbbbbbbbbbbbbb";
                            "0xCCCCCCCCCCCCCCCCCCCCCCCCCCCCCCCCCCCCCCCC"];
     follower_count := 0; following_count := 0; power_badge := false |}.

End Sample2.

Module Conflict.

Import Supabase Server Sample.

(** [alice] is verified with FID 42; [bob] has opened a session with the
    same FID and a wallet of his own. *)
Definition fidTaken : World :=
  run [ (envFor alice rpcAB true 1000, AuthDiscord "session-1" 42 walletC);
        (envFor alice rpcAB true 2000, Callback "code-1" "session-1");
        (envFor bob rpcAB true 3000, AuthDiscord "session-2" 42 walletB) ]
      emptyWorld.

End Conflict.

Module Casts.

Import FarcasterFeed.

(** A long cast with a picture, and a reply to it. *)
Definition picture : Cast :=
  {| hash := "0x1234567890abcdef"; parent_hash := None;
     author_username := "carol"; text := "gm";
     embeds := ["https://example.com/page"; "https://example.com/cat.png"] |}.

Definition reply : Cast :=
  {| hash := "0xfedcba0987654321"; parent_hash := Some "0x1234567890abcdef";
     author_username := "dave"; text := "gm gm"; embeds := [] |}.

(** An older cast without text (a picture alone). *)
Definition silent : Cast :=
  {| hash := "0x0000000000000001"; parent_hash := None;
     author_username := "carol"; text := "";
     embeds := ["https://example.com/dog.png"] |}.

Definition emptyFeed : Feed := {| postedCastHashes := []; sent := [] |}.

(** Every other setter takes what it is given. *)
Definition lenient (cast : Cast) : bool := false.

End Casts.

Module Sold.

Import SalesBot.

Definition earlier : Sale := {| saleId := "sale-1"; timestamp := 1700000100 |}.
Definition later : Sale := {| saleId := "sale-2"; timestamp := 1700000200 |}.
Definition start : Sales := {| lastCheckedTimestamp := 1700000000; posted := [] |}.

(** Nothing is refused. *)
Definition lenient (sale : Sale) : bool := false.

(** The embed of the earlier sale cannot be built. *)
Definition brokenEarlier (sale : Sale) : bool := (saleId sale =? "sale-1")%string.

End Sold.

Module Primary.

Import Supabase Server Sample.

(** A Farcaster profile with custody address [walletB] and verified
    address [walletC]. *)
Definition carol : Neynar.FarcasterUser :=
  {| Neynar.fid := 42; Neynar.username := "carol"; Neynar.display_name := "Carol";
     Neynar.pfp_url := ""; Neynar.custody_address := walletB;
     Neynar.eth_addresses := Some [walletC];
     Neynar.follower_count := 0; Neynar.following_count := 0;
     Neynar.power_badge := false |}.

Definition env : Env :=
  {| oauth := fun _ => Some alice;
     neynar := fun _ => Some carol;
     rpc := rpcAB;
     assignHolderRole := fun _ => true;
     removeHolderRole := fun _ => true;
     now := 2000 |}.

(** A session for FID 42 with the submitted wallet [walletA], which holds
    nothing: the candidates are [walletA], [walletB] and [walletC]. *)
Definition waiting : World :=
  authDiscord env "session-1" 42 walletA emptyWorld.

End Primary.

Module Replay.

Import Supabase Server Sample.

(** What follows the callback of the sample non-holder: another session is
    opened, the two timers run, and the first session id comes back. *)
Definition later : list (Env * Request) :=
  [ (envFor bob rpcAB true 3000, AuthDiscord "session-2" 0 walletB);
    (envFor bob rpcAB true 4000, Cleanup);
    (envFor bob rpcAB true 5000, Reverify);
    (envFor bob rpcAB true 6000, Callback "code-2" "session-2") ].

End Replay.

(** * Properties *)

(** ** Strings and insertion-ordered sets *)

Section JsFacts.

Import Js.

Lemma lowerAscii_idem (c : ascii) : lowerAscii (lowerAscii c) = lowerAscii c.
Proof.
  destruct c as [[] [] [] [] [] [] [] []]; vm_compute; reflexivity.
Qed.

Lemma toLowerCase_idem (s : string) : toLowerCase (toLowerCase s) = toLowerCase s.
Proof.
  induction s as [|c s IH]; simpl; [reflexivity|].
  now rewrite lowerAscii_idem, IH.
Qed.

Lemma truthy_false (s : string) : truthy s = false <-> s = EmptyString.
Proof.
  destruct s; simpl; split; intro H; congruence.
Qed.

Lemma arrayIncludes_In (x : string) (l : list string) :
  arrayIncludes x l = true <-> In x l.
Proof.
  unfold arrayIncludes. rewrite existsb_exists. split.
  - intros [y [Hy He]]. apply String.eqb_eq in He. now subst.
  - intro H. exists x. split; [assumption | apply String.eqb_refl].
Qed.

Lemma arrayIncludes_app (x : string) (l1 l2 : list string) :
  arrayIncludes x (l1 ++ l2) = arrayIncludes x l1 || arrayIncludes x l2.
Proof.
  unfold arrayIncludes. apply existsb_app.
Qed.

Lemma filter_twice {A : Type} (f g : A -> bool) (l : list A) :
  filter f (filter g l) = filter (fun x => g x && f x) l.
Proof.
  induction l as [|a l IH]; simpl; [reflexivity|].
  destruct (g a); simpl; [destruct (f a)|]; now rewrite IH.
Qed.

Lemma fold_pushNew_dedup (l acc : list string) :
  fold_left pushNew l acc
  = acc ++ filter (fun y => negb (arrayIncludes y acc)) (dedup l).
Proof.
  revert acc. induction l as [|x l IH]; intro acc; simpl.
  - now rewrite app_nil_r.
  - rewrite IH. unfold pushNew.
    destruct (arrayIncludes x acc) eqn:Hx; simpl.
    + f_equal. rewrite filter_twice. apply filter_ext. intro y.
      destruct (String.eqb_spec y x) as [->|]; simpl; [now rewrite Hx | reflexivity].
    + rewrite <- app_assoc. simpl. do 2 f_equal.
      rewrite filter_twice. apply filter_ext. intro y.
      rewrite arrayIncludes_app. unfold arrayIncludes at 2. simpl.
      rewrite orb_false_r, negb_orb. apply andb_comm.
Qed.

Lemma newSet_dedup (l : list string) : newSet l = dedup l.
Proof.
  unfold newSet. rewrite fold_pushNew_dedup. simpl.
  induction (dedup l) as [|a d IH]; simpl; [reflexivity | now rewrite IH].
Qed.

Lemma dedup_In (l : list string) (y : string) : In y (dedup l) <-> In y l.
Proof.
  induction l as [|x l IH]; simpl; [tauto|].
  rewrite filter_In, IH. split.
  - intros [H|[H _]]; auto.
  - intros [H|H]; auto.
    destruct (String.eqb_spec y x) as [->|Hne]; auto.
Qed.

Lemma dedup_NoDup (l : list string) : NoDup (dedup l).
Proof.
  induction l as [|x l IH]; simpl; constructor.
  - rewrite filter_In. intros [_ H]. now rewrite String.eqb_refl in H.
  - now apply NoDup_filter.
Qed.

Lemma filter_neq_notin (x : string) (l : list string) :
  ~ In x l -> filter (fun y => negb (y =? x)%string) l = l.
Proof.
  induction l as [|a l IH]; simpl; intro H; [reflexivity|].
  destruct (String.eqb_spec a x) as [->|Hne]; simpl.
  - exfalso. auto.
  - f_equal. apply IH. tauto.
Qed.

Lemma dedup_NoDup_id (l : list string) : NoDup l -> dedup l = l.
Proof.
  induction 1 as [|x l Hx Hl IH]; simpl; [reflexivity|].
  rewrite IH. f_equal. now apply filter_neq_notin.
Qed.

Lemma dedup_idem (l : list string) : dedup (dedup l) = dedup l.
Proof. apply dedup_NoDup_id, dedup_NoDup. Qed.

Lemma dedup_cons_dedup (x : string) (l : list string) :
  dedup (x :: dedup l) = dedup (x :: l).
Proof. simpl. now rewrite dedup_idem. Qed.

End JsFacts.

(** ** Identity Resolver *)

Section Resolver.

Import Js.

Lemma fold_eth_addresses (addrs wallets : list string) :
  fold_left (fun wallets addr =>
               let normalized := toLowerCase addr in
               if negb (arrayIncludes normalized wallets)
               then wallets ++ [normalized]
               else wallets)
            addrs wallets
  = fold_left pushNew (map toLowerCase addrs) wallets.
Proof.
  revert wallets. induction addrs as [|a addrs IH]; intro wallets; simpl.
  - reflexivity.
  - rewrite IH. unfold pushNew.
    now destruct (arrayIncludes (toLowerCase a) wallets).
Qed.

Lemma getFarcasterWallets_dedup (resp : option Neynar.FarcasterUser) :
  Neynar.getFarcasterWallets resp = dedup (map toLowerCase (returnedWallets resp)).
Proof.
  destruct resp as [user|]; simpl; [|reflexivity].
  rewrite <- newSet_dedup. unfold newSet.
  destruct (Neynar.eth_addresses user) as [addrs|].
  - rewrite fold_eth_addresses.
    destruct (truthy (Neynar.custody_address user)); simpl; reflexivity.
  - rewrite app_nil_r.
    destruct (truthy (Neynar.custody_address user)); simpl; reflexivity.
Qed.

Lemma allWallets_orderedUnion (wallet : string) (resp : option Neynar.FarcasterUser) :
  Server.allWallets wallet (Neynar.getFarcasterWallets resp)
  = orderedUnion wallet (returnedWallets resp).
Proof.
  unfold Server.allWallets, orderedUnion.
  rewrite newSet_dedup, getFarcasterWallets_dedup.
  cbn [map]. apply dedup_cons_dedup.
Qed.

Lemma dedup_lowercase (l : list string) :
  Forall (fun x => toLowerCase x = x) (dedup (map toLowerCase l)).
Proof.
  apply Forall_forall. intros x Hx.
  apply dedup_In, in_map_iff in Hx. destruct Hx as [y [<- _]].
  apply toLowerCase_idem.
Qed.

End Resolver.

(** ** Ownership Aggregator *)

Section Aggregator.

Import Js Supabase Server.

Variable rpc : string -> option N.

Lemma balance_nonneg (wallet : string) : 0 <= Blockchain.getProtardioBalance rpc wallet.
Proof.
  unfold Blockchain.getProtardioBalance. destruct (rpc wallet); lia.
Qed.

Lemma balance_positive (wallet : string) :
  (Blockchain.getProtardioBalance rpc wallet >? 0) = positiveBalance rpc wallet.
Proof.
  unfold Blockchain.getProtardioBalance, positiveBalance.
  destruct (rpc wallet) as [[|p]|]; reflexivity.
Qed.

Lemma sumOfLookups_cons (wallet : string) (rest : list string) :
  sumOfLookups rpc (wallet :: rest)
  = Blockchain.getProtardioBalance rpc wallet + sumOfLookups rpc rest.
Proof. reflexivity. Qed.

Lemma walletLoop_total (wallets : list string) (totalBalance : Z) (holding : option string) :
  fst (fold_left (walletStep rpc) wallets (totalBalance, holding))
  = totalBalance + sumOfLookups rpc wallets.
Proof.
  revert totalBalance holding.
  induction wallets as [|wallet rest IH]; intros totalBalance holding.
  - simpl. lia.
  - rewrite sumOfLookups_cons. cbn [fold_left walletStep].
    pose proof (balance_nonneg wallet) as Hnn.
    destruct (Blockchain.getProtardioBalance rpc wallet >? 0) eqn:Hpos.
    + rewrite IH. lia.
    + rewrite IH. rewrite Z.gtb_ltb in Hpos. apply Z.ltb_ge in Hpos. lia.
Qed.

Lemma walletLoop_keeps (wallets : list string) (totalBalance : Z) (holding : option string) :
  truthyOpt holding = true ->
  snd (fold_left (walletStep rpc) wallets (totalBalance, holding)) = holding.
Proof.
  revert totalBalance.
  induction wallets as [|wallet rest IH]; intros totalBalance Hh; [reflexivity|].
  cbn [fold_left walletStep].
  destruct (Blockchain.getProtardioBalance rpc wallet >? 0).
  - rewrite Hh. cbn [negb]. now apply IH.
  - now apply IH.
Qed.

Lemma walletLoop_holding (wallets : list string) (totalBalance : Z) (holding : option string) :
  positiveBalance rpc EmptyString = false ->
  truthyOpt holding = false ->
  snd (fold_left (walletStep rpc) wallets (totalBalance, holding))
  = match find (positiveBalance rpc) wallets with
    | Some first => Some first
    | None => holding
    end.
Proof.
  intros Hempty. revert totalBalance holding.
  induction wallets as [|wallet rest IH]; intros totalBalance holding Hh; [reflexivity|].
  cbn [fold_left walletStep find]. rewrite balance_positive.
  destruct (positiveBalance rpc wallet) eqn:Hpos.
  - rewrite Hh. cbn [negb]. apply walletLoop_keeps.
    destruct wallet; [congruence | reflexivity].
  - now apply IH.
Qed.

Lemma walletLoop_none (wallets : list string) (st : Z * option string) :
  find (positiveBalance rpc) wallets = None ->
  fold_left (walletStep rpc) wallets st = st.
Proof.
  revert st. induction wallets as [|wallet rest IH]; intros [t h] Hnone; [reflexivity|].
  cbn [find] in Hnone. cbn [fold_left walletStep]. rewrite balance_positive.
  destruct (positiveBalance rpc wallet); [discriminate | now apply IH].
Qed.

Lemma checkWallets_total (wallets : list string) :
  fst (checkWallets rpc wallets) = sumOfLookups rpc wallets.
Proof.
  unfold checkWallets. rewrite walletLoop_total. lia.
Qed.

End Aggregator.

(** ** The callback, branch by branch *)

Section CallbackFlow.

Import Js Supabase Server.

Variable env : Env.
Variables code state : string.
Variable w : World.
Variable pending : Pending.DiscordPendingVerification.
Variable discordUser : DiscordUser.

Hypothesis Hcode : truthy code = true.
Hypothesis Hstate : truthy state = true.
Hypothesis Hpending : getPending state (db w) = Some pending.
Hypothesis Houath : oauth env code = Some discordUser.

Lemma callback_not_holder :
  find (positiveBalance (rpc env)) (callbackWallets env pending) = None ->
  callback env code state w
  = ({| db := deletePending state (db w); roleCalls := roleCalls w |},
     NoNFTPage (callbackWallets env pending)).
Proof.
  intro Hnone. unfold callback.
  rewrite Hcode, Hstate. cbn [negb orb]. rewrite Hpending, Houath.
  unfold checkWallets. rewrite (walletLoop_none _ _ _ Hnone). reflexivity.
Qed.

End CallbackFlow.

Section PrimaryWallet.

Import Js Supabase Server.

Lemma find_none_of_zero (rpc : string -> option N) (wallets : list string) :
  Forall (fun wallet => Blockchain.getProtardioBalance rpc wallet = 0) wallets ->
  find (positiveBalance rpc) wallets = None.
Proof.
  induction 1 as [|wallet rest Hz _ IH]; [reflexivity|].
  cbn [find]. rewrite <- balance_positive, Hz. exact IH.
Qed.

End PrimaryWallet.

(** ** Binding Registry: keys that stay unique *)

Section UniqueKeys.

Import Supabase.

Context {K : Type}.
Variable relevant : DiscordVerification -> bool.
Variable key : DiscordVerification -> K.

Lemma uniqueBy_cons_inv (a : DiscordVerification) (rows : list DiscordVerification) :
  uniqueBy relevant key (a :: rows) -> uniqueBy relevant key rows.
Proof.
  unfold uniqueBy. cbn [filter]. destruct (relevant a); [|auto].
  cbn [map]. intro H. now inversion H.
Qed.

Lemma uniqueBy_cons_notin (a r : DiscordVerification) (rows : list DiscordVerification) :
  uniqueBy relevant key (a :: rows) ->
  relevant a = true -> In r rows -> relevant r = true -> key r <> key a.
Proof.
  unfold uniqueBy. cbn [filter]. intros H Ha Hr Hrel. rewrite Ha in H.
  cbn [map] in H. inversion H as [|? ? Hnotin _]; subst.
  intro Heq. apply Hnotin. rewrite <- Heq.
  apply in_map, filter_In. auto.
Qed.

Lemma uniqueBy_cons (a : DiscordVerification) (rows : list DiscordVerification) :
  uniqueBy relevant key rows ->
  (relevant a = true ->
   forall r, In r rows -> relevant r = true -> key r <> key a) ->
  uniqueBy relevant key (a :: rows).
Proof.
  unfold uniqueBy. cbn [filter]. intros H Hnew.
  destruct (relevant a) eqn:Ha; [|assumption].
  cbn [map]. constructor; [|assumption].
  intro Hin. apply in_map_iff in Hin. destruct Hin as [r [Heq Hr]].
  apply filter_In in Hr. destruct Hr as [Hr Hrel].
  exact (Hnew eq_refl r Hr Hrel Heq).
Qed.

Lemma uniqueBy_filter (p : DiscordVerification -> bool) (rows : list DiscordVerification) :
  uniqueBy relevant key rows -> uniqueBy relevant key (filter p rows).
Proof.
  induction rows as [|a rows IH]; intro H; [assumption|].
  cbn [filter]. pose proof (uniqueBy_cons_inv _ _ H) as Hrest.
  destruct (p a); [|auto].
  apply uniqueBy_cons; [auto|].
  intros Ha r Hr Hrel. apply filter_In in Hr.
  apply (uniqueBy_cons_notin a r rows); tauto.
Qed.

Lemma uniqueBy_map (g : DiscordVerification -> DiscordVerification)
    (rows : list DiscordVerification) :
  (forall r, key (g r) = key r) ->
  (forall r, relevant (g r) = relevant r) ->
  uniqueBy relevant key rows -> uniqueBy relevant key (map g rows).
Proof.
  intros Hkey Hrel. unfold uniqueBy.
  assert (E : map key (filter relevant (map g rows)) = map key (filter relevant rows)).
  { induction rows as [|a rows IH]; [reflexivity|].
    cbn [map filter]. rewrite Hrel. destruct (relevant a); cbn [map]; now rewrite ?Hkey, IH. }
  now rewrite E.
Qed.

Lemma uniqueBy_append (row : DiscordVerification) (rows : list DiscordVerification) :
  uniqueBy relevant key rows ->
  (relevant row = true ->
   forall r, In r rows -> relevant r = true -> key r <> key row) ->
  uniqueBy relevant key (rows ++ [row]).
Proof.
  induction rows as [|a rows IH]; intros H Hnew.
  - apply uniqueBy_cons; [constructor | intros _ r []].
  - cbn [app]. apply uniqueBy_cons.
    + apply IH; [exact (uniqueBy_cons_inv _ _ H)|].
      intros Hrow r Hr. apply Hnew; [assumption | now right].
    + intros Ha r Hr Hrel. apply in_app_or in Hr. destruct Hr as [Hr|[<-|[]]].
      * exact (uniqueBy_cons_notin a r rows H Ha Hr Hrel).
      * intro Heq. symmetry in Heq. revert Heq. apply Hnew; [assumption | now left | assumption].
Qed.

End UniqueKeys.

Section Upsert.

Import Supabase.

Context {K : Type}.
Variable relevant : DiscordVerification -> bool.
Variable key : DiscordVerification -> K.

(** Overwriting in place the row of one account. *)
Lemma uniqueBy_replace (discordId : string) (row : DiscordVerification)
    (rows : list DiscordVerification) :
  uniqueDiscordIds rows ->
  uniqueBy relevant key rows ->
  (relevant row = true ->
   forall r, In r rows -> discord_id r <> discordId ->
             relevant r = true -> key r <> key row) ->
  uniqueBy relevant key
    (map (fun r => if (discord_id r =? discordId)%string then row else r) rows).
Proof.
  induction rows as [|a rows IH]; intros Hids H Hnew; [assumption|].
  cbn [map].
  assert (Hrest : uniqueBy relevant key
            (map (fun r => if (discord_id r =? discordId)%string then row else r) rows)).
  { apply IH; [exact (uniqueBy_cons_inv _ _ _ _ Hids)
              | exact (uniqueBy_cons_inv _ _ _ _ H) |].
    intros Hrow r Hr. apply Hnew; [assumption | now right]. }
  apply uniqueBy_cons; [assumption|].
  intros Hhead r Hr Hrel Heq.
  apply in_map_iff in Hr. destruct Hr as [r0 [Hr0 Hin]].
  destruct (String.eqb_spec (discord_id a) discordId) as [Ea|Na];
  destruct (String.eqb_spec (discord_id r0) discordId) as [E0|N0]; subst r.
  - apply (uniqueBy_cons_notin (fun _ => true) discord_id a r0 rows Hids eq_refl Hin eq_refl).
    congruence.
  - exact (Hnew Hhead r0 (or_intror Hin) N0 Hrel Heq).
  - symmetry in Heq. exact (Hnew Hrel a (or_introl eq_refl) Na Hhead Heq).
  - exact (uniqueBy_cons_notin relevant key a r0 rows H Hhead Hin Hrel Heq).
Qed.

(** The row a query with [.single()] returns, when the rows it selects
    are among those whose key is unique and all have the same key. *)
Lemma single_filter_unique (test : DiscordVerification -> bool)
    (r : DiscordVerification) (rows : list DiscordVerification) :
  (forall x, test x = true -> relevant x = true) ->
  (forall x y, test x = true -> test y = true -> key x = key y) ->
  uniqueBy relevant key rows ->
  In r rows -> test r = true ->
  Js.single (filter test rows) = Some r.
Proof.
  intros Hrel Hsame Huniq Hin Htest.
  assert (E : filter test rows = [r]); [|now rewrite E].
  induction rows as [|a rows IH]; [contradiction|].
  cbn [filter]. pose proof (uniqueBy_cons_inv _ _ _ _ Huniq) as Hrest.
  assert (Hclash : test a = true -> forall x, In x rows -> test x = true -> False).
  { intros Ha x Hx Htx.
    apply (uniqueBy_cons_notin relevant key a x rows Huniq); auto. }
  destruct (test a) eqn:Ha.
  - destruct Hin as [->|Hin]; [|exfalso; eauto].
    f_equal. destruct (filter test rows) as [|x l] eqn:Ef; [reflexivity|].
    exfalso. assert (Hx : In x (filter test rows)) by (rewrite Ef; now left).
    apply filter_In in Hx. destruct Hx as [Hx Htx]. eauto.
  - destruct Hin as [->|Hin]; [congruence|]. now apply IH.
Qed.

End Upsert.

Section Registry.

Import Js Supabase Server.

Lemma existsb_discord_id_false (discordId : string) (rows : list DiscordVerification) :
  existsb (fun r => discord_id r =? discordId)%string rows = false ->
  forall r, In r rows -> discord_id r <> discordId.
Proof.
  intros H r Hr Heq.
  assert (Ht : existsb (fun r => discord_id r =? discordId)%string rows = true).
  { apply existsb_exists. exists r. split; [assumption | now apply String.eqb_eq]. }
  congruence.
Qed.

(** The upsert keeps a key unique as soon as no row of another account
    has the key of the row written. *)
Lemma upsert_uniqueBy {K : Type} (relevant : DiscordVerification -> bool)
    (key : DiscordVerification -> K)
    (fid_ : Z) (wallet_ discordId discordUsername : string) (nftBalance now_ : Z)
    (d : Database) :
  uniqueDiscordIds (discord_verifications d) ->
  uniqueBy relevant key (discord_verifications d) ->
  (forall r, In r (discord_verifications d) -> discord_id r <> discordId ->
             relevant r = true ->
             key r <> key {| fid := fid_; wallet := toLowerCase wallet_;
                             discord_id := discordId;
                             discord_username := discordUsername;
                             nft_balance := nftBalance;
                             verified_at := now_; last_checked := now_ |}) ->
  uniqueBy relevant key
    (discord_verifications
       (storeVerification fid_ wallet_ discordId discordUsername nftBalance now_ d)).
Proof.
  intros Hids Huniq Hnew. unfold storeVerification.
  destruct (existsb (fun r => discord_id r =? discordId)%string (discord_verifications d))
    eqn:Hex; cbn [withVerifications discord_verifications].
  - apply uniqueBy_replace; auto.
  - apply uniqueBy_append; [assumption|].
    intros _ r Hr. apply Hnew; [assumption|].
    exact (existsb_discord_id_false _ _ Hex r Hr).
Qed.

Lemma linkedToOther_none (existing : DiscordVerification) (discordId : string) :
  linkedToOther (Some existing) discordId = None -> discord_id existing = discordId.
Proof.
  unfold linkedToOther.
  destruct (String.eqb_spec (discord_id existing) discordId); [auto | discriminate].
Qed.

(** What the wallet check of the callback establishes. *)
Lemma wallet_check_passed (holding discordId : string) (d : Database) :
  uniqueWallets (discord_verifications d) ->
  linkedToOther (getVerificationByWallet holding d) discordId = None ->
  forall r, In r (discord_verifications d) ->
            wallet r = toLowerCase holding -> discord_id r = discordId.
Proof.
  intros Huniq Hcheck r Hr Hw. unfold getVerificationByWallet in Hcheck.
  rewrite (single_filter_unique (fun _ => true) wallet
             (fun r => (wallet r =? toLowerCase holding)%string) r) in Hcheck; auto.
  - now apply linkedToOther_none.
  - intros x y Hx Hy. apply String.eqb_eq in Hx, Hy. congruence.
  - now apply String.eqb_eq.
Qed.

(** What the FID check of the callback establishes, for a positive FID. *)
Lemma fid_check_passed (fid_ : Z) (discordId : string) (d : Database) :
  uniquePositiveFids (discord_verifications d) ->
  fid_ > 0 ->
  linkedToOther (getVerificationByFid fid_ d) discordId = None ->
  forall r, In r (discord_verifications d) -> fid r = fid_ -> discord_id r = discordId.
Proof.
  intros Huniq Hpos Hcheck r Hr Hf. unfold getVerificationByFid in Hcheck.
  rewrite (single_filter_unique (fun r => fid r >? 0) fid
             (fun r => fid r =? fid_) r) in Hcheck; auto.
  - now apply linkedToOther_none.
  - intros x Hx. apply Z.eqb_eq in Hx. rewrite Hx. now apply Z.gtb_lt, Z.gt_lt.
  - intros x y Hx Hy. apply Z.eqb_eq in Hx, Hy. congruence.
  - now apply Z.eqb_eq.
Qed.

(** A verification written after both checks keeps the bindings unique. *)
Lemma storeVerification_unique
    (fid_ : Z) (holding discordId discordUsername : string) (nftBalance now_ : Z)
    (d : Database) :
  bindingsUnique (discord_verifications d) ->
  (if fid_ >? 0 then linkedToOther (getVerificationByFid fid_ d) discordId else None)
  = None ->
  linkedToOther (getVerificationByWallet holding d) discordId = None ->
  bindingsUnique
    (discord_verifications
       (storeVerification fid_ holding discordId discordUsername nftBalance now_ d)).
Proof.
  intros (Hids & Hfids & Hwallets) Hfid Hwallet. repeat split.
  - apply upsert_uniqueBy; auto.
  - apply upsert_uniqueBy; auto. cbn [fid].
    intros r Hr Hne Hrel Heq.
    destruct (fid_ >? 0) eqn:Hpos.
    + apply Hne. apply (fid_check_passed fid_ discordId d); auto.
      now apply Z.lt_gt, Z.gtb_lt.
    + rewrite Heq in Hrel. congruence.
  - apply upsert_uniqueBy; auto. cbn [wallet].
    intros r Hr Hne _ Heq. apply Hne.
    apply (wallet_check_passed holding discordId d); auto.
Qed.

Lemma deletePending_verifications (sessionId : string) (d : Database) :
  discord_verifications (deletePending sessionId d) = discord_verifications d.
Proof. reflexivity. Qed.

Lemma storePending_verifications (sessionId : string) (fid_ : Z) (wallet_ : string)
    (now_ : Z) (d : Database) :
  discord_verifications (storePending sessionId fid_ wallet_ now_ d)
  = discord_verifications d.
Proof.
  unfold storePending.
  destruct (isInteger fid_); cbn [negb]; [|reflexivity].
  now destruct (existsb _ (discord_pending_verifications d)).
Qed.

(** The callback keeps the bindings unique, whatever branch it takes. *)
Lemma callback_unique (env : Env) (code state : string) (w : World) :
  bindingsUnique (discord_verifications (db w)) ->
  bindingsUnique (discord_verifications (db (fst (callback env code state w)))).
Proof.
  intro Hinv. unfold callback.
  destruct (negb (truthy code) || negb (truthy state)); [assumption|].
  destruct (getPending state (db w)) as [pending|]; [|assumption].
  destruct (oauth env code) as [discordUser|]; [|assumption].
  destruct (checkWallets (rpc env) (callbackWallets env pending))
    as [totalBalance [holding|]]; [|assumption].
  destruct ((totalBalance >? 0) && truthy holding); [|assumption].
  destruct (if Pending.fid pending >? 0
            then linkedToOther (getVerificationByFid (Pending.fid pending) (db w))
                               (id discordUser)
            else None) eqn:Hfid; [assumption|].
  destruct (linkedToOther (getVerificationByWallet holding (db w)) (id discordUser))
    eqn:Hwallet; [assumption|].
  destruct (assignHolderRole env (id discordUser)); [|assumption].
  cbn [fst db]. rewrite deletePending_verifications.
  now apply storeVerification_unique.
Qed.

Lemma reverifyOne_unique (env : Env) (w : World) (v : DiscordVerification) :
  bindingsUnique (discord_verifications (db w)) ->
  bindingsUnique (discord_verifications (db (reverifyOne env w v))).
Proof.
  intros (Hids & Hfids & Hwallets). unfold reverifyOne.
  destruct (reverifyBalance env v =? 0);
    cbn [db deleteVerification updateNftBalance withVerifications discord_verifications].
  - repeat split; now apply uniqueBy_filter.
  - repeat split; apply uniqueBy_map; auto;
      intro r; now destruct (discord_id r =? discord_id v)%string.
Qed.

Lemma reverify_unique (env : Env) (w : World) :
  bindingsUnique (discord_verifications (db w)) ->
  bindingsUnique (discord_verifications (db (reverify env w))).
Proof.
  unfold reverify. generalize (getStaleVerifications (now env) (db w)) as stale.
  intro stale. revert w.
  induction stale as [|v stale IH]; intros w Hinv; [assumption|].
  cbn [fold_left]. apply IH. now apply reverifyOne_unique.
Qed.

Lemma serve_unique (w : World) (step : Env * Request) :
  bindingsUnique (discord_verifications (db w)) ->
  bindingsUnique (discord_verifications (db (serve w step))).
Proof.
  destruct step as [env [sessionId fid_ wallet_|code state| |]]; cbn [serve]; intro Hinv.
  - unfold authDiscord. cbn [db]. now rewrite storePending_verifications.
  - now apply callback_unique.
  - now apply reverify_unique.
  - assumption.
Qed.

End Registry.

(** ** Uniqueness after any history *)

Section Uniqueness.

Import Js Supabase Server.

Lemma run_unique (history : list (Env * Request)) (w : World) :
  bindingsUnique (discord_verifications (db w)) ->
  bindingsUnique (discord_verifications (db (run history w))).
Proof.
  revert w. induction history as [|step history IH]; intros w Hinv; [assumption|].
  cbn [run fold_left]. apply IH. now apply serve_unique.
Qed.

(** C3, as the code has it.  After any history of requests served from
    empty tables (sessions opened, callbacks completed or refused,
    re-verifications, sweeps), no two persisted verifications have the same
    Discord id, no two have the same primary wallet, and no two have the
    same positive social identifier. *)
Theorem bindings_unique_after_any_history (history : list (Env * Request)) :
  uniqueDiscordIds (bindingsAfter history)
  /\ uniquePositiveFids (bindingsAfter history)
  /\ uniqueWallets (bindingsAfter history).
Proof.
  apply (run_unique history Sample.emptyWorld).
  repeat split; constructor.
Qed.

(** C3, as stated, fails: the FID check is made for positive identifiers
    only, so two accounts that both come with the identifier [-5] (which
    [/auth/discord] accepts) are both bound, and two verifications share a
    social identifier that is not zero. *)
Lemma bindings_share_nonzero_fid :
  map (fun r => (discord_id r, fid r, wallet r)) (bindingsAfter Scenario.negativeFidTwice)
  = [ (id Sample.alice, -5, Sample.walletB); (id Sample.bob, -5, Sample.walletC) ]
  /\ ~ uniqueNonZeroFids (bindingsAfter Scenario.negativeFidTwice).
Proof.
  split; [vm_compute; reflexivity|].
  unfold uniqueNonZeroFids, uniqueBy.
  replace (map fid (filter (fun r => negb (fid r =? 0))
                           (bindingsAfter Scenario.negativeFidTwice)))
    with [-5; -5] by (vm_compute; reflexivity).
  intro H. inversion H as [|? ? Hnotin _]. apply Hnotin. now left.
Qed.

End Uniqueness.

(** ** Outcomes of the callback *)

Section Outcomes.

Import Js Supabase Server.

Lemma linkedToOther_some (existing : option DiscordVerification) (discordId : string)
    (other : DiscordVerification) :
  linkedToOther existing discordId = Some other -> discord_id other <> discordId.
Proof.
  unfold linkedToOther. destruct existing as [e|]; [|discriminate].
  destruct (String.eqb_spec (discord_id e) discordId); [discriminate|].
  intro H. injection H as <-. assumption.
Qed.

(** Every run of the handler ends in one of the listed outcomes. *)
Lemma callback_outcome (env : Env) (code state : string) (w : World) :
  CallbackOutcome env code state w (callback env code state w).
Proof.
  unfold callback.
  destruct (truthy code) eqn:Hcode; [|apply MissingParameterOutcome; now left].
  destruct (truthy state) eqn:Hstate; [|apply MissingParameterOutcome; now right].
  cbn [negb orb].
  destruct (getPending state (db w)) as [pending|] eqn:Hpending;
    [|now apply InvalidSessionOutcome].
  destruct (oauth env code) as [discordUser|] eqn:Hoauth;
    [|now apply VerificationErrorOutcome with pending].
  destruct (checkWallets (rpc env) (callbackWallets env pending))
    as [totalBalance [holding|]] eqn:Hcheck;
    [|now apply NoNFTOutcome with discordUser].
  destruct ((totalBalance >? 0) && truthy holding);
    [|now apply NoNFTOutcome with discordUser].
  destruct (if Pending.fid pending >? 0
            then linkedToOther (getVerificationByFid (Pending.fid pending) (db w))
                               (id discordUser)
            else None) as [other|] eqn:Hfid.
  { apply FidAlreadyLinkedOutcome with discordUser; auto.
    destruct (Pending.fid pending >? 0); [|discriminate].
    now apply linkedToOther_some in Hfid. }
  destruct (linkedToOther (getVerificationByWallet holding (db w)) (id discordUser))
    as [other|] eqn:Hwallet.
  { apply WalletAlreadyLinkedOutcome with pending discordUser; auto.
    now apply linkedToOther_some in Hwallet. }
  destruct (assignHolderRole env (id discordUser)) eqn:Hrole.
  - now apply SuccessOutcome.
  - now apply RoleAssignmentFailedOutcome with pending.
Qed.

Lemma calls_not_extended (calls : list RoleCall) (call : RoleCall) :
  calls <> calls ++ [call].
Proof.
  intro H. rewrite <- (app_nil_r calls) in H at 1.
  apply app_inv_head in H. discriminate.
Qed.

Lemma getPending_deleted (sessionId : string) (d : Database) :
  getPending sessionId (deletePending sessionId d) = None.
Proof.
  unfold getPending, deletePending. cbn [withPending discord_pending_verifications].
  rewrite filter_twice.
  replace (filter _ (discord_pending_verifications d)) with
    (@nil Pending.DiscordPendingVerification); [reflexivity|].
  induction (discord_pending_verifications d) as [|p l IH]; [reflexivity|].
  cbn [filter]. now destruct (Pending.session_id p =? sessionId)%string.
Qed.

Lemma storeVerification_pending (fid_ : Z) (wallet_ discordId discordUsername : string)
    (nftBalance now_ : Z) (d : Database) :
  discord_pending_verifications
    (storeVerification fid_ wallet_ discordId discordUsername nftBalance now_ d)
  = discord_pending_verifications d.
Proof.
  unfold storeVerification.
  now destruct (existsb _ (discord_verifications d)).
Qed.

Lemma getPending_deleted_after_store (sessionId : string)
    (fid_ : Z) (wallet_ discordId discordUsername : string) (nftBalance now_ : Z)
    (d : Database) :
  getPending sessionId
    (deletePending sessionId
       (storeVerification fid_ wallet_ discordId discordUsername nftBalance now_ d))
  = None.
Proof. apply getPending_deleted. Qed.

Lemma callback_without_session (env : Env) (code state : string) (w : World) :
  getPending state (db w) = None ->
  fst (callback env code state w) = w
  /\ (snd (callback env code state w) = MissingParameter
      \/ snd (callback env code state w) = InvalidSession).
Proof.
  intro Hnone. unfold callback.
  destruct (negb (truthy code) || negb (truthy state)); [now auto|].
  rewrite Hnone. now auto.
Qed.

End Outcomes.

(** ** The aggregate inside the flow *)

Section AggregateInFlow.

Import Js Supabase Server.

(** C1.  For every wallet list, the total the wallet loop of the callback
    computes is the sum of the per-wallet lookups over the whole list, a
    lookup that fails counting 0 for its wallet and the loop going on with
    the wallets after it.  The balance a successful callback reports (and
    stores) is that sum over the candidate wallets of its session. *)
Theorem aggregate_balance_is_sum (env : Env) :
  (forall wallets,
     fst (checkWallets (rpc env) wallets) = sumOfLookups (rpc env) wallets)
  /\
  (forall code state w discordUsername balance sybilScore,
     snd (callback env code state w) = SuccessPage discordUsername balance sybilScore ->
     exists pending,
       getPending state (db w) = Some pending
       /\ balance = sumOfLookups (rpc env) (callbackWallets env pending)).
Proof.
  split; [apply checkWallets_total|].
  intros code state w discordUsername balance sybilScore.
  pose proof (callback_outcome env code state w) as Hout.
  destruct Hout as [| | | | | | |pending discordUser totalBalance holding score_ Hp Ho Hr Hc];
    cbn [snd]; intro Hpage; try discriminate.
  injection Hpage as _ <- _. exists pending. split; [assumption|].
  rewrite <- checkWallets_total, Hc. reflexivity.
Qed.

(** A holder of three tokens: the success page reports 3, the sum over the
    one candidate wallet. *)
Lemma aggregate_balance_is_sum_witness :
  exists pending,
    getPending "session-1" (db Scenario.holderWaiting) = Some pending
    /\ 3 = sumOfLookups Sample.rpcAB
             (callbackWallets (Sample.envFor Sample.alice Sample.rpcAB true 2000) pending).
Proof.
  exact (proj2 (aggregate_balance_is_sum (Sample.envFor Sample.alice Sample.rpcAB true 2000))
               "code-1" "session-1" Scenario.holderWaiting "alice" 3 0 eq_refl).
Defined.

End AggregateInFlow.

(** ** The resolver inside the flow *)

Section ResolverInFlow.

Import Js Supabase Server.

Lemma single_In {A : Type} (rows : list A) (r : A) :
  single rows = Some r -> In r rows.
Proof.
  destruct rows as [|a [|b rows]]; cbn; intro H; try discriminate.
  injection H as ->. now left.
Qed.

Lemma getPending_In (sessionId : string) (d : Database)
    (pending : Pending.DiscordPendingVerification) :
  getPending sessionId d = Some pending ->
  In pending (discord_pending_verifications d).
Proof.
  unfold getPending. intro H. apply single_In, filter_In in H. tauto.
Qed.

Lemma Forall_filter {A : Type} (P : A -> Prop) (f : A -> bool) (l : list A) :
  Forall P l -> Forall P (filter f l).
Proof.
  rewrite !Forall_forall. intros H x Hx. apply filter_In in Hx. apply H. tauto.
Qed.

Lemma reverifyOne_pending (env : Env) (w : World) (v : DiscordVerification) :
  discord_pending_verifications (db (reverifyOne env w v))
  = discord_pending_verifications (db w).
Proof.
  unfold reverifyOne. now destruct (reverifyBalance env v =? 0).
Qed.

Lemma reverify_pending (env : Env) (w : World) :
  discord_pending_verifications (db (reverify env w))
  = discord_pending_verifications (db w).
Proof.
  unfold reverify. generalize (getStaleVerifications (now env) (db w)) as stale.
  intro stale. revert w. induction stale as [|v stale IH]; intro w; [reflexivity|].
  cbn [fold_left]. rewrite IH. apply reverifyOne_pending.
Qed.

Lemma serve_pending_lowercase (w : World) (step : Env * Request) :
  pendingLowercase w -> pendingLowercase (serve w step).
Proof.
  unfold pendingLowercase.
  destruct step as [env [sessionId fid_ wallet_|code state| |]]; cbn [serve]; intro H.
  - unfold authDiscord, storePending. cbn [db].
    destruct (isInteger fid_); cbn [negb]; [|assumption].
    destruct (existsb _ (discord_pending_verifications (db w))); [assumption|].
    cbn [withPending discord_pending_verifications].
    apply Forall_app. split; [assumption|].
    constructor; [|constructor]. cbn. apply toLowerCase_idem.
  - destruct (callback_outcome env code state w);
      cbn [fst db deletePending withPending discord_pending_verifications];
      try assumption; try (now apply Forall_filter).
    apply Forall_filter. now rewrite storeVerification_pending.
  - now rewrite reverify_pending.
  - unfold cleanup, cleanupOldPending.
    cbn [fst db withPending discord_pending_verifications].
    now apply Forall_filter.
Qed.

Lemma run_pending_lowercase (history : list (Env * Request)) (w : World) :
  pendingLowercase w -> pendingLowercase (run history w).
Proof.
  revert w. induction history as [|step history IH]; intros w H; [assumption|].
  cbn [run fold_left]. apply IH. now apply serve_pending_lowercase.
Qed.

(** C7.  The candidate wallets of the callback are the ordered,
    de-duplicated union the specification describes: the submitted wallet in
    lowercase comes first, the wallets the social-graph lookup returned
    follow in their order (lowercased, without repetition), every entry is in
    lowercase, the normalized submitted wallet is a member and the list is
    never empty.  For a session the server holds after any history, the
    wallet was stored in lowercase, so the list contains it as it is. *)
Theorem resolver_ordered_union
    (env : Env) (pending : Pending.DiscordPendingVerification) :
  let submitted := toLowerCase (Pending.wallet pending) in
  let W := callbackWallets env pending in
  W = orderedUnion (Pending.wallet pending) (discoveredWallets env pending)
  /\ W = submitted
         :: filter (fun y => negb (y =? submitted)%string)
                   (dedup (map toLowerCase (discoveredWallets env pending)))
  /\ NoDup W
  /\ Forall (fun x => toLowerCase x = x) W
  /\ In submitted W
  /\ W <> []
  /\ (forall history state,
        getPending state (db (run history Sample.emptyWorld)) = Some pending ->
        In (Pending.wallet pending) W).
Proof.
  intros submitted W.
  assert (HW : W = orderedUnion (Pending.wallet pending)
                                (discoveredWallets env pending)).
  { unfold W, callbackWallets, discoveredWallets.
    destruct (Pending.fid pending >? 0).
    - apply allWallets_orderedUnion.
    - apply (allWallets_orderedUnion _ None). }
  split; [exact HW|].
  assert (Hhead : In submitted W).
  { rewrite HW. unfold orderedUnion. cbn [map dedup]. now left. }
  rewrite HW. unfold orderedUnion. cbn [map dedup]. fold submitted.
  repeat split.
  - apply (dedup_NoDup (submitted :: map toLowerCase (discoveredWallets env pending))).
  - apply (dedup_lowercase (Pending.wallet pending :: discoveredWallets env pending)).
  - now left.
  - discriminate.
  - intros history state Hget. left.
    apply getPending_In in Hget.
    assert (Hlow : pendingLowercase (run history Sample.emptyWorld))
      by (apply run_pending_lowercase; constructor).
    unfold pendingLowercase in Hlow. rewrite Forall_forall in Hlow.
    exact (Hlow pending Hget).
Qed.

(** A wallet typed in capitals is stored, and looked up, in lowercase. *)
Lemma resolver_ordered_union_witness :
  In Sample.walletB
     (callbackWallets (Sample.envFor Sample.alice Sample.rpcAB true 2000) Mixed.pending).
Proof.
  refine (proj2 (proj2 (proj2 (proj2 (proj2 (proj2
            (resolver_ordered_union
               (Sample.envFor Sample.alice Sample.rpcAB true 2000) Mixed.pending))))))
            Mixed.history "session-1" _).
  reflexivity.
Defined.

End ResolverInFlow.

(** ** Role grant and persistence *)

Section RoleGrant.

Import Js Supabase Server.

(** C4.  A verification is persisted only if the role grant succeeded.
    When the callback asks for the role and the collaborator refuses, the
    database is left exactly as it was (no verification written, the pending
    session still there) and the caller gets the failure page.  And whenever
    a callback changes the table of verifications, the grant for the
    authenticated account had succeeded. *)
Theorem role_grant_failure_persists_nothing (env : Env) (code state : string) (w : World) :
  (forall discordId,
     roleCalls (fst (callback env code state w))
     = roleCalls w ++ [AssignHolderRole discordId] ->
     assignHolderRole env discordId = false ->
     db (fst (callback env code state w)) = db w
     /\ snd (callback env code state w) = RoleAssignmentFailed)
  /\
  (discord_verifications (db (fst (callback env code state w)))
   <> discord_verifications (db w) ->
   exists discordUser,
     oauth env code = Some discordUser
     /\ assignHolderRole env (id discordUser) = true).
Proof.
  pose proof (callback_outcome env code state w) as Hout.
  destruct Hout; cbn [fst snd db roleCalls]; split;
    try (intros discordId Hcalls Hrefused; exfalso;
         exact (calls_not_extended _ _ Hcalls));
    try (intro Hchanged; exfalso; apply Hchanged; reflexivity).
  - auto.
  - intros discordId Hcalls Hrefused. apply app_inv_head in Hcalls.
    injection Hcalls as <-. congruence.
  - intros _. now exists discordUser.
Qed.

(** A holder whose role cannot be assigned: nothing is stored and the
    session stays. *)
Lemma role_grant_failure_persists_nothing_witness :
  db (fst (callback (Sample.envFor Sample.alice Sample.rpcAB false 2000)
                    "code-1" "session-1" Scenario.holderWaiting))
  = db Scenario.holderWaiting
  /\ snd (callback (Sample.envFor Sample.alice Sample.rpcAB false 2000)
                   "code-1" "session-1" Scenario.holderWaiting)
     = RoleAssignmentFailed.
Proof.
  apply (proj1 (role_grant_failure_persists_nothing
                  (Sample.envFor Sample.alice Sample.rpcAB false 2000)
                  "code-1" "session-1" Scenario.holderWaiting)
               (id Sample.alice)).
  - vm_compute. reflexivity.
  - reflexivity.
Defined.

End RoleGrant.

(** ** Pending sessions *)

Section Sessions.

Import Js Supabase Server.

(** C8, as stated, fails: when the role cannot be assigned the session is
    read but not deleted, and the same session id then drives a second,
    successful, verification attempt. *)
Lemma session_drives_two_attempts :
  let refused := Sample.envFor Sample.alice Sample.rpcAB false 2000 in
  let granted := Sample.envFor Sample.alice Sample.rpcAB true 3000 in
  let w1 := fst (callback refused "code-1" "session-1" Scenario.holderWaiting) in
  snd (callback refused "code-1" "session-1" Scenario.holderWaiting)
  = RoleAssignmentFailed
  /\ getPending "session-1" (db w1)
     = Some (Scenario.pendingOf Scenario.holderWaiting "session-1")
  /\ snd (callback granted "code-2" "session-1" w1) = SuccessPage "alice" 3 0.
Proof.
  vm_compute. repeat split.
Qed.

End Sessions.

(** ** Binding twice *)

Section BindTwice.

Import Js Supabase Server.

Variable fid_ : Z.
Variables wallet_ discordId discordUsername : string.
Variable nftBalance : Z.

Let rowAt (now_ : Z) : DiscordVerification :=
  {| fid := fid_; wallet := toLowerCase wallet_; discord_id := discordId;
     discord_username := discordUsername; nft_balance := nftBalance;
     verified_at := now_; last_checked := now_ |}.

Let overwrite (now_ : Z) (r : DiscordVerification) : DiscordVerification :=
  if (discord_id r =? discordId)%string then rowAt now_ else r.

Let hasAccount (rows : list DiscordVerification) : bool :=
  existsb (fun r => discord_id r =? discordId)%string rows.

Lemma overwrite_absent (now_ : Z) (rows : list DiscordVerification) :
  hasAccount rows = false -> map (overwrite now_) rows = rows.
Proof.
  unfold hasAccount, overwrite.
  induction rows as [|a rows IH]; cbn [existsb map]; intro H; [reflexivity|].
  apply orb_false_iff in H. destruct H as [Ha Hrows].
  rewrite Ha, IH; auto.
Qed.

Lemma overwrite_present (now_ : Z) (rows : list DiscordVerification) :
  hasAccount rows = true -> hasAccount (map (overwrite now_) rows) = true.
Proof.
  unfold hasAccount, overwrite.
  induction rows as [|a rows IH]; cbn [existsb map]; intro H; [discriminate|].
  destruct (String.eqb_spec (discord_id a) discordId) as [E|N].
  - cbn [rowAt discord_id]. now rewrite String.eqb_refl.
  - cbn [orb] in *. destruct (String.eqb_spec (discord_id a) discordId); [contradiction|].
    cbn [orb]. auto.
Qed.

Lemma overwrite_twice (t1 t2 : Z) (rows : list DiscordVerification) :
  map (overwrite t2) (map (overwrite t1) rows) = map (overwrite t2) rows.
Proof.
  rewrite map_map. apply map_ext. intro r. unfold overwrite.
  destruct (String.eqb_spec (discord_id r) discordId) as [E|N].
  - cbn [rowAt discord_id]. now rewrite String.eqb_refl.
  - now destruct (String.eqb_spec (discord_id r) discordId).
Qed.

Lemma storeVerification_rows (now_ : Z) (d : Database) :
  discord_verifications
    (storeVerification fid_ wallet_ discordId discordUsername nftBalance now_ d)
  = if hasAccount (discord_verifications d)
    then map (overwrite now_) (discord_verifications d)
    else discord_verifications d ++ [rowAt now_].
Proof.
  unfold storeVerification, hasAccount.
  now destruct (existsb _ (discord_verifications d)).
Qed.

Lemma database_eq (d1 d2 : Database) :
  discord_verifications d1 = discord_verifications d2 ->
  discord_pending_verifications d1 = discord_pending_verifications d2 ->
  d1 = d2.
Proof.
  destruct d1, d2. cbn. now intros -> ->.
Qed.

Lemma storeVerification_absorbs (t1 t2 : Z) (d : Database) :
  storeVerification fid_ wallet_ discordId discordUsername nftBalance t2
    (storeVerification fid_ wallet_ discordId discordUsername nftBalance t1 d)
  = storeVerification fid_ wallet_ discordId discordUsername nftBalance t2 d.
Proof.
  apply database_eq; [|now rewrite !storeVerification_pending].
  rewrite !storeVerification_rows.
  destruct (hasAccount (discord_verifications d)) eqn:Hhas.
  - rewrite overwrite_present by assumption. apply overwrite_twice.
  - assert (Hnow : hasAccount (discord_verifications d ++ [rowAt t1]) = true).
    { unfold hasAccount. rewrite existsb_app. cbn [existsb rowAt discord_id].
      rewrite String.eqb_refl. now rewrite orb_true_r. }
    rewrite Hnow, map_app, overwrite_absent by assumption.
    cbn [map]. unfold overwrite at 1. cbn [rowAt discord_id].
    now rewrite String.eqb_refl.
Qed.

Lemma storeVerification_times_only (t1 t2 : Z) (d : Database) :
  map withoutTimestamps
    (discord_verifications
       (storeVerification fid_ wallet_ discordId discordUsername nftBalance t2 d))
  = map withoutTimestamps
      (discord_verifications
         (storeVerification fid_ wallet_ discordId discordUsername nftBalance t1 d)).
Proof.
  rewrite !storeVerification_rows.
  destruct (hasAccount (discord_verifications d)).
  - rewrite !map_map. apply map_ext. intro r. unfold overwrite.
    now destruct (discord_id r =? discordId)%string.
  - now rewrite !map_app.
Qed.

End BindTwice.

Section Idempotence.

Import Js Supabase Server.

(** C9, as the code has it.  Storing the same verification twice leaves
    the state a single store made at the time of the second call would
    leave.  The second call overwrites the one record of the account: the
    table has as many records as after the first call, each with the same
    account, social identifier, wallet, name and balance, and the pending
    sessions are as they were; only the two timestamps of the record are
    those of the second call.  When the clock reads the same at both calls
    the two states are equal. *)
Theorem storeVerification_twice
    (fid_ : Z) (wallet_ discordId discordUsername : string) (nftBalance : Z)
    (t1 t2 : Z) (d : Database) :
  let once := storeVerification fid_ wallet_ discordId discordUsername nftBalance t1 d in
  let twice := storeVerification fid_ wallet_ discordId discordUsername nftBalance t2 once in
  twice = storeVerification fid_ wallet_ discordId discordUsername nftBalance t2 d
  /\ map withoutTimestamps (discord_verifications twice)
     = map withoutTimestamps (discord_verifications once)
  /\ List.length (discord_verifications twice) = List.length (discord_verifications once)
  /\ discord_pending_verifications twice = discord_pending_verifications once
  /\ (t1 = t2 -> twice = once).
Proof.
  intros once twice.
  assert (Habs : twice
                 = storeVerification fid_ wallet_ discordId discordUsername nftBalance t2 d)
    by apply storeVerification_absorbs.
  assert (Hcore : map withoutTimestamps (discord_verifications twice)
                  = map withoutTimestamps (discord_verifications once)).
  { rewrite Habs. apply storeVerification_times_only. }
  repeat split.
  - exact Habs.
  - exact Hcore.
  - rewrite <- (length_map withoutTimestamps (discord_verifications twice)).
    rewrite Hcore. apply length_map.
  - unfold twice. apply storeVerification_pending.
  - intros ->. exact Habs.
Qed.

(** The same verification stored at 1000 and again at 2000. *)
Lemma storeVerification_twice_witness :
  storeVerification 42 Sample.walletB "100000000000000001" "alice" 3 1000
    (storeVerification 42 Sample.walletB "100000000000000001" "alice" 3 1000
       emptyDatabase)
  = storeVerification 42 Sample.walletB "100000000000000001" "alice" 3 1000
      emptyDatabase.
Proof.
  exact (proj2 (proj2 (proj2 (proj2
           (storeVerification_twice 42 Sample.walletB "100000000000000001" "alice" 3
              1000 1000 emptyDatabase)))) eq_refl).
Defined.

(** C9, as stated, fails: the row carries the time of the call, so the
    state after the second call is not the state after the first. *)
Lemma storeVerification_not_idempotent :
  storeVerification 42 Sample.walletB "100000000000000001" "alice" 3 2000
    (storeVerification 42 Sample.walletB "100000000000000001" "alice" 3 1000
       emptyDatabase)
  <> storeVerification 42 Sample.walletB "100000000000000001" "alice" 3 1000
       emptyDatabase.
Proof.
  vm_compute. intro H. discriminate H.
Qed.

End Idempotence.

(** ** Reconciliation loop *)

Section Reconciliation.

Import Js Supabase Server.


Lemma insertByLastChecked_perm (v : DiscordVerification) (l : list DiscordVerification) :
  Permutation (insertByLastChecked v l) (v :: l).
Proof.
  induction l as [|x l IH]; cbn [insertByLastChecked]; [reflexivity|].
  destruct (last_checked v <=? last_checked x); [reflexivity|].
  rewrite IH. apply perm_swap.
Qed.

Lemma orderByLastChecked_perm (l : list DiscordVerification) :
  Permutation (orderByLastChecked l) l.
Proof.
  induction l as [|x l IH]; cbn [orderByLastChecked fold_right]; [reflexivity|].
  rewrite insertByLastChecked_perm. now constructor.
Qed.

Lemma In_firstn_list {A : Type} (n : nat) (l : list A) (x : A) :
  In x (firstn n l) -> In x l.
Proof.
  intro H. rewrite <- (firstn_skipn n l). apply in_or_app. now left.
Qed.















Lemma filter_id_absent (discordId : string) (rows : list DiscordVerification) :
  (forall r, In r rows -> discord_id r <> discordId) ->
  filter (fun r => discord_id r =? discordId)%string rows = [].
Proof.
  induction rows as [|a rows IH]; intro H; [reflexivity|].
  cbn [filter]. destruct (String.eqb_spec (discord_id a) discordId) as [E|N].
  - exfalso. apply (H a); [now left | assumption].
  - apply IH. intros r Hr. apply H. now right.
Qed.

Lemma same_id_same_row (stale : list DiscordVerification) (u v : DiscordVerification) :
  NoDup (map discord_id stale) ->
  In u stale -> In v stale -> discord_id u = discord_id v -> u = v.
Proof.
  induction stale as [|a stale IH]; intros Hnd Hu Hv E; [contradiction|].
  cbn [map] in Hnd. inversion Hnd as [|? ? Hnotin Hnd']; subst.
  destruct Hu as [->|Hu], Hv as [->|Hv]; auto.
  - exfalso. apply Hnotin. rewrite E. now apply in_map.
  - exfalso. apply Hnotin. rewrite <- E. now apply in_map.
Qed.






End Reconciliation.

(** ** Trust Scorer *)

Section TrustScore.

Import Js Neynar.

Ltac split_thresholds :=
  repeat match goal with
         | |- context [?a >=? ?b] => destruct (Z.geb_spec a b)
         | |- context [?a >? ?b] => destruct (Z.gtb_spec a b)
         end.

Lemma followerPoints_mono (u u' : FarcasterUser) :
  follower_count u <= follower_count u' -> followerPoints u <= followerPoints u'.
Proof. intro H. unfold followerPoints. split_thresholds; lia. Qed.

Lemma followingPoints_mono (u u' : FarcasterUser) :
  following_count u <= following_count u' -> followingPoints u <= followingPoints u'.
Proof. intro H. unfold followingPoints. split_thresholds; lia. Qed.

Lemma addressPoints_mono (u u' : FarcasterUser) :
  ethAddresses u <= ethAddresses u' -> addressPoints u <= addressPoints u'.
Proof. intro H. unfold addressPoints. split_thresholds; lia. Qed.

Lemma flagPoints_mono (b b' : bool) (points : Z) :
  0 <= points -> (b = true -> b' = true) ->
  (if b then points else 0) <= (if b' then points else 0).
Proof.
  intros Hp H. destruct b; [rewrite (H eq_refl)|destruct b']; lia.
Qed.

Lemma ratioPoints_range (u : FarcasterUser) : 0 <= ratioPoints u <= 5.
Proof.
  unfold ratioPoints. destruct (following_count u >? 0); [|lia].
  destruct (Qle_bool (1 # 2) (ratio u) && Qle_bool (ratio u) (10 # 1)); lia.
Qed.

Lemma ratioPoints_same (u u' : FarcasterUser) :
  follower_count u = follower_count u' ->
  following_count u = following_count u' ->
  ratioPoints u = ratioPoints u'.
Proof.
  intros Hf Hg. unfold ratioPoints, ratio. now rewrite Hf, Hg.
Qed.

Lemma score_sum (u : FarcasterUser) :
  score u
  = Z.min (followerPoints u + followingPoints u + badgePoints u + addressPoints u
           + avatarPoints u + displayNamePoints u + ratioPoints u) 100.
Proof. reflexivity. Qed.

(** C6, as the code has it.  When no input signal decreases, the trust
    score does not decrease as long as the five points of the
    follower/following ratio are not lost, which is so in particular when
    follower and following counts are unchanged: the score is monotone in the
    verified-address count and in the badge, avatar and display-name flags.
    A raise of the follower or the following count can take the ratio out of
    [0.5, 10]; the score then drops by at most those five points. *)
Theorem trust_score_monotone_but_ratio (u u' : FarcasterUser) :
  signalsLe u u' ->
  (ratioPoints u <= ratioPoints u' -> score u <= score u')
  /\ (follower_count u = follower_count u' ->
      following_count u = following_count u' -> score u <= score u')
  /\ score u <= score u' + 5.
Proof.
  intros (Hf & Hg & He & Hb & Ha & Hd).
  pose proof (followerPoints_mono u u' Hf).
  pose proof (followingPoints_mono u u' Hg).
  pose proof (addressPoints_mono u u' He).
  assert (badgePoints u <= badgePoints u')
    by (apply flagPoints_mono; [lia | assumption]).
  assert (avatarPoints u <= avatarPoints u')
    by (apply flagPoints_mono; [lia | assumption]).
  assert (displayNamePoints u <= displayNamePoints u')
    by (apply flagPoints_mono; [lia | assumption]).
  pose proof (ratioPoints_range u). pose proof (ratioPoints_range u').
  rewrite !score_sum. repeat split.
  - intro Hr. lia.
  - intros Ef Eg. pose proof (ratioPoints_same u u' Ef Eg). lia.
  - lia.
Qed.

(** From 10 to 1000 followers with 100 followed throughout: no signal
    decreases and the ratio stays in range, so the score does not drop. *)
Lemma trust_score_monotone_but_ratio_witness :
  score (Profile.bare 10 100) <= score (Profile.bare 1000 100).
Proof.
  refine (proj1 (trust_score_monotone_but_ratio
                   (Profile.bare 10 100) (Profile.bare 1000 100) _) _).
  - unfold signalsLe. cbn. repeat split; try lia; discriminate.
  - vm_compute. discriminate.
Defined.

(** C6, as stated, fails for the follower count and for the following
    count.  With 1 account followed, 10 followers score 15 (ratio 10) and 11
    followers score 10 (ratio 11); with 5 followers, 10 accounts followed
    score 15 (ratio 0.5) and 11 followed score 10. *)
Lemma trust_score_not_monotone :
  (signalsLe (Profile.bare 10 1) (Profile.bare 11 1)
   /\ score (Profile.bare 10 1) = 15 /\ score (Profile.bare 11 1) = 10)
  /\ (signalsLe (Profile.bare 5 10) (Profile.bare 5 11)
      /\ score (Profile.bare 5 10) = 15 /\ score (Profile.bare 5 11) = 10).
Proof.
  unfold signalsLe. cbn. repeat split; try lia; try discriminate.
Qed.

End TrustScore.

(** ** Avatar points *)

Section Avatar.

Import Js Neynar.

Lemma prefix_app (s1 s2 : string) :
  String.prefix s1 s2 = true <-> exists post, s2 = (s1 ++ post)%string.
Proof.
  revert s2. induction s1 as [|a s1 IH]; intros [|b s2];
    cbn [String.prefix String.append].
  - split; [intros _; now exists EmptyString | reflexivity].
  - split; [intros _; now exists (String b s2) | reflexivity].
  - split; [discriminate | intros [post H]; discriminate].
  - destruct (ascii_dec a b) as [->|Hne].
    + rewrite IH. split; intros [post H]; exists post; congruence.
    + split; [discriminate | intros [post H]; congruence].
Qed.

Lemma includes_occursIn (needle hay : string) :
  includes needle hay = true <-> occursIn needle hay.
Proof.
  unfold occursIn. induction hay as [|c hay IH]; cbn [includes].
  - destruct (String.prefix needle EmptyString) eqn:Hp.
    + split; [|reflexivity]. intros _. apply prefix_app in Hp.
      destruct Hp as [post Hp]. now exists EmptyString, post.
    + split; [discriminate|]. intros [pre [post H]].
      destruct pre; cbn [String.append] in H; [|discriminate].
      assert (String.prefix needle EmptyString = true)
        by (apply prefix_app; now exists post).
      congruence.
  - destruct (String.prefix needle (String c hay)) eqn:Hp.
    + split; [|reflexivity]. intros _. apply prefix_app in Hp.
      destruct Hp as [post Hp]. now exists EmptyString, post.
    + rewrite IH. split.
      * intros [pre [post H]]. exists (String c pre), post.
        cbn [String.append]. now rewrite H.
      * intros [pre [post H]]. destruct pre as [|c' pre]; cbn [String.append] in H.
        -- assert (String.prefix needle (String c hay) = true)
             by (apply prefix_app; now exists post).
           congruence.
        -- injection H as _ H. now exists pre, post.
Qed.

Lemma hasAvatar_spec (user : FarcasterUser) :
  hasAvatar user = true
  <-> pfp_url user <> EmptyString /\ ~ occursIn "default" (pfp_url user).
Proof.
  unfold hasAvatar. rewrite andb_true_iff, negb_true_iff.
  rewrite <- includes_occursIn, not_true_iff_false.
  destruct (pfp_url user); cbn [truthy]; intuition congruence.
Qed.

(** C10.  The five avatar points of the score are given exactly when the
    avatar URL is not empty and "default" does not occur in it; a profile
    whose URL is empty, or is set but contains "default", gets none.  The
    avatar points enter the score as one of the seven summands under the
    cap. *)
Theorem avatar_points_rule (user : FarcasterUser) :
  (avatarPoints user = 5
   <-> pfp_url user <> EmptyString /\ ~ occursIn "default" (pfp_url user))
  /\ (avatarPoints user = 0
      <-> pfp_url user = EmptyString \/ occursIn "default" (pfp_url user))
  /\ score user
     = Z.min (followerPoints user + followingPoints user + badgePoints user
              + addressPoints user + avatarPoints user + displayNamePoints user
              + ratioPoints user) 100.
Proof.
  pose proof (hasAvatar_spec user) as Hspec.
  split; [|split]; [| |reflexivity]; unfold avatarPoints.
  - destruct (hasAvatar user); [tauto|].
    split; [discriminate|]. intro H. apply Hspec in H. discriminate.
  - destruct (hasAvatar user) eqn:Hav.
    + split; [discriminate|]. destruct Hspec as [Hspec _].
      destruct (Hspec eq_refl) as [H1 H2]. intros [H|H]; contradiction.
    + split; [|reflexivity]. intros _.
      destruct (pfp_url user) as [|c rest] eqn:Hurl; [now left|]. right.
      unfold hasAvatar in Hav. rewrite Hurl in Hav. cbn [truthy andb] in Hav.
      apply negb_false_iff in Hav. now apply includes_occursIn.
Qed.

(** A profile whose picture URL is set and contains "default" gets no
    avatar points. *)
Lemma avatar_points_rule_witness :
  pfp_url Profile.stockPicture <> EmptyString
  /\ avatarPoints Profile.stockPicture = 0.
Proof.
  split; [discriminate|].
  apply (proj2 (proj1 (proj2 (avatar_points_rule Profile.stockPicture)))).
  right. exists "https://cdn.example/", "-avatar.png". reflexivity.
Defined.

End Avatar.

(** * Further properties of the code *)

(** ** Pending sessions in the database *)

Section PendingTable.

Import Js Supabase Server.

Lemma filter_session_absent (sessionId : string)
    (rows : list Pending.DiscordPendingVerification) :
  (forall p, In p rows -> Pending.session_id p <> sessionId) ->
  filter (fun p => Pending.session_id p =? sessionId)%string rows = [].
Proof.
  induction rows as [|a rows IH]; intro H; [reflexivity|].
  cbn [filter]. destruct (String.eqb_spec (Pending.session_id a) sessionId) as [E|N].
  - exfalso. apply (H a); [now left | assumption].
  - apply IH. intros p Hp. apply H. now right.
Qed.

Lemma existsb_session (sessionId : string)
    (rows : list Pending.DiscordPendingVerification) :
  existsb (fun p => Pending.session_id p =? sessionId)%string rows = true
  <-> exists p, In p rows /\ Pending.session_id p = sessionId.
Proof.
  rewrite existsb_exists. split; intros [p [Hp E]]; exists p; split; auto.
  - now apply String.eqb_eq.
  - now apply String.eqb_eq.
Qed.

Lemma filter_other_session (other : string) (f : Pending.DiscordPendingVerification -> bool)
    (rows : list Pending.DiscordPendingVerification) :
  (forall p, Pending.session_id p = other -> f p = true) ->
  filter (fun p => Pending.session_id p =? other)%string (filter f rows)
  = filter (fun p => Pending.session_id p =? other)%string rows.
Proof.
  intro H. rewrite filter_twice. apply filter_ext. intro p.
  destruct (String.eqb_spec (Pending.session_id p) other) as [E|N].
  - now rewrite (H p E).
  - apply andb_false_r.
Qed.

Lemma storePending_fresh
    (sessionId : string) (fid_ : Z) (wallet_ : string) (now_ : Z) (d : Database) :
  isInteger fid_ = true ->
  (forall p, In p (discord_pending_verifications d) ->
             Pending.session_id p <> sessionId) ->
  getPending sessionId (storePending sessionId fid_ wallet_ now_ d)
  = Some {| Pending.session_id := sessionId; Pending.fid := fid_;
            Pending.wallet := toLowerCase wallet_; Pending.created_at := now_ |}.
Proof.
  intros Hint Habsent. unfold storePending, getPending. rewrite Hint. cbn [negb].
  destruct (existsb (fun p => Pending.session_id p =? sessionId)%string
                    (discord_pending_verifications d)) eqn:Hex.
  - apply existsb_session in Hex. destruct Hex as [p [Hp E]].
    exfalso. exact (Habsent p Hp E).
  - cbn [withPending discord_pending_verifications].
    rewrite filter_app, (filter_session_absent _ _ Habsent).
    cbn [filter app Pending.session_id]. now rewrite String.eqb_refl.
Qed.

Lemma storePending_other_session
    (sessionId other : string) (fid_ : Z) (wallet_ : string) (now_ : Z) (d : Database) :
  other <> sessionId ->
  filter (fun p => Pending.session_id p =? other)%string
         (discord_pending_verifications (storePending sessionId fid_ wallet_ now_ d))
  = filter (fun p => Pending.session_id p =? other)%string
           (discord_pending_verifications d).
Proof.
  intro Hne. unfold storePending.
  destruct (isInteger fid_); cbn [negb]; [|reflexivity].
  destruct (existsb _ (discord_pending_verifications d)); [reflexivity|].
  cbn [withPending discord_pending_verifications].
  rewrite filter_app. cbn [filter Pending.session_id].
  destruct (String.eqb_spec sessionId other) as [E|N]; [congruence|].
  apply app_nil_r.
Qed.

(** X1.  [storePending] and [getPending] round-trip on a fresh session id
    and a FID that the [INTEGER] column takes (32 bits, signed): the session
    is read back with its FID, its wallet in lowercase and the time of the
    call.  A FID out of that range, or a session id already in the table, is
    refused: the database is unchanged, so nothing is read back for a new
    id and the first session is never overwritten.  In every case every
    other session reads as before and the verifications are untouched. *)
Theorem storePending_getPending
    (sessionId : string) (fid_ : Z) (wallet_ : string) (now_ : Z) (d : Database) :
  (-2147483648 <= fid_ <= 2147483647 ->
   (forall p, In p (discord_pending_verifications d) ->
              Pending.session_id p <> sessionId) ->
   getPending sessionId (storePending sessionId fid_ wallet_ now_ d)
   = Some {| Pending.session_id := sessionId; Pending.fid := fid_;
             Pending.wallet := toLowerCase wallet_; Pending.created_at := now_ |})
  /\ (fid_ < -2147483648 \/ 2147483647 < fid_
      \/ (exists p, In p (discord_pending_verifications d)
                    /\ Pending.session_id p = sessionId) ->
      storePending sessionId fid_ wallet_ now_ d = d)
  /\ (forall other, other <> sessionId ->
        getPending other (storePending sessionId fid_ wallet_ now_ d)
        = getPending other d)
  /\ discord_verifications (storePending sessionId fid_ wallet_ now_ d)
     = discord_verifications d.
Proof.
  split; [|split; [|split]].
  - intros Hrange Habsent. apply storePending_fresh; [|assumption].
    unfold isInteger. apply andb_true_intro. split; apply Z.leb_le; lia.
  - unfold storePending, isInteger. intros [Hlow|[Hhigh|Hpresent]].
    + apply Z.leb_gt in Hlow. now rewrite Hlow.
    + apply Z.leb_gt in Hhigh. rewrite Hhigh, andb_false_r. reflexivity.
    + apply existsb_session in Hpresent. rewrite Hpresent.
      now destruct (negb _).
  - intros other Hne. unfold getPending.
    now rewrite storePending_other_session.
  - apply storePending_verifications.
Qed.

(** A session with FID 42 is read back; one with FID 2147483648 is not
    stored. *)
Lemma storePending_getPending_witness :
  getPending "session-1"
    (storePending "session-1" 42 "0xBBBBBBBBBBBBBBBBBBBBBBBBBBBBBBBBBBBBBBBB" 1000
       emptyDatabase)
  = Some {| Pending.session_id := "session-1"; Pending.fid := 42;
            Pending.wallet := Sample.walletB; Pending.created_at := 1000 |}
  /\ storePending "session-2" 2147483648 Sample.walletB 1000 emptyDatabase
     = emptyDatabase.
Proof.
  split.
  - apply (proj1 (storePending_getPending "session-1" 42
                    "0xBBBBBBBBBBBBBBBBBBBBBBBBBBBBBBBBBBBBBBBB" 1000 emptyDatabase)).
    + lia.
    + intros p [].
  - apply (proj1 (proj2 (storePending_getPending "session-2" 2147483648
                           Sample.walletB 1000 emptyDatabase))).
    right. left. lia.
Defined.

(** X2.  [deletePending] removes exactly its session: that id is no longer
    found, every other session reads as before, and the verifications are
    untouched. *)
Theorem deletePending_exact (sessionId : string) (d : Database) :
  getPending sessionId (deletePending sessionId d) = None
  /\ (forall other, other <> sessionId ->
        getPending other (deletePending sessionId d) = getPending other d)
  /\ discord_verifications (deletePending sessionId d) = discord_verifications d.
Proof.
  split; [apply getPending_deleted|]. split; [|reflexivity].
  intros other Hne. unfold getPending, deletePending.
  cbn [withPending discord_pending_verifications].
  rewrite filter_other_session; [reflexivity|].
  intros p E. destruct (String.eqb_spec (Pending.session_id p) sessionId); [congruence|reflexivity].
Qed.

(** X3.  [cleanupOldPending] reports the number of sessions it removed;
    the sessions left are all less than an hour old; a session less than an
    hour old is still found and an older one is not; a second sweep at the
    same time removes nothing; the verifications are untouched. *)
Theorem cleanupOldPending_sweep (now_ : Z) (d : Database) :
  let d' := fst (cleanupOldPending now_ d) in
  let removed := snd (cleanupOldPending now_ d) in
  Z.of_nat (List.length (discord_pending_verifications d))
  = Z.of_nat (List.length (discord_pending_verifications d')) + removed
  /\ Forall (fun p => now_ - 3600000 <= Pending.created_at p)
            (discord_pending_verifications d')
  /\ (forall sessionId p,
        getPending sessionId d = Some p ->
        getPending sessionId d'
        = if Pending.created_at p <? now_ - 3600000 then None else Some p)
  /\ cleanupOldPending now_ d' = (d', 0)
  /\ discord_verifications d' = discord_verifications d.
Proof.
  intros d' removed. unfold d', removed, cleanupOldPending.
  cbn [fst snd withPending discord_pending_verifications discord_verifications].
  change (60 * 60 * 1000) with 3600000.
  set (rows := discord_pending_verifications d).
  repeat split.
  - pose proof (filter_length (fun p => Pending.created_at p <? now_ - 3600000) rows)
      as Hlen.
    cbv beta in Hlen. lia.
  - apply Forall_forall. intros p Hp. apply filter_In in Hp.
    destruct Hp as [_ Hp]. apply negb_true_iff, Z.ltb_ge in Hp. exact Hp.
  - intros sessionId p. unfold getPending, withPending.
    cbn [discord_pending_verifications]. fold rows.
    rewrite filter_twice.
    replace (filter (fun x => negb (Pending.created_at x <? now_ - 3600000)
                              && (Pending.session_id x =? sessionId)%string) rows)
      with (filter (fun x => negb (Pending.created_at x <? now_ - 3600000))
                   (filter (fun x => (Pending.session_id x =? sessionId)%string) rows)).
    2:{ rewrite filter_twice. apply filter_ext. intro x. apply andb_comm. }
    destruct (filter (fun x => (Pending.session_id x =? sessionId)%string) rows)
      as [|a [|b l]]; cbn [single]; intro H; try discriminate.
    injection H as ->. cbn [filter].
    now destruct (Pending.created_at p <? now_ - 3600000).
  - f_equal.
    + unfold withPending. cbn [discord_verifications discord_pending_verifications].
      f_equal. rewrite filter_twice. apply filter_ext. intro p.
      now destruct (Pending.created_at p <? now_ - 3600000).
    + rewrite filter_twice.
      replace (filter (fun x => negb (Pending.created_at x <? now_ - 3600000)
                                && (Pending.created_at x <? now_ - 3600000)) rows)
        with (@nil Pending.DiscordPendingVerification); [reflexivity|].
      induction rows as [|a l IH]; [reflexivity|]. cbn [filter].
      now destruct (Pending.created_at a <? now_ - 3600000).
Qed.

(** Other sessions survive the deletion of one. *)
Lemma deletePending_exact_witness :
  getPending "session-2"
    (deletePending "session-1"
       (storePending "session-2" 0 Sample.walletA 2000 (db Scenario.holderWaiting)))
  = getPending "session-2"
      (storePending "session-2" 0 Sample.walletA 2000 (db Scenario.holderWaiting)).
Proof.
  apply (proj1 (proj2 (deletePending_exact "session-1"
                         (storePending "session-2" 0 Sample.walletA 2000
                            (db Scenario.holderWaiting))))).
  discriminate.
Defined.

(** A session opened at 1000 is swept at 4000000 and kept at 3000000. *)
Lemma cleanupOldPending_sweep_witness :
  getPending "session-1" (fst (cleanupOldPending 4000000 (db Scenario.holderWaiting)))
  = None
  /\ getPending "session-1" (fst (cleanupOldPending 3000000 (db Scenario.holderWaiting)))
     = Some (Scenario.pendingOf Scenario.holderWaiting "session-1").
Proof.
  split.
  - exact (proj1 (proj2 (proj2 (cleanupOldPending_sweep 4000000 (db Scenario.holderWaiting))))
                 "session-1" (Scenario.pendingOf Scenario.holderWaiting "session-1")
                 eq_refl).
  - exact (proj1 (proj2 (proj2 (cleanupOldPending_sweep 3000000 (db Scenario.holderWaiting))))
                 "session-1" (Scenario.pendingOf Scenario.holderWaiting "session-1")
                 eq_refl).
Defined.

End PendingTable.

(** ** Verifications in the database *)

Section VerificationTable.

Import Js Supabase Server.

Lemma filter_id_map_other (discordId other : string)
    (g : DiscordVerification -> DiscordVerification) (rows : list DiscordVerification) :
  other <> discordId ->
  (forall r, discord_id (g r) = discord_id r) ->
  filter (fun r => discord_id r =? other)%string
         (map (fun r => if (discord_id r =? discordId)%string then g r else r) rows)
  = filter (fun r => discord_id r =? other)%string rows.
Proof.
  intros Hne Hg. induction rows as [|a rows IH]; [reflexivity|].
  cbn [map filter]. rewrite IH.
  destruct (String.eqb_spec (discord_id a) discordId) as [E|N]; [|reflexivity].
  rewrite Hg.
  destruct (String.eqb_spec (discord_id a) other) as [E'|N']; [congruence|reflexivity].
Qed.

Lemma filter_id_replace_other (discordId other : string) (row : DiscordVerification)
    (rows : list DiscordVerification) :
  other <> discordId ->
  discord_id row = discordId ->
  filter (fun r => discord_id r =? other)%string
         (map (fun r => if (discord_id r =? discordId)%string then row else r) rows)
  = filter (fun r => discord_id r =? other)%string rows.
Proof.
  intros Hne Hrow. induction rows as [|a rows IH]; [reflexivity|].
  cbn [map filter]. rewrite IH.
  destruct (String.eqb_spec (discord_id a) discordId) as [E|N]; [|reflexivity].
  rewrite Hrow.
  destruct (String.eqb_spec discordId other) as [E1|N1]; [congruence|].
  destruct (String.eqb_spec (discord_id a) other) as [E2|N2]; [congruence|reflexivity].
Qed.

Lemma existsb_discord_id (discordId : string) (rows : list DiscordVerification) :
  existsb (fun r => discord_id r =? discordId)%string rows = true
  <-> In discordId (map discord_id rows).
Proof.
  rewrite existsb_exists, in_map_iff. split; intros [r H]; exists r.
  - destruct H as [Hr E]. apply String.eqb_eq in E. auto.
  - destruct H as [E Hr]. split; [assumption | now apply String.eqb_eq].
Qed.

Lemma storeVerification_found
    (fid_ : Z) (wallet_ discordId discordUsername : string) (nftBalance now_ : Z)
    (d : Database) :
  uniqueDiscordIds (discord_verifications d) ->
  getVerificationByDiscord discordId
    (storeVerification fid_ wallet_ discordId discordUsername nftBalance now_ d)
  = Some {| fid := fid_; wallet := toLowerCase wallet_; discord_id := discordId;
            discord_username := discordUsername; nft_balance := nftBalance;
            verified_at := now_; last_checked := now_ |}.
Proof.
  intro Hids. unfold getVerificationByDiscord.
  apply (single_filter_unique (fun _ => true) discord_id); auto.
  - intros x y Hx Hy. apply String.eqb_eq in Hx, Hy. congruence.
  - apply upsert_uniqueBy; auto.
  - unfold storeVerification.
    destruct (existsb (fun r => discord_id r =? discordId)%string
                      (discord_verifications d)) eqn:Hex;
      cbn [withVerifications discord_verifications].
    + apply existsb_exists in Hex. destruct Hex as [r [Hr E]].
      apply in_map_iff. exists r. split; [now rewrite E | assumption].
    + apply in_or_app. right. now left.
  - apply String.eqb_refl.
Qed.

Lemma storeVerification_other
    (fid_ : Z) (wallet_ discordId discordUsername : string) (nftBalance now_ : Z)
    (d : Database) (other : string) :
  other <> discordId ->
  getVerificationByDiscord other
    (storeVerification fid_ wallet_ discordId discordUsername nftBalance now_ d)
  = getVerificationByDiscord other d.
Proof.
  intro Hne. unfold getVerificationByDiscord, storeVerification.
  destruct (existsb (fun r => discord_id r =? discordId)%string
                    (discord_verifications d));
    cbn [withVerifications discord_verifications].
  - now rewrite filter_id_replace_other.
  - rewrite filter_app. cbn [filter discord_id].
    destruct (String.eqb_spec discordId other); [congruence|].
    now rewrite app_nil_r.
Qed.

Lemma storeVerification_count
    (fid_ : Z) (wallet_ discordId discordUsername : string) (nftBalance now_ : Z)
    (d : Database) :
  getVerifiedCount
    (storeVerification fid_ wallet_ discordId discordUsername nftBalance now_ d)
  = getVerifiedCount d
    + (if existsb (String.eqb discordId) (map discord_id (discord_verifications d))
       then 0 else 1).
Proof.
  unfold getVerifiedCount, storeVerification.
  assert (Hsame : existsb (String.eqb discordId) (map discord_id (discord_verifications d))
                  = existsb (fun r => discord_id r =? discordId)%string
                            (discord_verifications d)).
  { induction (discord_verifications d) as [|a l IH]; [reflexivity|].
    cbn [map existsb]. rewrite IH. f_equal. apply String.eqb_sym. }
  rewrite Hsame.
  destruct (existsb (fun r => discord_id r =? discordId)%string
                    (discord_verifications d));
    cbn [withVerifications discord_verifications].
  - rewrite length_map. lia.
  - rewrite length_app. cbn [List.length]. lia.
Qed.

(** X4.  [storeVerification] and the lookups.  In a table with one row per
    Discord id, the account stored is read back by [getVerificationByDiscord]
    as the row written: the FID, the wallet in lowercase, the name, the
    balance, and both timestamps at the time of the call.  Whatever the
    table, every other account reads as before, the pending sessions are
    untouched, and the count of verified holders grows by one exactly when
    the account had no row. *)
Theorem storeVerification_lookup
    (fid_ : Z) (wallet_ discordId discordUsername : string) (nftBalance now_ : Z)
    (d : Database) :
  let d' := storeVerification fid_ wallet_ discordId discordUsername nftBalance now_ d in
  (uniqueDiscordIds (discord_verifications d) ->
   getVerificationByDiscord discordId d'
   = Some {| fid := fid_; wallet := toLowerCase wallet_; discord_id := discordId;
             discord_username := discordUsername; nft_balance := nftBalance;
             verified_at := now_; last_checked := now_ |})
  /\ (forall other, other <> discordId ->
        getVerificationByDiscord other d' = getVerificationByDiscord other d)
  /\ getVerifiedCount d'
     = getVerifiedCount d
       + (if existsb (String.eqb discordId) (map discord_id (discord_verifications d))
          then 0 else 1)
  /\ discord_pending_verifications d' = discord_pending_verifications d.
Proof.
  intro d'. unfold d'.
  split; [apply storeVerification_found|].
  split; [intros other Hne; now apply storeVerification_other|].
  split; [apply storeVerification_count | apply storeVerification_pending].
Qed.

(** Stored for [alice] beside [bob]'s row: her row is read back, his is
    as before. *)
Lemma storeVerification_lookup_witness :
  getVerificationByDiscord (id Sample.alice)
    (storeVerification 42 Sample.walletC (id Sample.alice) "alice" 2 5000 (db Stale.world))
  = Some {| fid := 42; wallet := Sample.walletC; discord_id := id Sample.alice;
            discord_username := "alice"; nft_balance := 2;
            verified_at := 5000; last_checked := 5000 |}
  /\ getVerificationByDiscord (id Sample.bob)
       (storeVerification 42 Sample.walletC (id Sample.alice) "alice" 2 5000 (db Stale.world))
     = getVerificationByDiscord (id Sample.bob) (db Stale.world).
Proof.
  split.
  - apply (proj1 (storeVerification_lookup 42 Sample.walletC (id Sample.alice) "alice"
                    2 5000 (db Stale.world))).
    unfold uniqueDiscordIds, uniqueBy. cbn.
    repeat constructor; cbn; intuition discriminate.
  - apply (proj1 (proj2 (storeVerification_lookup 42 Sample.walletC (id Sample.alice)
                           "alice" 2 5000 (db Stale.world)))).
    discriminate.
Defined.

(** X5.  [deleteVerification] removes exactly the rows of its account: the
    account is no longer found, every other account reads as before, no row
    is added, and for an account without a row the database is unchanged. *)
Theorem deleteVerification_exact (discordId : string) (d : Database) :
  let d' := deleteVerification discordId d in
  getVerificationByDiscord discordId d' = None
  /\ (forall other, other <> discordId ->
        getVerificationByDiscord other d' = getVerificationByDiscord other d)
  /\ getVerifiedCount d' <= getVerifiedCount d
  /\ (~ In discordId (map discord_id (discord_verifications d)) -> d' = d)
  /\ discord_pending_verifications d' = discord_pending_verifications d.
Proof.
  intro d'. unfold d', getVerificationByDiscord, getVerifiedCount, deleteVerification,
    withVerifications.
  cbn [withVerifications discord_verifications discord_pending_verifications].
  repeat split.
  - rewrite filter_id_absent; [reflexivity|].
    intros r Hr. apply filter_In in Hr. destruct Hr as [_ Hr].
    now destruct (String.eqb_spec (discord_id r) discordId).
  - intros other Hne. rewrite filter_twice. f_equal. apply filter_ext. intro r.
    destruct (String.eqb_spec (discord_id r) other) as [E|N];
      [|apply andb_false_r].
    destruct (String.eqb_spec (discord_id r) discordId); [congruence|reflexivity].
  - pose proof (filter_length_le (fun r => negb (discord_id r =? discordId)%string)
                                 (discord_verifications d)).
    lia.
  - intro Habsent. apply database_eq; [|reflexivity].
    cbn [discord_verifications].
    induction (discord_verifications d) as [|a l IH]; [reflexivity|].
    cbn [filter]. cbn [map In] in Habsent.
    destruct (String.eqb_spec (discord_id a) discordId) as [E|N]; [tauto|].
    cbn [negb]. f_equal. apply IH. tauto.
Qed.

Lemma deleteVerification_exact_witness :
  getVerificationByDiscord (id Sample.alice)
    (deleteVerification (id Sample.bob) (db Stale.world))
  = getVerificationByDiscord (id Sample.alice) (db Stale.world)
  /\ deleteVerification "100000000000000009" (db Stale.world) = db Stale.world.
Proof.
  split.
  - apply (proj1 (proj2 (deleteVerification_exact (id Sample.bob) (db Stale.world)))).
    discriminate.
  - apply (proj1 (proj2 (proj2 (proj2
             (deleteVerification_exact "100000000000000009" (db Stale.world)))))).
    cbn. intuition discriminate.
Defined.

(** X6.  [updateNftBalance] changes two fields of one account.  In a table
    with one row per Discord id, an account found as [r] is found afterwards
    as [r] with the new balance and the time of the call as last check; an
    account without a row gets none (the database is unchanged); every other
    account reads as before and the number of rows is the same. *)
Theorem updateNftBalance_exact (discordId : string) (nftBalance now_ : Z) (d : Database) :
  let d' := updateNftBalance discordId nftBalance now_ d in
  (forall r,
     uniqueDiscordIds (discord_verifications d) ->
     getVerificationByDiscord discordId d = Some r ->
     getVerificationByDiscord discordId d' = Some (rechecked r nftBalance now_))
  /\ (~ In discordId (map discord_id (discord_verifications d)) -> d' = d)
  /\ (forall other, other <> discordId ->
        getVerificationByDiscord other d' = getVerificationByDiscord other d)
  /\ getVerifiedCount d' = getVerifiedCount d.
Proof.
  intro d'. unfold d', getVerificationByDiscord, getVerifiedCount, updateNftBalance,
    withVerifications.
  cbn [withVerifications discord_verifications discord_pending_verifications].
  repeat split.
  - intros r Hids Hfound. apply single_In, filter_In in Hfound.
    destruct Hfound as [Hr E]. apply String.eqb_eq in E.
    apply (single_filter_unique (fun _ => true) discord_id); auto.
    + intros x y Hx Hy. apply String.eqb_eq in Hx, Hy. congruence.
    + apply uniqueBy_map; auto.
      intro x. now destruct (discord_id x =? discordId)%string.
    + apply in_map_iff. exists r. split; [|assumption].
      rewrite <- E, String.eqb_refl. reflexivity.
    + cbn [rechecked discord_id]. now apply String.eqb_eq.
  - intro Habsent. apply database_eq; [|reflexivity].
    cbn [discord_verifications].
    induction (discord_verifications d) as [|a l IH]; [reflexivity|].
    cbn [map]. cbn [map In] in Habsent.
    destruct (String.eqb_spec (discord_id a) discordId) as [E|N]; [tauto|].
    f_equal. apply IH. tauto.
  - intros other Hne. f_equal.
    apply (filter_id_map_other discordId other
             (fun r => {| fid := fid r; wallet := wallet r; discord_id := discord_id r;
                          discord_username := discord_username r;
                          nft_balance := nftBalance;
                          verified_at := verified_at r; last_checked := now_ |}));
      auto.
  - now rewrite length_map.
Qed.

Lemma updateNftBalance_exact_witness :
  getVerificationByDiscord (id Sample.alice)
    (updateNftBalance (id Sample.alice) 7 9000 (db Stale.world))
  = Some (rechecked Stale.aliceRow 7 9000)
  /\ updateNftBalance "100000000000000009" 7 9000 (db Stale.world) = db Stale.world.
Proof.
  split.
  - apply (proj1 (updateNftBalance_exact (id Sample.alice) 7 9000 (db Stale.world))).
    + unfold uniqueDiscordIds, uniqueBy. cbn.
      repeat constructor; cbn; intuition discriminate.
    + reflexivity.
  - apply (proj1 (proj2 (updateNftBalance_exact "100000000000000009" 7 9000
                           (db Stale.world)))).
    cbn. intuition discriminate.
Defined.

End VerificationTable.

(** ** Ordered and bounded queries *)

From Stdlib Require Import Sorted.

Section Sorting.

Context {A : Type}.
Variable before : A -> A -> bool.
Hypothesis before_total : forall a b, before a b = true \/ before b a = true.
Hypothesis before_trans :
  forall a b c, before a b = true -> before b c = true -> before a c = true.

Lemma insertBy_perm (v : A) (l : list A) :
  Permutation (Order.insertBy before v l) (v :: l).
Proof.
  induction l as [|x l IH]; cbn [Order.insertBy]; [reflexivity|].
  destruct (before v x); [reflexivity|].
  rewrite IH. apply perm_swap.
Qed.

Lemma sortBy_perm (l : list A) : Permutation (Order.sortBy before l) l.
Proof.
  induction l as [|x l IH]; cbn [Order.sortBy fold_right]; [reflexivity|].
  fold (Order.sortBy before l). rewrite insertBy_perm. now constructor.
Qed.

Lemma insertBy_sorted (v : A) (l : list A) :
  StronglySorted (fun a b => before a b = true) l ->
  StronglySorted (fun a b => before a b = true) (Order.insertBy before v l).
Proof.
  induction 1 as [|x l Hl IH Hx]; cbn [Order.insertBy].
  - constructor; constructor.
  - destruct (before v x) eqn:Hvx.
    + constructor; [now constructor|].
      constructor; [assumption|].
      rewrite Forall_forall in *. intros y Hy. apply (before_trans v x y); auto.
    + constructor; [assumption|].
      rewrite Forall_forall in *. intros y Hy.
      apply (Permutation_in _ (insertBy_perm v l)) in Hy.
      destruct Hy as [<-|Hy]; [|auto].
      destruct (before_total x v); congruence.
Qed.

Lemma sortBy_sorted (l : list A) :
  StronglySorted (fun a b => before a b = true) (Order.sortBy before l).
Proof.
  induction l as [|x l IH]; cbn [Order.sortBy fold_right]; [constructor|].
  now apply insertBy_sorted.
Qed.

End Sorting.

Section SortedPrefix.

Context {A : Type}.
Variable R : A -> A -> Prop.

Lemma sorted_firstn (n : nat) (l : list A) :
  StronglySorted R l -> StronglySorted R (firstn n l).
Proof.
  intro H. revert n. induction H as [|x l Hl IH Hx]; intros [|n]; cbn [firstn];
    try constructor.
  - apply IH.
  - rewrite Forall_forall in *. intros y Hy. apply Hx.
    now apply In_firstn_list in Hy.
Qed.

Lemma sorted_firstn_skipn (n : nat) (l : list A) (x y : A) :
  StronglySorted R l -> In x (firstn n l) -> In y (skipn n l) -> R x y.
Proof.
  intro H. revert n. induction H as [|a l Hl IH Ha]; intros [|n]; cbn [firstn skipn];
    try contradiction.
  intros [<-|Hx] Hy.
  - rewrite Forall_forall in Ha. apply Ha.
    rewrite <- (firstn_skipn n l). apply in_or_app. now right.
  - now apply (IH n).
Qed.

(** Of a sorted list cut at [n], what is not in the head is in the tail,
    and then the head is full. *)
Lemma beyond_firstn (n : nat) (l : list A) (r : A) :
  In r l -> ~ In r (firstn n l) ->
  In r (skipn n l) /\ List.length (firstn n l) = n.
Proof.
  intros Hin Hnot. rewrite <- (firstn_skipn n l) in Hin.
  apply in_app_or in Hin. destruct Hin as [Hin|Hin]; [contradiction|].
  split; [assumption|].
  rewrite length_firstn. apply Nat.min_l.
  destruct (Nat.le_gt_cases n (List.length l)) as [Hle|Hgt]; [assumption|].
  rewrite skipn_all2 in Hin by lia. contradiction.
Qed.

End SortedPrefix.

Section StaleQuery.

Import Js Supabase Server.

Lemma orderByLastChecked_sortBy (l : list DiscordVerification) :
  orderByLastChecked l
  = Order.sortBy (fun v x => last_checked v <=? last_checked x) l.
Proof.
  unfold orderByLastChecked, Order.sortBy.
  induction l as [|a l IH]; cbn [fold_right]; [reflexivity|].
  rewrite IH.
  generalize (fold_right (Order.insertBy (fun v x => last_checked v <=? last_checked x)) [] l).
  intro s. induction s as [|x s IHs]; cbn [insertByLastChecked Order.insertBy];
    [reflexivity|].
  now rewrite IHs.
Qed.

Lemma orderByLastChecked_sorted (l : list DiscordVerification) :
  StronglySorted (fun a b => last_checked a <= last_checked b) (orderByLastChecked l).
Proof.
  rewrite orderByLastChecked_sortBy.
  assert (H : StronglySorted (fun a b => (last_checked a <=? last_checked b) = true)
                (Order.sortBy (fun v x => last_checked v <=? last_checked x) l)).
  { apply sortBy_sorted.
    - intros a b. rewrite !Z.leb_le. lia.
    - intros a b c. rewrite !Z.leb_le. lia. }
  induction H as [|x s Hs IH Hx]; constructor; [assumption|].
  rewrite Forall_forall in *. intros y Hy. apply Z.leb_le. auto.
Qed.

(** X7.  [getStaleVerifications] returns at most 100 rows of the table,
    each last checked more than 24 hours before the call and none
    otherwise, ordered from the oldest check on; and the batch is made of
    the oldest: a stale row of the table left out means the batch is full
    and holds no row checked later than it. *)
Theorem getStaleVerifications_batch (now_ : Z) (d : Database) :
  let batch := getStaleVerifications now_ d in
  (List.length batch <= 100)%nat
  /\ (forall v, In v batch ->
        In v (discord_verifications d) /\ last_checked v < now_ - 86400000)
  /\ StronglySorted (fun a b => last_checked a <= last_checked b) batch
  /\ (forall r, In r (discord_verifications d) ->
        last_checked r < now_ - 86400000 ->
        ~ In r batch ->
        List.length batch = 100%nat
        /\ forall v, In v batch -> last_checked v <= last_checked r).
Proof.
  intro batch. unfold batch, getStaleVerifications.
  change (24 * 60 * 60 * 1000) with 86400000.
  set (old := filter (fun r => last_checked r <? now_ - 86400000) (discord_verifications d)).
  repeat split.
  - apply firstn_le_length.
  - apply In_firstn_list in H.
    apply (Permutation_in _ (orderByLastChecked_perm _)) in H.
    apply filter_In in H. tauto.
  - apply In_firstn_list in H.
    apply (Permutation_in _ (orderByLastChecked_perm _)) in H.
    apply filter_In in H. destruct H as [_ H]. now apply Z.ltb_lt.
  - apply sorted_firstn, orderByLastChecked_sorted.
  - assert (Hin : In r (orderByLastChecked old)).
    { apply (Permutation_in _ (Permutation_sym (orderByLastChecked_perm _))).
      apply filter_In. split; [assumption | now apply Z.ltb_lt]. }
    now destruct (beyond_firstn 100 _ r Hin H1).
  - intros v Hv.
    assert (Hin : In r (orderByLastChecked old)).
    { apply (Permutation_in _ (Permutation_sym (orderByLastChecked_perm _))).
      apply filter_In. split; [assumption | now apply Z.ltb_lt]. }
    destruct (beyond_firstn 100 _ r Hin H1) as [Hskip _].
    exact (sorted_firstn_skipn _ 100 _ v r (orderByLastChecked_sorted old) Hv Hskip).
Qed.

(** Both sample rows are stale two days later, [bob]'s first. *)
Lemma getStaleVerifications_batch_witness :
  In Stale.bobRow (discord_verifications (db Stale.world))
  /\ last_checked Stale.bobRow < now Stale.twoDaysLater - 86400000.
Proof.
  apply (proj1 (proj2 (getStaleVerifications_batch (now Stale.twoDaysLater)
                         (db Stale.world)))).
  vm_compute. auto.
Defined.

Lemma loop_rows (env : Env) (stale : list DiscordVerification) (w : World)
    (r : DiscordVerification) :
  In r (discord_verifications (db (fold_left (reverifyOne env) stale w))) ->
  last_checked r = now env
  \/ (In r (discord_verifications (db w))
      /\ ~ In (discord_id r) (map discord_id stale)).
Proof.
  revert w. induction stale as [|a stale IH]; intros w Hr; [now right|].
  cbn [fold_left] in Hr. apply IH in Hr. destruct Hr as [Hr|[Hr Hnot]]; [now left|].
  unfold reverifyOne in Hr.
  destruct (reverifyBalance env a =? 0);
    cbn [db deleteVerification updateNftBalance withVerifications discord_verifications]
      in Hr.
  - apply filter_In in Hr. destruct Hr as [Hr Hne]. right. split; [assumption|].
    cbn [map In]. intros [E|Hin]; [|contradiction].
    rewrite E, String.eqb_refl in Hne. discriminate.
  - apply in_map_iff in Hr. destruct Hr as [r0 [E Hr0]].
    destruct (String.eqb_spec (discord_id r0) (discord_id a)) as [Ea|Na].
    + left. now subst r.
    + subst r0. right. split; [assumption|].
      cbn [map In]. intros [E|Hin]; [congruence | contradiction].
Qed.

(** X8.  When the stale rows fit in one batch (at most 100), a run of the
    re-verification loop leaves no stale row: every row it handled is
    deleted or carries the time of the run, so a query for stale rows at that
    time returns nothing. *)
Theorem reverify_clears_stale (env : Env) (w : World) :
  Nat.le (List.length (filter (fun r => last_checked r <? now env - 86400000)
                              (discord_verifications (db w)))) 100 ->
  getStaleVerifications (now env) (db (reverify env w)) = [].
Proof.
  intro Hfew.
  assert (Hall : forall r, In r (discord_verifications (db w)) ->
                           last_checked r < now env - 86400000 ->
                           In r (getStaleVerifications (now env) (db w))).
  { intros r Hr Hold. unfold getStaleVerifications.
    change (24 * 60 * 60 * 1000) with 86400000.
    rewrite firstn_all2.
    - apply (Permutation_in _ (Permutation_sym (orderByLastChecked_perm _))).
      apply filter_In. split; [assumption | now apply Z.ltb_lt].
    - now rewrite (Permutation_length (orderByLastChecked_perm _)). }
  unfold getStaleVerifications at 1. change (24 * 60 * 60 * 1000) with 86400000.
  replace (filter (fun r => last_checked r <? now env - 86400000)
                  (discord_verifications (db (reverify env w))))
    with (@nil DiscordVerification); [reflexivity|].
  symmetry.
  destruct (filter (fun r => last_checked r <? now env - 86400000)
                   (discord_verifications (db (reverify env w)))) as [|r l] eqn:Hf;
    [reflexivity|].
  exfalso.
  assert (Hr : In r (filter (fun r => last_checked r <? now env - 86400000)
                            (discord_verifications (db (reverify env w)))))
    by (rewrite Hf; now left).
  apply filter_In in Hr. destruct Hr as [Hr Hold]. apply Z.ltb_lt in Hold.
  unfold reverify in Hr. apply loop_rows in Hr.
  destruct Hr as [Hnow|[Hrow Hnot]]; [lia|].
  apply Hnot. apply in_map. now apply Hall.
Qed.

(** After the run on the two sample rows nothing is stale. *)
Lemma reverify_clears_stale_witness :
  getStaleVerifications (now Stale.twoDaysLater)
    (db (reverify Stale.twoDaysLater Stale.world))
  = [].
Proof.
  apply reverify_clears_stale. vm_compute. repeat constructor.
Defined.

End StaleQuery.

(** ** The leaderboard of the bot *)

Section Leaderboard.

Import Js Supabase Server.

Lemma byBalance_sorted (l : list DiscordVerification) :
  StronglySorted (fun a b => nft_balance b <= nft_balance a)
    (Order.sortBy (fun v x => nft_balance x <=? nft_balance v) l).
Proof.
  assert (H : StronglySorted (fun a b => (nft_balance b <=? nft_balance a) = true)
                (Order.sortBy (fun v x => nft_balance x <=? nft_balance v) l)).
  { apply sortBy_sorted.
    - intros a b. rewrite !Z.leb_le. lia.
    - intros a b c. rewrite !Z.leb_le. lia. }
  induction H as [|x s Hs IH Hx]; constructor; [assumption|].
  rewrite Forall_forall in *. intros y Hy. apply Z.leb_le. auto.
Qed.

Lemma ranked_perm (d : Database) :
  Permutation
    (Order.sortBy (fun v x => nft_balance x <=? nft_balance v)
                  (Listing.getAllVerifications d))
    (discord_verifications d).
Proof.
  rewrite sortBy_perm. apply sortBy_perm.
Qed.

(** X9.  The leaderboard shows at most ten rows of the table, by
    decreasing balance, and they are the top: a row of the table that is not
    shown means ten rows are shown, none with a smaller balance than it.  It
    is empty only when the table is. *)
Theorem leaderboard_top_ten (d : Database) :
  let board := Bot.leaderboard d in
  Nat.le (List.length board) 10
  /\ (forall v, In v board -> In v (discord_verifications d))
  /\ StronglySorted (fun a b => nft_balance b <= nft_balance a) board
  /\ (forall r, In r (discord_verifications d) -> ~ In r board ->
        List.length board = 10%nat
        /\ forall v, In v board -> nft_balance r <= nft_balance v)
  /\ (board = [] <-> discord_verifications d = []).
Proof.
  intro board. unfold board, Bot.leaderboard.
  set (ranked := Order.sortBy (fun v x => nft_balance x <=? nft_balance v)
                              (Listing.getAllVerifications d)).
  assert (Hperm : Permutation ranked (discord_verifications d)) by apply ranked_perm.
  assert (Hsorted : StronglySorted (fun a b => nft_balance b <= nft_balance a) ranked)
    by apply byBalance_sorted.
  split; [apply firstn_le_length|].
  split.
  { intros v Hv. apply In_firstn_list in Hv. exact (Permutation_in _ Hperm Hv). }
  split; [now apply sorted_firstn|].
  split.
  { intros r Hr Hnot.
    assert (Hin : In r ranked) by exact (Permutation_in _ (Permutation_sym Hperm) Hr).
    destruct (beyond_firstn 10 ranked r Hin Hnot) as [Hskip Hfull].
    split; [exact Hfull|].
    intros v Hv.
    exact (sorted_firstn_skipn _ 10 ranked v r Hsorted Hv Hskip). }
  split.
  - intro Hempty. destruct ranked as [|a l] eqn:E.
    + now apply Permutation_nil.
    + discriminate.
  - intro Hempty. rewrite Hempty in Hperm.
    apply Permutation_sym, Permutation_nil in Hperm. now rewrite Hperm.
Qed.

(** Every row of the two-row sample table is on the board. *)
Lemma leaderboard_top_ten_witness :
  In Stale.aliceRow (discord_verifications (db Stale.world)).
Proof.
  apply (proj1 (proj2 (leaderboard_top_ten (db Stale.world)))).
  vm_compute. auto.
Defined.

End Leaderboard.

(** ** Trust score, threshold and label *)

Section Sybil.

Import Js Neynar.

Ltac split_tiers :=
  repeat match goal with
         | |- context [?a >=? ?b] => destruct (Z.geb_spec a b)
         | |- context [?a >? ?b] => destruct (Z.gtb_spec a b)
         end.

Lemma followerPoints_range (u : FarcasterUser) : 0 <= followerPoints u <= 30.
Proof. unfold followerPoints. split_tiers; lia. Qed.

Lemma followingPoints_range (u : FarcasterUser) : 0 <= followingPoints u <= 10.
Proof. unfold followingPoints. split_tiers; lia. Qed.

Lemma addressPoints_range (u : FarcasterUser) : 0 <= addressPoints u <= 20.
Proof. unfold addressPoints. split_tiers; lia. Qed.

Lemma badgePoints_range (u : FarcasterUser) : 0 <= badgePoints u <= 25.
Proof. unfold badgePoints. destruct (power_badge u); lia. Qed.

Lemma avatarPoints_range (u : FarcasterUser) : 0 <= avatarPoints u <= 5.
Proof. unfold avatarPoints. destruct (hasAvatar u); lia. Qed.

Lemma displayNamePoints_range (u : FarcasterUser) : 0 <= displayNamePoints u <= 5.
Proof. unfold displayNamePoints. destruct (hasDisplayName u); lia. Qed.

Lemma score_sum_bounds (user : FarcasterUser) :
  calculateSybilScore (Some user)
  = followerPoints user + followingPoints user + badgePoints user
    + addressPoints user + avatarPoints user + displayNamePoints user
    + ratioPoints user
  /\ 0 <= calculateSybilScore (Some user) <= 100.
Proof.
  change (calculateSybilScore (Some user)) with (score user).
  rewrite score_sum.
  pose proof (followerPoints_range user). pose proof (followingPoints_range user).
  pose proof (addressPoints_range user). pose proof (badgePoints_range user).
  pose proof (avatarPoints_range user). pose proof (displayNamePoints_range user).
  pose proof (ratioPoints_range user). lia.
Qed.

Lemma score_bounds (resp : option FarcasterUser) : 0 <= calculateSybilScore resp <= 100.
Proof.
  destruct resp as [user|]; [apply score_sum_bounds | cbn; lia].
Qed.

(** X10.  [calculateSybilScore] is between 0 and 100, and 0 for a profile
    that was not found.  The buckets add up to 100 at most, so the final
    [Math.min(score, 100)] never cuts anything: the score is the plain sum of
    the seven buckets. *)
Theorem sybil_score_range (resp : option FarcasterUser) :
  0 <= calculateSybilScore resp <= 100
  /\ calculateSybilScore None = 0
  /\ forall user,
       calculateSybilScore (Some user)
       = followerPoints user + followingPoints user + badgePoints user
         + addressPoints user + avatarPoints user + displayNamePoints user
         + ratioPoints user.
Proof.
  split; [apply score_bounds|]. split; [reflexivity|].
  intro user. apply score_sum_bounds.
Qed.

(** X11.  [passesSybilCheck] with its default threshold of 25: a profile
    with the power badge always passes, a profile that was not found never
    does, and passing is the same as not being labelled "Low Trust" on the
    success page.  For any thresholds, passing the higher one implies passing
    the lower one; a threshold of 0 or less is passed by everybody and one
    above 100 by nobody. *)
Theorem passesSybilCheck_rules (resp : option FarcasterUser) :
  (forall user, resp = Some user -> power_badge user = true ->
                SybilCheck.passesSybilCheck resp None = true)
  /\ SybilCheck.passesSybilCheck None None = false
  /\ (SybilCheck.passesSybilCheck resp None = true
      <-> Routes.scoreLabel (calculateSybilScore resp) <> "Low Trust")
  /\ (forall t t', t <= t' ->
        SybilCheck.passesSybilCheck resp (Some t') = true ->
        SybilCheck.passesSybilCheck resp (Some t) = true)
  /\ (forall t, t <= 0 -> SybilCheck.passesSybilCheck resp (Some t) = true)
  /\ (forall t, 100 < t -> SybilCheck.passesSybilCheck resp (Some t) = false).
Proof.
  pose proof (score_bounds resp) as Hrange.
  unfold SybilCheck.passesSybilCheck. repeat split.
  - intros user -> Hbadge. rewrite (proj1 (score_sum_bounds user)).
    pose proof (followerPoints_range user). pose proof (followingPoints_range user).
    pose proof (addressPoints_range user).
    pose proof (avatarPoints_range user). pose proof (displayNamePoints_range user).
    pose proof (ratioPoints_range user).
    unfold badgePoints. rewrite Hbadge.
    destruct (Z.geb_spec (followerPoints user + followingPoints user + 25
                          + addressPoints user + avatarPoints user
                          + displayNamePoints user + ratioPoints user) 25);
      [reflexivity | lia].
  - unfold Routes.scoreLabel. intro Hpass.
    destruct (calculateSybilScore resp >=? 50); [discriminate|].
    rewrite Hpass. discriminate.
  - unfold Routes.scoreLabel.
    destruct (Z.geb_spec (calculateSybilScore resp) 50) as [H50|H50];
      destruct (Z.geb_spec (calculateSybilScore resp) 25) as [H25|H25];
      try reflexivity; try lia.
    intro H. now contradiction H.
  - intros t t' Hle.
    destruct (Z.geb_spec (calculateSybilScore resp) t');
      destruct (Z.geb_spec (calculateSybilScore resp) t);
      try reflexivity; try discriminate; lia.
  - intros t Ht. destruct (Z.geb_spec (calculateSybilScore resp) t); [reflexivity | lia].
  - intros t Ht. destruct (Z.geb_spec (calculateSybilScore resp) t); [lia | reflexivity].
Qed.

(** A profile with the badge alone passes the default check. *)
Lemma passesSybilCheck_rules_witness :
  SybilCheck.passesSybilCheck (Some Sample2.badged) None = true.
Proof.
  exact (proj1 (passesSybilCheck_rules (Some Sample2.badged))
               Sample2.badged eq_refl eq_refl).
Defined.

End Sybil.

(** ** Wallets of a Farcaster account, and ownership *)

Section WalletsAndOwnership.

Import Js Neynar Supabase Server.

Lemma dedup_length (l : list string) : Nat.le (List.length (dedup l)) (List.length l).
Proof.
  induction l as [|x l IH]; cbn [dedup List.length]; [constructor|].
  apply le_n_S.
  eapply Nat.le_trans; [apply filter_length_le | exact IH].
Qed.

(** X12.  [getFarcasterWallets] returns no wallet twice and only lowercase
    strings; a wallet is in the result exactly when it is the lowercase form
    of the custody address or of a verified address; the custody address,
    when there is one, comes first; the result has at most one wallet more
    than there are verified addresses, and is empty when the lookup gave no
    user. *)
Theorem getFarcasterWallets_shape (resp : option FarcasterUser) :
  NoDup (getFarcasterWallets resp)
  /\ Forall (fun wallet => toLowerCase wallet = wallet) (getFarcasterWallets resp)
  /\ (forall wallet,
        In wallet (getFarcasterWallets resp)
        <-> exists address, In address (returnedWallets resp)
                            /\ wallet = toLowerCase address)
  /\ (forall user, resp = Some user -> truthy (custody_address user) = true ->
        hd_error (getFarcasterWallets resp) = Some (toLowerCase (custody_address user)))
  /\ Nat.le (List.length (getFarcasterWallets resp))
            (List.length (returnedWallets resp))
  /\ getFarcasterWallets None = [].
Proof.
  rewrite getFarcasterWallets_dedup. repeat split.
  - apply dedup_NoDup.
  - apply dedup_lowercase.
  - intro H. apply dedup_In, in_map_iff in H. destruct H as [a [E Ha]].
    exists a. auto.
  - intros [a [Ha ->]]. apply dedup_In, in_map_iff. exists a. auto.
  - intros user -> Hc. cbn [returnedWallets]. rewrite Hc. reflexivity.
  - eapply Nat.le_trans; [apply dedup_length|]. now rewrite length_map.
Qed.

(** A custody address repeated in capitals among the verified addresses
    is returned once, first. *)
Lemma getFarcasterWallets_shape_witness :
  hd_error (getFarcasterWallets (Some Sample2.twoWallets)) = Some Sample.walletB
  /\ getFarcasterWallets (Some Sample2.twoWallets) = [Sample.walletB; Sample.walletC].
Proof.
  split; [|reflexivity].
  exact (proj1 (proj2 (proj2 (proj2 (getFarcasterWallets_shape (Some Sample2.twoWallets)))))
               Sample2.twoWallets eq_refl eq_refl).
Defined.

Lemma sumOfLookups_nonneg (rpc : string -> option N) (wallets : list string) :
  0 <= sumOfLookups rpc wallets.
Proof.
  induction wallets as [|w l IH]; [cbn; lia|].
  rewrite sumOfLookups_cons. pose proof (balance_nonneg rpc w). lia.
Qed.

Lemma owned_iff_positive (rpc : string -> option N) (wallet : string) :
  Ownership.checkProtardioOwnership rpc wallet = true
  <-> 0 < Blockchain.getProtardioBalance rpc wallet.
Proof.
  unfold Ownership.checkProtardioOwnership, Blockchain.getProtardioBalance.
  destruct (rpc wallet) as [[|p]|]; cbn; split; intro H; try reflexivity;
    try discriminate; try lia.
Qed.

Lemma walletLoop_owned (rpc : string -> option N) (l : list string) (t : Z)
    (h : option string) (holding : string) :
  snd (fold_left (walletStep rpc) l (t, h)) = Some holding ->
  h = Some holding
  \/ (In holding l /\ Ownership.checkProtardioOwnership rpc holding = true).
Proof.
  revert t h. induction l as [|w l IH]; intros t h Hs; [now left|].
  cbn [fold_left walletStep] in Hs.
  destruct (Blockchain.getProtardioBalance rpc w >? 0) eqn:Hpos.
  - apply IH in Hs. destruct Hs as [Hs|[Hin Hown]].
    + destruct (negb (truthyOpt h)); [|now left].
      injection Hs as <-. right. split; [now left|].
      apply owned_iff_positive. now apply Z.gtb_lt in Hpos.
    + right. split; [now right | assumption].
  - apply IH in Hs. destruct Hs as [Hs|[Hin Hown]]; [now left|].
    right. split; [now right | assumption].
Qed.

Lemma checkWallets_holding (rpc : string -> option N) (wallets : list string)
    (totalBalance : Z) (holding : string) :
  checkWallets rpc wallets = (totalBalance, Some holding) ->
  In holding wallets
  /\ Ownership.checkProtardioOwnership rpc holding = true
  /\ totalBalance = sumOfLookups rpc wallets.
Proof.
  intro H.
  assert (Hs : snd (checkWallets rpc wallets) = Some holding) by now rewrite H.
  unfold checkWallets in Hs. apply walletLoop_owned in Hs.
  destruct Hs as [Hs|[Hin Hown]]; [discriminate|].
  repeat split; auto.
  rewrite <- checkWallets_total, H. reflexivity.
Qed.

(** X13.  [checkProtardioOwnership] and [getProtardioBalance] agree: a
    wallet is owned exactly when its balance is positive, and a failed lookup
    gives "not owned" and balance 0.  The total the callback computes over a
    wallet list is positive exactly when some wallet of the list is owned,
    and the wallet recorded is then an owned wallet of the list. *)
Theorem ownership_agrees_with_balance (rpc : string -> option N) :
  (forall wallet,
     Ownership.checkProtardioOwnership rpc wallet = true
     <-> 0 < Blockchain.getProtardioBalance rpc wallet)
  /\ (forall wallet, rpc wallet = None ->
        Ownership.checkProtardioOwnership rpc wallet = false
        /\ Blockchain.getProtardioBalance rpc wallet = 0)
  /\ (forall wallets,
        0 < fst (checkWallets rpc wallets)
        <-> exists wallet, In wallet wallets
                           /\ Ownership.checkProtardioOwnership rpc wallet = true)
  /\ (forall wallets holding,
        snd (checkWallets rpc wallets) = Some holding ->
        In holding wallets /\ Ownership.checkProtardioOwnership rpc holding = true).
Proof.
  split; [apply owned_iff_positive|]. split.
  { intros wallet Hnone.
    unfold Ownership.checkProtardioOwnership, Blockchain.getProtardioBalance.
    now rewrite Hnone. }
  split.
  - intro wallets. rewrite checkWallets_total.
    induction wallets as [|w l IH].
    + cbn. split; [lia | intros [x [[] _]]].
    + rewrite sumOfLookups_cons.
      pose proof (balance_nonneg rpc w). pose proof (sumOfLookups_nonneg rpc l).
      split.
      * intro Hpos.
        destruct (Z.lt_ge_cases 0 (Blockchain.getProtardioBalance rpc w)) as [Hw|Hw].
        -- exists w. split; [now left | now apply owned_iff_positive].
        -- assert (Hl : 0 < sumOfLookups rpc l) by lia.
           apply IH in Hl. destruct Hl as [x [Hx Hown]].
           exists x. split; [now right | assumption].
      * intros [x [[<-|Hx] Hown]].
        -- apply owned_iff_positive in Hown. lia.
        -- assert (0 < sumOfLookups rpc l) by (apply IH; eauto). lia.
  - intros wallets holding Hs. unfold checkWallets in Hs.
    apply walletLoop_owned in Hs. destruct Hs as [Hs|Hs]; [discriminate | exact Hs].
Qed.

(** In the sample chain state [walletB] is owned and is the wallet
    recorded. *)
Lemma ownership_agrees_with_balance_witness :
  In Sample.walletB [Sample.walletA; Sample.walletB]
  /\ Ownership.checkProtardioOwnership Sample.rpcAB Sample.walletB = true.
Proof.
  exact (proj2 (proj2 (proj2 (ownership_agrees_with_balance Sample.rpcAB)))
               [Sample.walletA; Sample.walletB] Sample.walletB eq_refl).
Defined.

End WalletsAndOwnership.

(** ** Validation of the routes *)

Section Validation.

Import Js Supabase Server Routes.

Lemma isHexDigit_lower (c : ascii) :
  isHexDigit c = true -> isHexDigit (lowerAscii c) = true.
Proof.
  destruct c as [[] [] [] [] [] [] [] []]; vm_compute; intro H;
    first [reflexivity | discriminate H].
Qed.

Lemma isHexDigit_not_space (c : ascii) :
  isHexDigit c = true -> isWhiteSpace c = false.
Proof.
  destruct c as [[] [] [] [] [] [] [] []]; vm_compute; intro H;
    first [reflexivity | discriminate H].
Qed.

Lemma toLowerCase_length (s : string) : String.length (toLowerCase s) = String.length s.
Proof.
  induction s as [|c s IH]; cbn; [reflexivity | now rewrite IH].
Qed.

Lemma allChars_hex_lower (s : string) :
  allChars isHexDigit s = true -> allChars isHexDigit (toLowerCase s) = true.
Proof.
  induction s as [|c s IH]; cbn [allChars toLowerCase]; [reflexivity|].
  intro H. apply andb_true_iff in H. destruct H as [Hc Hs].
  now rewrite (isHexDigit_lower c Hc), IH.
Qed.

Lemma trimEnd_hex (s : string) :
  allChars isHexDigit s = true -> trimEnd s = s.
Proof.
  induction s as [|c s IH]; cbn [allChars trimEnd]; [reflexivity|].
  intro H. apply andb_true_iff in H. destruct H as [Hc Hs].
  rewrite (IH Hs), (isHexDigit_not_space c Hc). now destruct s.
Qed.

Lemma isWalletAddress_inv (wallet : string) :
  isWalletAddress wallet = true ->
  exists digits,
    wallet = String "0" (String "x" digits)
    /\ String.length digits = 40%nat /\ allChars isHexDigit digits = true.
Proof.
  unfold isWalletAddress.
  destruct wallet as [|c0 rest]; [discriminate|].
  destruct c0 as [[] [] [] [] [] [] [] []]; try discriminate.
  destruct rest as [|c1 digits]; [discriminate|].
  destruct c1 as [[] [] [] [] [] [] [] []]; try discriminate.
  intro H. apply andb_true_iff in H. destruct H as [Hlen Hhex].
  apply Nat.eqb_eq in Hlen. now exists digits.
Qed.

(** X14.  A string accepted as a wallet address by the routes has 42
    characters, "0x" and forty hexadecimal digits; it is not empty, trimming
    leaves it as it is, and its lowercase form (the form that is stored and
    looked up) is accepted too. *)
Theorem isWalletAddress_accepts (wallet : string) :
  isWalletAddress wallet = true ->
  String.length wallet = 42%nat
  /\ (exists digits, wallet = String "0" (String "x" digits)
                     /\ allChars isHexDigit digits = true)
  /\ truthy wallet = true
  /\ trim wallet = wallet
  /\ isWalletAddress (toLowerCase wallet) = true.
Proof.
  intro H. destruct (isWalletAddress_inv wallet H) as (digits & -> & Hlen & Hhex).
  repeat split.
  - cbn [String.length]. now rewrite Hlen.
  - now exists digits.
  - unfold trim. cbn [trimStart]. change (isWhiteSpace "0") with false. cbv iota.
    cbn [trimEnd]. rewrite (trimEnd_hex digits Hhex).
    change (isWhiteSpace "x") with false. change (isWhiteSpace "0") with false.
    now destruct digits.
  - cbn [toLowerCase]. change (lowerAscii "0") with "0"%char.
    change (lowerAscii "x") with "x"%char.
    unfold isWalletAddress.
    rewrite toLowerCase_length, Hlen. now rewrite allChars_hex_lower.
Qed.

Lemma isWalletAddress_accepts_witness :
  isWalletAddress (toLowerCase "0xBBBBBBBBBBBBBBBBBBBBBBBBBBBBBBBBBBBBBBBB") = true.
Proof.
  apply (isWalletAddress_accepts "0xBBBBBBBBBBBBBBBBBBBBBBBBBBBBBBBBBBBBBBBB").
  reflexivity.
Defined.

Lemma newSet_singleton (x : string) : newSet [x] = [x].
Proof. reflexivity. Qed.

(** X15.  [POST /auth/wallet-connect] opens a session exactly when the
    Discord id is 17 to 20 digits and the wallet, trimmed, is an address;
    otherwise it leaves the world as it was.  The session it opens (under a
    session id not in use) is read back with FID 0 and the trimmed wallet in
    lowercase, and the callback of that session checks that one wallet and
    no other.  The verifications are never touched. *)
Theorem postWalletConnect_session
    (env : Env) (sessionId : string) (discord_id_ wallet_ : option string) (w : World) :
  let w' := fst (postWalletConnect env sessionId discord_id_ wallet_ w) in
  let response := snd (postWalletConnect env sessionId discord_id_ wallet_ w) in
  (response = RedirectToDiscord sessionId
   <-> exists discordId raw,
         discord_id_ = Some discordId /\ wallet_ = Some raw
         /\ isDiscordId discordId = true /\ isWalletAddress (trim raw) = true)
  /\ (response <> RedirectToDiscord sessionId -> w' = w)
  /\ (forall raw,
        response = RedirectToDiscord sessionId ->
        wallet_ = Some raw ->
        (forall p, In p (discord_pending_verifications (db w)) ->
                   Pending.session_id p <> sessionId) ->
        let pending := {| Pending.session_id := sessionId; Pending.fid := 0;
                          Pending.wallet := toLowerCase (trim raw);
                          Pending.created_at := now env |} in
        getPending sessionId (db w') = Some pending
        /\ forall env', callbackWallets env' pending = [toLowerCase (trim raw)])
  /\ discord_verifications (db w') = discord_verifications (db w).
Proof.
  intros w' response. unfold w', response, postWalletConnect.
  destruct discord_id_ as [discordId|].
  2:{ cbn [fst snd]. repeat split; try discriminate; try reflexivity.
      intros (x & raw & H & _). discriminate. }
  destruct (truthy discordId) eqn:Htd; cbn [negb orb].
  2:{ cbn [fst snd]. repeat split; try discriminate; try reflexivity.
      intros (x & raw & H & _ & Hd & _). injection H as <-.
      destruct discordId; [discriminate Hd | discriminate Htd]. }
  destruct (isDiscordId discordId) eqn:Hid; cbn [negb].
  2:{ cbn [fst snd]. repeat split; try discriminate; try reflexivity.
      intros (x & raw & H & _ & Hd & _). injection H as <-. congruence. }
  destruct wallet_ as [raw|].
  2:{ cbn [truthy negb orb fst snd]. repeat split; try discriminate; try reflexivity.
      intros (x & raw & _ & H & _). discriminate. }
  assert (Hsame : (if truthy (trim raw) then trim raw else EmptyString) = trim raw)
    by (now destruct (trim raw)).
  rewrite Hsame.
  destruct (isWalletAddress (trim raw)) eqn:Hw.
  - assert (Ht : truthy (trim raw) = true).
    { destruct (isWalletAddress_inv _ Hw) as (digits & -> & _). reflexivity. }
    rewrite Ht. cbn [negb orb fst snd db].
    split; [split; [intros _; exists discordId, raw; auto | reflexivity]|].
    split; [intro H; now contradiction H|].
    split; [|apply storePending_verifications].
    intros raw' _ Hraw Hfresh. injection Hraw as <-. cbv zeta. split.
    + now apply storePending_fresh.
    + intro env'. unfold callbackWallets. cbn [Pending.fid Pending.wallet].
      change (0 >? 0) with false. cbv iota. unfold allWallets.
      rewrite toLowerCase_idem. apply newSet_singleton.
  - rewrite orb_true_r. cbn [fst snd]. repeat split; try discriminate; try reflexivity.
    intros (x & raw' & _ & H & _ & Hw'). injection H as <-. congruence.
Qed.

(** A wallet typed in capitals with blanks around it opens a session for
    the trimmed lowercase address. *)
Lemma postWalletConnect_session_witness :
  getPending "session-9"
    (db (fst (postWalletConnect (Sample.envFor Sample.alice Sample.rpcAB true 1000)
                "session-9" (Some "100000000000000001")
                (Some "  0xBBBBBBBBBBBBBBBBBBBBBBBBBBBBBBBBBBBBBBBB ")
                Sample.emptyWorld)))
  = Some {| Pending.session_id := "session-9"; Pending.fid := 0;
            Pending.wallet := Sample.walletB; Pending.created_at := 1000 |}.
Proof.
  refine (proj1 (proj1 (proj2 (proj2
            (postWalletConnect_session
               (Sample.envFor Sample.alice Sample.rpcAB true 1000)
               "session-9" (Some "100000000000000001")
               (Some "  0xBBBBBBBBBBBBBBBBBBBBBBBBBBBBBBBBBBBBBBBB ")
               Sample.emptyWorld)))
            "  0xBBBBBBBBBBBBBBBBBBBBBBBBBBBBBBBBBBBBBBBB " eq_refl eq_refl _)).
  intros p [].
Defined.

End Validation.

(** ** What a callback leaves in the tables *)

Section CallbackEffects.

Import Js Supabase Server Routes.

Lemma callbackWallets_lowercase (env : Env) (pending : Pending.DiscordPendingVerification)
    (wallet_ : string) :
  In wallet_ (callbackWallets env pending) -> toLowerCase wallet_ = wallet_.
Proof.
  intro H.
  assert (Hlow : Forall (fun x => toLowerCase x = x) (callbackWallets env pending)).
  { unfold callbackWallets. destruct (Pending.fid pending >? 0).
    - rewrite allWallets_orderedUnion. unfold orderedUnion.
      apply (dedup_lowercase (Pending.wallet pending :: _)).
    - rewrite (allWallets_orderedUnion _ None). unfold orderedUnion.
      apply (dedup_lowercase (Pending.wallet pending :: _)). }
  rewrite Forall_forall in Hlow. now apply Hlow.
Qed.

Lemma getVerificationByDiscord_deletePending (discordId sessionId : string) (d : Database) :
  getVerificationByDiscord discordId (deletePending sessionId d)
  = getVerificationByDiscord discordId d.
Proof. reflexivity. Qed.

Lemma getVerifiedCount_deletePending (sessionId : string) (d : Database) :
  getVerifiedCount (deletePending sessionId d) = getVerifiedCount d.
Proof. reflexivity. Qed.

(** X16.  After a callback that answers the success page (the table
    having one row per Discord id), the status endpoint finds the
    authenticated account with exactly what was verified: the FID of the
    session, a holding wallet that is one of the session's candidate wallets
    and owns tokens, the balance shown on the page, which is the sum over the
    candidates, and the time of the callback.  The role had been granted and
    the session is gone. *)
Theorem callback_success_recorded
    (env : Env) (code state : string) (w : World)
    (discordUsername : string) (balance sybilScore : Z) :
  uniqueDiscordIds (discord_verifications (db w)) ->
  snd (callback env code state w) = SuccessPage discordUsername balance sybilScore ->
  exists pending discordUser holding,
    getPending state (db w) = Some pending
    /\ oauth env code = Some discordUser
    /\ discordUsername = username discordUser
    /\ assignHolderRole env (id discordUser) = true
    /\ In holding (callbackWallets env pending)
    /\ Ownership.checkProtardioOwnership (rpc env) holding = true
    /\ balance = sumOfLookups (rpc env) (callbackWallets env pending)
    /\ apiVerification (id discordUser) (fst (callback env code state w))
       = Some {| fid := Pending.fid pending; wallet := holding;
                 discord_id := id discordUser;
                 discord_username := username discordUser;
                 nft_balance := balance;
                 verified_at := now env; last_checked := now env |}
    /\ getPending state (db (fst (callback env code state w))) = None.
Proof.
  intro Hids.
  pose proof (callback_outcome env code state w) as Hout.
  destruct Hout as [| | | | | | |pending discordUser totalBalance holding score_ Hp Ho Hr Hc];
    cbn [fst snd]; intro Hpage; try discriminate.
  injection Hpage as E1 E2 _. subst discordUsername balance.
  destruct (checkWallets_holding _ _ _ _ Hc) as (Hin & Hown & Hsum).
  exists pending, discordUser, holding.
  repeat split; auto.
  - unfold apiVerification. cbn [db].
    rewrite getVerificationByDiscord_deletePending, storeVerification_found by assumption.
    now rewrite (callbackWallets_lowercase env pending holding Hin).
  - apply getPending_deleted.
Qed.

(** The holder of the sample session is found afterwards with wallet and
    balance. *)
Lemma callback_success_recorded_witness :
  exists pending discordUser holding,
    getPending "session-1" (db Scenario.holderWaiting) = Some pending
    /\ oauth (Sample.envFor Sample.alice Sample.rpcAB true 2000) "code-1" = Some discordUser
    /\ "alice" = username discordUser
    /\ assignHolderRole (Sample.envFor Sample.alice Sample.rpcAB true 2000)
                        (id discordUser) = true
    /\ In holding (callbackWallets (Sample.envFor Sample.alice Sample.rpcAB true 2000) pending)
    /\ Ownership.checkProtardioOwnership Sample.rpcAB holding = true
    /\ 3 = sumOfLookups Sample.rpcAB
             (callbackWallets (Sample.envFor Sample.alice Sample.rpcAB true 2000) pending)
    /\ apiVerification (id discordUser)
         (fst (callback (Sample.envFor Sample.alice Sample.rpcAB true 2000)
                        "code-1" "session-1" Scenario.holderWaiting))
       = Some {| fid := Pending.fid pending; wallet := holding;
                 discord_id := id discordUser;
                 discord_username := username discordUser;
                 nft_balance := 3;
                 verified_at := 2000; last_checked := 2000 |}
    /\ getPending "session-1"
         (db (fst (callback (Sample.envFor Sample.alice Sample.rpcAB true 2000)
                            "code-1" "session-1" Scenario.holderWaiting)))
       = None.
Proof.
  apply (callback_success_recorded (Sample.envFor Sample.alice Sample.rpcAB true 2000)
           "code-1" "session-1" Scenario.holderWaiting "alice" 3 0).
  - unfold uniqueDiscordIds, uniqueBy. cbn. constructor.
  - reflexivity.
Defined.

(** X17.  A callback touches the row of the authenticated account only:
    every other account is found as before; the number of verified holders
    stays or grows by one; and unless the answer is the success page the
    table of verifications is exactly as it was. *)
Theorem callback_touches_one_account (env : Env) (code state : string) (w : World) :
  let w' := fst (callback env code state w) in
  (forall other,
     (forall discordUser, oauth env code = Some discordUser -> other <> id discordUser) ->
     apiVerification other w' = apiVerification other w)
  /\ apiStats w <= apiStats w' <= apiStats w + 1
  /\ ((forall name balance sybilScore,
         snd (callback env code state w) <> SuccessPage name balance sybilScore) ->
      discord_verifications (db w') = discord_verifications (db w)).
Proof.
  intro w'. unfold w', apiVerification, apiStats.
  pose proof (callback_outcome env code state w) as Hout.
  destruct Hout as [| | | | | | |pending discordUser totalBalance holding score_ Hp Ho Hr Hc];
    cbn [fst snd db];
    rewrite ?getVerifiedCount_deletePending;
    try (split; [reflexivity | split; [lia | reflexivity]]).
  split; [|split].
  - intros other Hother. rewrite getVerificationByDiscord_deletePending.
    apply storeVerification_other. now apply Hother.
  - rewrite storeVerification_count.
    destruct (existsb _ (map discord_id (discord_verifications (db w)))); lia.
  - intro Hnot. exfalso. now apply (Hnot (username discordUser) totalBalance score_).
Qed.

Lemma callback_touches_one_account_witness :
  apiVerification (id Sample.bob)
    (fst (callback (Sample.envFor Sample.alice Sample.rpcAB true 2000)
                   "code-1" "session-1" Scenario.holderWaiting))
  = apiVerification (id Sample.bob) Scenario.holderWaiting.
Proof.
  apply (proj1 (callback_touches_one_account
                  (Sample.envFor Sample.alice Sample.rpcAB true 2000)
                  "code-1" "session-1" Scenario.holderWaiting)).
  intros discordUser H. injection H as <-. discriminate.
Defined.

End CallbackEffects.

(** ** The conflict pages *)

Section Conflicts.

Import Js Supabase Server Routes.

Lemma linkedToOther_found (existing : option DiscordVerification) (discordId : string)
    (other : DiscordVerification) :
  linkedToOther existing discordId = Some other ->
  existing = Some other /\ discord_id other <> discordId.
Proof.
  intro H. split; [|now apply linkedToOther_some in H].
  unfold linkedToOther in H. destruct existing as [e|]; [|discriminate].
  destruct (negb (discord_id e =? discordId)%string); [|discriminate].
  exact H.
Qed.

(** X18.  The two conflict pages name a real row of another account.  The
    page for a FID already linked is answered only for a positive FID and
    names the row of the table with that FID; the page for a wallet already
    linked names the row whose wallet is a candidate wallet of the session
    that owns tokens; in both cases the row belongs to a Discord account
    other than the authenticated one, nothing is written to the
    verifications and the session is deleted. *)
Theorem callback_conflict_pages (env : Env) (code state : string) (w : World) :
  let w' := fst (callback env code state w) in
  let response := snd (callback env code state w) in
  (forall fid_ name,
     response = FidAlreadyLinked fid_ name ->
     0 < fid_
     /\ exists other,
          In other (discord_verifications (db w))
          /\ fid other = fid_ /\ discord_username other = name
          /\ forall discordUser, oauth env code = Some discordUser ->
                                 discord_id other <> id discordUser)
  /\ (forall name,
        response = WalletAlreadyLinked name ->
        exists other pending,
          getPending state (db w) = Some pending
          /\ In other (discord_verifications (db w))
          /\ In (wallet other) (callbackWallets env pending)
          /\ Ownership.checkProtardioOwnership (rpc env) (wallet other) = true
          /\ discord_username other = name
          /\ forall discordUser, oauth env code = Some discordUser ->
                                 discord_id other <> id discordUser)
  /\ (forall fid_ name,
        response = FidAlreadyLinked fid_ name \/ response = WalletAlreadyLinked name ->
        discord_verifications (db w') = discord_verifications (db w)
        /\ getPending state (db w') = None).
Proof.
  intros w' response. unfold w', response. split; [|split].
  - intros fid_ name. unfold callback.
    destruct (negb (truthy code) || negb (truthy state)); [discriminate|].
    destruct (getPending state (db w)) as [pending|]; [|discriminate].
    destruct (oauth env code) as [discordUser|]; [|discriminate].
    destruct (checkWallets (rpc env) (callbackWallets env pending))
      as [totalBalance [holding|]]; [|discriminate].
    destruct ((totalBalance >? 0) && truthy holding); [|discriminate].
    destruct (Pending.fid pending >? 0) eqn:Hpos.
    + destruct (linkedToOther (getVerificationByFid (Pending.fid pending) (db w))
                              (id discordUser)) as [other|] eqn:Hfid.
      * cbn [snd]. intro H. injection H as <- <-.
        apply linkedToOther_found in Hfid. destruct Hfid as [Hget Hne].
        unfold getVerificationByFid in Hget. apply single_In, filter_In in Hget.
        destruct Hget as [Hin Hf]. apply Z.eqb_eq in Hf.
        split; [now apply Z.gtb_lt in Hpos|].
        exists other. repeat split; auto.
        intros u Hu. injection Hu as <-. exact Hne.
      * destruct (linkedToOther (getVerificationByWallet holding (db w)) (id discordUser));
          [discriminate|].
        destruct (assignHolderRole env (id discordUser)); discriminate.
    + destruct (linkedToOther (getVerificationByWallet holding (db w)) (id discordUser));
        [discriminate|].
      destruct (assignHolderRole env (id discordUser)); discriminate.
  - intros name. unfold callback.
    destruct (negb (truthy code) || negb (truthy state)); [discriminate|].
    destruct (getPending state (db w)) as [pending|]; [|discriminate].
    destruct (oauth env code) as [discordUser|]; [|discriminate].
    destruct (checkWallets (rpc env) (callbackWallets env pending))
      as [totalBalance [holding|]] eqn:Hc; [|discriminate].
    destruct ((totalBalance >? 0) && truthy holding); [|discriminate].
    destruct (if Pending.fid pending >? 0
              then linkedToOther (getVerificationByFid (Pending.fid pending) (db w))
                                 (id discordUser)
              else None); [discriminate|].
    destruct (linkedToOther (getVerificationByWallet holding (db w)) (id discordUser))
      as [other|] eqn:Hwallet.
    + cbn [snd]. intro H. injection H as <-.
      apply linkedToOther_found in Hwallet. destruct Hwallet as [Hget Hne].
      unfold getVerificationByWallet in Hget. apply single_In, filter_In in Hget.
      destruct Hget as [Hin Hw]. apply String.eqb_eq in Hw.
      destruct (checkWallets_holding _ _ _ _ Hc) as (Hcand & Hown & _).
      rewrite (callbackWallets_lowercase env pending holding Hcand) in Hw.
      exists other, pending. rewrite Hw. repeat split; auto.
      intros u Hu. injection Hu as <-. exact Hne.
    + destruct (assignHolderRole env (id discordUser)); discriminate.
  - intros fid_ name.
    pose proof (callback_outcome env code state w) as Hout.
    destruct Hout; cbn [fst snd db]; intros [Hresp|Hresp]; try discriminate;
      (split; [reflexivity | apply getPending_deleted]).
Qed.

(** The scenario of the specification: FID 42 is bound to [alice], and
    [bob]'s attempt with it is refused with her name. *)
Lemma callback_conflict_pages_witness :
  0 < 42
  /\ exists other,
       In other (discord_verifications (db Conflict.fidTaken))
       /\ fid other = 42 /\ discord_username other = "alice"
       /\ forall discordUser,
            oauth (Sample.envFor Sample.bob Sample.rpcAB true 4000) "code-2"
            = Some discordUser ->
            discord_id other <> id discordUser.
Proof.
  exact (proj1 (callback_conflict_pages (Sample.envFor Sample.bob Sample.rpcAB true 4000)
                  "code-2" "session-2" Conflict.fidTaken)
               42 "alice" eq_refl).
Defined.

End Conflicts.

(** ** Strings cut for display *)

Section Slices.

Import Js Display.

Lemma substring_prefix_length (n : nat) (s : string) :
  String.length (String.substring 0 n s) = Nat.min n (String.length s).
Proof.
  revert n. induction s as [|c s IH]; intros [|n]; cbn; try reflexivity.
  now rewrite IH.
Qed.

Lemma substring_all (s : string) (m : nat) :
  Nat.le (String.length s) m -> String.substring 0 m s = s.
Proof.
  revert m. induction s as [|c s IH]; intros [|m] H; cbn in *; try reflexivity.
  - inversion H.
  - f_equal. apply IH. now apply le_S_n.
Qed.

Lemma substring_skip (pre rest : string) (k m : nat) :
  String.substring (String.length pre + k) m (pre ++ rest)%string
  = String.substring k m rest.
Proof.
  induction pre as [|c pre IH]; cbn; [reflexivity | exact IH].
Qed.

Lemma substring_split (n : nat) (s : string) :
  s = (String.substring 0 n s ++ String.substring n (String.length s - n) s)%string.
Proof.
  revert n. induction s as [|c s IH]; intros [|n]; cbn [String.substring String.length
    String.append Nat.sub]; try reflexivity.
  - rewrite substring_all; [reflexivity | cbn; constructor].
  - f_equal. apply IH.
Qed.

Lemma substring_length (n m : nat) (s : string) :
  String.length (String.substring n m s) = Nat.min m (String.length s - n).
Proof.
  revert n m. induction s as [|c s IH]; intros [|n] [|m]; cbn; try reflexivity.
  - now rewrite IH, Nat.sub_0_r.
  - apply IH.
  - apply IH.
Qed.

Lemma append_length (a b : string) :
  String.length (a ++ b)%string = (String.length a + String.length b)%nat.
Proof.
  induction a as [|c a IH]; cbn; [reflexivity | now rewrite IH].
Qed.

Lemma slice_prefix (s : string) (n : nat) :
  slice s 0 (Some (Z.of_nat n)) = String.substring 0 n s.
Proof.
  unfold slice, clampIndex. cbn [Z.ltb Z.compare].
  destruct (Z.ltb_spec (Z.of_nat n) 0) as [Hneg|_]; [lia|].
  rewrite Z.min_l by lia. rewrite Z.sub_0_r.
  change (Z.to_nat 0) with 0%nat.
  destruct (Nat.le_gt_cases n (String.length s)) as [Hle|Hgt].
  - rewrite Z.min_l by lia. now rewrite Nat2Z.id.
  - rewrite Z.min_r by lia. rewrite Nat2Z.id.
    rewrite !substring_all by lia. reflexivity.
Qed.

Lemma slice_last (s : string) (n : nat) :
  slice s (- Z.of_nat (S n)) None
  = String.substring (String.length s - S n) (S n) s.
Proof.
  unfold slice, clampIndex.
  destruct (Z.ltb_spec (- Z.of_nat (S n)) 0) as [_|Hpos]; [|lia].
  destruct (Nat.le_gt_cases (S n) (String.length s)) as [Hle|Hgt].
  - rewrite Z.max_l by lia.
    replace (Z.to_nat (Z.of_nat (String.length s) + - Z.of_nat (S n)))
      with (String.length s - S n)%nat by lia.
    replace (Z.to_nat (Z.of_nat (String.length s)
                       - (Z.of_nat (String.length s) + - Z.of_nat (S n))))
      with (S n) by lia.
    reflexivity.
  - rewrite Z.max_r by lia. change (Z.to_nat 0) with 0%nat.
    rewrite Z.sub_0_r, Nat2Z.id.
    replace (String.length s - S n)%nat with 0%nat by lia.
    rewrite !substring_all by lia. reflexivity.
Qed.

(** X19.  [truncateAddress] (and the same cut in the pages and the bot)
    never gives more than 13 characters.  Of a string of ten characters or
    more it shows the first six and the last four, 13 characters with the
    dots, and hides what is between; a string of at most four characters is
    shown whole on both sides of the dots. *)
Theorem truncateAddress_shape (address : string) :
  Nat.le (String.length (truncateAddress address)) 13
  /\ (Nat.le 10 (String.length address) ->
      exists head middle tail,
        address = (head ++ middle ++ tail)%string
        /\ String.length head = 6%nat /\ String.length tail = 4%nat
        /\ truncateAddress address = (head ++ "..." ++ tail)%string)
  /\ (Nat.le (String.length address) 4 ->
      truncateAddress address = (address ++ "..." ++ address)%string).
Proof.
  unfold truncateAddress.
  change 6 with (Z.of_nat 6). change (-4) with (- Z.of_nat 4).
  rewrite slice_prefix, slice_last.
  split; [|split].
  - rewrite !append_length, substring_prefix_length, substring_length.
    cbn [String.length]. lia.
  - intro Hlen.
    set (head := String.substring 0 6 address).
    set (rest := String.substring 6 (String.length address - 6) address).
    assert (Hsplit : address = (head ++ rest)%string) by apply substring_split.
    assert (Hhead : String.length head = 6%nat).
    { unfold head. rewrite substring_prefix_length. lia. }
    assert (Hrest : String.length rest = (String.length address - 6)%nat).
    { unfold rest. rewrite substring_length. lia. }
    exists head, (String.substring 0 (String.length address - 10) rest),
           (String.substring (String.length address - 10) 4 rest).
    assert (Htail : String.substring (String.length address - 4) 4 address
                    = String.substring (String.length address - 10) 4 rest).
    { rewrite Hsplit at 2.
      replace (String.length address - 4)%nat
        with (String.length head + (String.length address - 10))%nat by lia.
      apply substring_skip. }
    repeat split.
    + rewrite Hsplit at 1. f_equal.
      rewrite (substring_split (String.length address - 10) rest) at 1.
      do 2 f_equal. lia.
    + exact Hhead.
    + rewrite substring_length. lia.
    + now rewrite Htail.
  - intro Hlen. rewrite !substring_all by lia.
    replace (String.length address - 4)%nat with 0%nat by lia.
    now rewrite substring_all by lia.
Qed.

Lemma truncateAddress_shape_witness :
  truncateAddress Sample.walletB = "0xbbbb...bbbb"
  /\ truncateAddress "0x1" = "0x1...0x1".
Proof.
  split.
  - destruct (proj1 (proj2 (truncateAddress_shape Sample.walletB)))
      as (head & middle & tail & _ & _ & _ & H).
    + cbn. repeat constructor.
    + reflexivity.
  - apply (proj2 (proj2 (truncateAddress_shape "0x1"))). cbn. repeat constructor.
Defined.

End Slices.

(** ** Base URL and posts *)

Section UrlsAndPosts.

Import Js Display.

Lemma endsWith_spec (suffix s : string) :
  endsWith suffix s = true <-> exists pre, s = (pre ++ suffix)%string.
Proof.
  induction s as [|c s IH]; cbn [endsWith].
  - destruct (String.eqb_spec EmptyString suffix) as [E|N].
    + split; [|reflexivity]. intros _. exists EmptyString. exact E.
    + split; [discriminate|]. intros [pre H].
      destruct pre; cbn in H; [congruence | discriminate].
  - destruct (String.eqb_spec (String c s) suffix) as [E|N].
    + split; [|reflexivity]. intros _. exists EmptyString. exact E.
    + rewrite IH. split.
      * intros [pre H]. exists (String c pre). cbn. now rewrite H.
      * intros [pre H]. destruct pre as [|c' pre]; cbn in H; [congruence|].
        injection H as _ H. now exists pre.
Qed.

Lemma substring_prefix_app (a b : string) :
  String.substring 0 (String.length a) (a ++ b)%string = a.
Proof.
  induction a as [|c a IH]; cbn.
  - now destruct b.
  - now rewrite IH.
Qed.

Lemma slice_drop_last (a : string) (c : ascii) :
  slice (a ++ String c EmptyString)%string 0 (Some (-1)) = a.
Proof.
  unfold slice, clampIndex. rewrite append_length. cbn [String.length].
  change (0 <? 0) with false. change (-1 <? 0) with true. cbv iota.
  rewrite Z.min_l by lia. rewrite Z.max_l by lia.
  change (Z.to_nat 0) with 0%nat.
  replace (Z.to_nat (Z.of_nat (String.length a + 1) + -1 - 0)) with (String.length a)
    by lia.
  apply substring_prefix_app.
Qed.

(** X20.  [getBaseUrl] falls back to "http://localhost:3000" when
    [BASE_URL] is unset or empty, returns a configured URL that does not end
    in a slash as it is, and removes the trailing slash of one that does:
    exactly one slash, so a URL configured with or without it gives the same
    links. *)
Theorem getBaseUrl_trailing_slash :
  Bot.getBaseUrl None = "http://localhost:3000"
  /\ Bot.getBaseUrl (Some EmptyString) = "http://localhost:3000"
  /\ (forall url, Bot.getBaseUrl (Some (url ++ "/")%string) = url)
  /\ (forall url, truthy url = true -> endsWith "/" url = false ->
        Bot.getBaseUrl (Some url) = url
        /\ Bot.getBaseUrl (Some (url ++ "/")%string) = Bot.getBaseUrl (Some url)).
Proof.
  split; [reflexivity|]. split; [reflexivity|].
  assert (Hslash : forall url, Bot.getBaseUrl (Some (url ++ "/")%string) = url).
  { intro url. unfold Bot.getBaseUrl.
    assert (Ht : truthy (url ++ "/")%string = true) by (now destruct url).
    rewrite Ht.
    assert (He : endsWith "/" (url ++ "/")%string = true)
      by (apply endsWith_spec; now exists url).
    rewrite He. apply slice_drop_last. }
  split; [exact Hslash|].
  intros url Ht He.
  assert (Hsame : Bot.getBaseUrl (Some url) = url).
  { unfold Bot.getBaseUrl. now rewrite Ht, He. }
  split; [exact Hsame | now rewrite Hslash, Hsame].
Qed.

Lemma getBaseUrl_trailing_slash_witness :
  Bot.getBaseUrl (Some "https://verify.example/"%string)
  = Bot.getBaseUrl (Some "https://verify.example"%string).
Proof.
  apply (proj2 (proj2 (proj2 getBaseUrl_trailing_slash)) "https://verify.example");
    reflexivity.
Defined.



End UrlsAndPosts.

(** ** Tracked FIDs *)

Section TrackedFids.

Import FarcasterFeed.

Lemma existsb_fid (fid : Z) (tracked : list Z) :
  existsb (Z.eqb fid) tracked = true <-> In fid tracked.
Proof.
  rewrite existsb_exists. split.
  - intros [x [Hx E]]. apply Z.eqb_eq in E. now subst.
  - intro H. exists fid. split; [assumption | apply Z.eqb_refl].
Qed.

Lemma removeFirst_absent (fid : Z) (tracked : list Z) :
  ~ In fid tracked -> removeFirst fid tracked = tracked.
Proof.
  induction tracked as [|x l IH]; cbn [removeFirst In]; intro H; [reflexivity|].
  destruct (Z.eqb_spec x fid) as [E|N]; [tauto|]. f_equal. apply IH. tauto.
Qed.

Lemma removeFirst_app_last (fid : Z) (tracked : list Z) :
  ~ In fid tracked -> removeFirst fid (tracked ++ [fid]) = tracked.
Proof.
  induction tracked as [|x l IH]; cbn [removeFirst In app]; intro H.
  - now rewrite Z.eqb_refl.
  - destruct (Z.eqb_spec x fid) as [E|N]; [tauto|]. f_equal. apply IH. tauto.
Qed.

Lemma removeFirst_In (fid other : Z) (tracked : list Z) :
  other <> fid -> (In other (removeFirst fid tracked) <-> In other tracked).
Proof.
  intro Hne. induction tracked as [|x l IH]; cbn [removeFirst In]; [tauto|].
  destruct (Z.eqb_spec x fid) as [E|N]; cbn [In]; [|tauto].
  subst x. split; [tauto|]. intros [E|H]; [congruence | assumption].
Qed.

Lemma removeFirst_NoDup (fid : Z) (tracked : list Z) :
  NoDup tracked -> NoDup (removeFirst fid tracked) /\ ~ In fid (removeFirst fid tracked).
Proof.
  induction 1 as [|x l Hx Hl IH]; cbn [removeFirst]; [split; [constructor | tauto]|].
  destruct (Z.eqb_spec x fid) as [E|N].
  - subst x. split; assumption.
  - destruct IH as [IH1 IH2]. split.
    + constructor; [|assumption]. intro H. apply Hx.
      now apply (removeFirst_In fid x l N).
    + cbn [In]. tauto.
Qed.

(** X22.  [addTrackedFid] and [removeTrackedFid] keep the list of tracked
    FIDs free of repetitions.  After adding, the FID is tracked, and adding
    it again changes nothing; removing a FID that is not tracked changes
    nothing, and removing just after adding a new FID gives the list back;
    after removing, the FID is no longer tracked and every other FID is
    tracked as before. *)
Theorem tracked_fids_rules (fid : Z) (tracked : list Z) :
  In fid (addTrackedFid fid tracked)
  /\ addTrackedFid fid (addTrackedFid fid tracked) = addTrackedFid fid tracked
  /\ (NoDup tracked ->
      NoDup (addTrackedFid fid tracked)
      /\ NoDup (removeTrackedFid fid tracked)
      /\ ~ In fid (removeTrackedFid fid tracked))
  /\ (~ In fid tracked ->
      removeTrackedFid fid tracked = tracked
      /\ removeTrackedFid fid (addTrackedFid fid tracked) = tracked)
  /\ (forall other, other <> fid ->
        (In other (removeTrackedFid fid tracked) <-> In other tracked)
        /\ (In other (addTrackedFid fid tracked) <-> In other tracked)).
Proof.
  assert (Hadd : In fid (addTrackedFid fid tracked)).
  { unfold addTrackedFid. destruct (existsb (Z.eqb fid) tracked) eqn:E; cbn [negb].
    - now apply existsb_fid.
    - apply in_or_app. right. now left. }
  split; [exact Hadd|]. split.
  { unfold addTrackedFid at 1.
    apply existsb_fid in Hadd. now rewrite Hadd. }
  split.
  { intro Hnd. split; [|split].
    - unfold addTrackedFid. destruct (existsb (Z.eqb fid) tracked) eqn:E; cbn [negb];
        [assumption|].
      apply NoDup_app; [assumption | repeat constructor; intros [] |].
      intros x Hx [<-|[]]. apply existsb_fid in Hx. congruence.
    - unfold removeTrackedFid. destruct (existsb (Z.eqb fid) tracked); [|assumption].
      now apply removeFirst_NoDup.
    - unfold removeTrackedFid. destruct (existsb (Z.eqb fid) tracked) eqn:E.
      + now apply removeFirst_NoDup.
      + intro H. apply existsb_fid in H. congruence. }
  split.
  { intro Habsent.
    assert (E : existsb (Z.eqb fid) tracked = false).
    { destruct (existsb (Z.eqb fid) tracked) eqn:E; [|reflexivity].
      apply existsb_fid in E. contradiction. }
    split.
    - unfold removeTrackedFid. now rewrite E.
    - unfold addTrackedFid. rewrite E. cbn [negb]. unfold removeTrackedFid.
      assert (E' : existsb (Z.eqb fid) (tracked ++ [fid]) = true).
      { apply existsb_fid, in_or_app. right. now left. }
      rewrite E'. now apply removeFirst_app_last. }
  intros other Hne. split.
  - unfold removeTrackedFid. destruct (existsb (Z.eqb fid) tracked); [|tauto].
    now apply removeFirst_In.
  - unfold addTrackedFid. destruct (existsb (Z.eqb fid) tracked); cbn [negb]; [tauto|].
    rewrite in_app_iff. cbn [In]. split; [|tauto].
    intros [H|[E|[]]]; [assumption | congruence].
Qed.

Lemma tracked_fids_rules_witness :
  removeTrackedFid 42 (addTrackedFid 42 [1; 7]) = [1; 7]
  /\ NoDup (addTrackedFid 42 [1; 7]).
Proof.
  split.
  - apply (proj1 (proj2 (proj2 (proj2 (tracked_fids_rules 42 [1; 7]))))).
    cbn. intuition discriminate.
  - apply (proj1 (proj2 (proj2 (tracked_fids_rules 42 [1; 7])))).
    repeat constructor; cbn; intuition discriminate.
Defined.

End TrackedFids.

(** ** The Farcaster feed *)

Section Feed.

Import Js FarcasterFeed.

Lemma forEachUntilThrow_beforeThrow {S A : Type} (turn : S -> A -> option S)
    (throws : A -> bool) (step : S -> A -> S) (l : list A) (st : S) :
  (forall st x, turn st x = if throws x then None else Some (step st x)) ->
  Control.forEachUntilThrow turn l st = fold_left step (Control.beforeThrow throws l) st.
Proof.
  intro Hturn. revert st.
  induction l as [|x l IH]; intro st; [reflexivity|].
  cbn [Control.forEachUntilThrow Control.beforeThrow]. rewrite Hturn.
  destruct (throws x); [reflexivity|]. cbn [fold_left]. apply IH.
Qed.

(** The elements handled are a prefix, none of them throws, and what
    follows them, if anything, starts with one that does. *)
Lemma beforeThrow_prefix {A : Type} (throws : A -> bool) (l : list A) :
  exists rest,
    l = Control.beforeThrow throws l ++ rest
    /\ (forall x, In x (Control.beforeThrow throws l) -> throws x = false)
    /\ (rest = [] \/ exists x rest', rest = x :: rest' /\ throws x = true).
Proof.
  induction l as [|x l (rest & Hl & Hok & Hrest)]; cbn [Control.beforeThrow].
  - exists []. repeat split; auto. intros x [].
  - destruct (throws x) eqn:Hx.
    + exists (x :: l). repeat split; auto.
      * intros y [].
      * right. now exists x, l.
    + exists rest. repeat split; auto.
      * cbn [app]. now f_equal.
      * intros y [<-|Hy]; auto.
Qed.

Lemma beforeThrow_all {A : Type} (throws : A -> bool) (l : list A) :
  (forall x, In x l -> throws x = false) -> Control.beforeThrow throws l = l.
Proof.
  induction l as [|x l IH]; intro H; [reflexivity|].
  cbn [Control.beforeThrow]. rewrite (H x) by now left.
  f_equal. apply IH. intros y Hy. apply H. now right.
Qed.

Lemma beforeThrow_In {A : Type} (throws : A -> bool) (l : list A) (x : A) :
  In x (Control.beforeThrow throws l) -> In x l.
Proof.
  destruct (beforeThrow_prefix throws l) as (rest & Hl & _).
  intro H. rewrite Hl. apply in_or_app. now left.
Qed.

Lemma beforeThrow_length {A : Type} (throws : A -> bool) (l : list A) :
  Nat.le (List.length (Control.beforeThrow throws l)) (List.length l).
Proof.
  induction l as [|x l IH]; cbn [Control.beforeThrow]; [auto|].
  destruct (throws x); cbn [List.length]; lia.
Qed.


Lemma pushNew_NoDup (l : list string) (h : string) : NoDup l -> NoDup (pushNew l h).
Proof.
  intro Hnd. unfold pushNew. destruct (arrayIncludes h l) eqn:E; [assumption|].
  apply NoDup_app; [assumption | repeat constructor; intros [] |].
  intros x Hx [<-|[]]. apply arrayIncludes_In in Hx. congruence.
Qed.

Lemma pushNew_length (l : list string) (h : string) :
  Nat.le (List.length (pushNew l h)) (S (List.length l)).
Proof.
  unfold pushNew. destruct (arrayIncludes h l); [lia|].
  rewrite length_app. cbn. lia.
Qed.

Lemma pushNew_In (l : list string) (h : string) : In h (pushNew l h).
Proof.
  unfold pushNew. destruct (arrayIncludes h l) eqn:E.
  - now apply arrayIncludes_In.
  - apply in_or_app. right. now left.
Qed.

Lemma NoDup_app_disjoint {A : Type} (l1 l2 : list A) (x : A) :
  NoDup (l1 ++ l2) -> In x l1 -> In x l2 -> False.
Proof.
  induction l1 as [|a l1 IH]; cbn [app In]; intros Hnd H1 H2; [contradiction|].
  inversion Hnd as [|? ? Hnotin Hnd']; subst.
  destruct H1 as [->|H1].
  - apply Hnotin, in_or_app. now right.
  - now apply IH.
Qed.

(** Deleting from a set its first [n] elements leaves the others. *)
Lemma evict_oldest (n : nat) (l : list string) :
  NoDup l ->
  filter (fun h => negb (arrayIncludes h (firstn n l))) l = skipn n l.
Proof.
  intro Hnd0.
  assert (Hnd : NoDup (firstn n l ++ skipn n l)) by now rewrite firstn_skipn.
  assert (Hgoal : filter (fun h => negb (arrayIncludes h (firstn n l)))
                         (firstn n l ++ skipn n l)
                  = skipn n l);
    [|now rewrite firstn_skipn in Hgoal].
  rewrite filter_app.
  assert (H1 : filter (fun h => negb (arrayIncludes h (firstn n l))) (firstn n l) = []).
  { assert (G : forall m, (forall x, In x m -> In x (firstn n l)) ->
                          filter (fun h => negb (arrayIncludes h (firstn n l))) m = []).
    { induction m as [|a m IH]; intro H; [reflexivity|]. cbn [filter].
      assert (Ha : arrayIncludes a (firstn n l) = true)
        by (apply arrayIncludes_In, H; now left).
      rewrite Ha. cbn [negb]. apply IH. intros x Hx. apply H. now right. }
    apply G. auto. }
  assert (H2 : filter (fun h => negb (arrayIncludes h (firstn n l))) (skipn n l)
               = skipn n l).
  { assert (G : forall m, (forall x, In x m -> ~ In x (firstn n l)) ->
                          filter (fun h => negb (arrayIncludes h (firstn n l))) m = m).
    { induction m as [|a m IH]; intro H; [reflexivity|]. cbn [filter].
      destruct (arrayIncludes a (firstn n l)) eqn:Ha.
      - apply arrayIncludes_In in Ha. exfalso. apply (H a); [now left | assumption].
      - cbn [negb]. f_equal. apply IH. intros x Hx. apply H. now right. }
    apply G. intros x Hx Hf.
    exact (NoDup_app_disjoint _ _ x Hnd Hf Hx). }
  now rewrite H1, H2.
Qed.

Lemma postAndRemember_posted (feed : Feed) (cast : Cast) :
  NoDup (postedCastHashes feed) ->
  postedCastHashes (postAndRemember feed cast)
  = if Nat.ltb 1000 (List.length (pushNew (postedCastHashes feed) (hash cast)))
    then skipn 500 (pushNew (postedCastHashes feed) (hash cast))
    else pushNew (postedCastHashes feed) (hash cast).
Proof.
  intro Hnd. unfold postAndRemember. cbn [postedCastHashes].
  destruct (Nat.ltb 1000 (List.length (pushNew (postedCastHashes feed) (hash cast))));
    [|reflexivity].
  apply evict_oldest. now apply pushNew_NoDup.
Qed.

Lemma postAndRemember_bounded_NoDup (feed : Feed) (cast : Cast) :
  NoDup (postedCastHashes feed) -> NoDup (postedCastHashes (postAndRemember feed cast)).
Proof.
  intro Hnd. rewrite postAndRemember_posted by assumption.
  pose proof (pushNew_NoDup _ (hash cast) Hnd) as Hnd1.
  destruct (Nat.ltb 1000 (List.length (pushNew (postedCastHashes feed) (hash cast))));
    [|assumption].
  rewrite <- (firstn_skipn 500) in Hnd1. now apply NoDup_app_remove_l in Hnd1.
Qed.

Lemma postAndRemember_bounded (feed : Feed) (cast : Cast) :
  NoDup (postedCastHashes feed) ->
  Nat.le (List.length (postedCastHashes feed)) 1000 ->
  NoDup (postedCastHashes (postAndRemember feed cast))
  /\ Nat.le (List.length (postedCastHashes (postAndRemember feed cast))) 1000.
Proof.
  intros Hnd Hlen. rewrite postAndRemember_posted by assumption.
  pose proof (pushNew_NoDup _ (hash cast) Hnd) as Hnd1.
  pose proof (pushNew_length (postedCastHashes feed) (hash cast)) as Hlen1.
  destruct (Nat.ltb_spec 1000 (List.length (pushNew (postedCastHashes feed) (hash cast)))).
  - split.
    + rewrite <- (firstn_skipn 500) in Hnd1. now apply NoDup_app_remove_l in Hnd1.
    + rewrite length_skipn. lia.
  - split; [assumption | lia].
Qed.

Lemma loop_bounded (l : list Cast) (feed : Feed) :
  NoDup (postedCastHashes feed) ->
  Nat.le (List.length (postedCastHashes feed)) 1000 ->
  NoDup (postedCastHashes (fold_left postAndRemember l feed))
  /\ Nat.le (List.length (postedCastHashes (fold_left postAndRemember l feed))) 1000.
Proof.
  revert feed. induction l as [|c l IH]; intros feed Hnd Hlen; [now split|].
  cbn [fold_left]. destruct (postAndRemember_bounded feed c Hnd Hlen). now apply IH.
Qed.

Lemma loop_sent (l : list Cast) (feed : Feed) :
  sent (fold_left postAndRemember l feed) = sent feed ++ map postCast l.
Proof.
  revert feed. induction l as [|c l IH]; intro feed; cbn [fold_left map].
  - now rewrite app_nil_r.
  - rewrite IH. unfold postAndRemember. cbn [sent]. now rewrite <- app_assoc.
Qed.

Lemma newCasts_In (feed : Feed) (casts : list Cast) (cast : Cast) :
  In cast (newCasts feed casts)
  <-> In cast casts
      /\ ~ In (hash cast) (postedCastHashes feed)
      /\ truthyOpt (parent_hash cast) = false.
Proof.
  unfold newCasts. rewrite filter_In.
  destruct (arrayIncludes (hash cast) (postedCastHashes feed)) eqn:E.
  - apply arrayIncludes_In in E. split; [intros [_ H]; discriminate | tauto].
  - assert (Hn : ~ In (hash cast) (postedCastHashes feed)).
    { intro H. apply arrayIncludes_In in H. congruence. }
    destruct (truthyOpt (parent_hash cast)); split; try tauto.
    + intros [_ H]. discriminate.
    + intros (_ & _ & H). discriminate.
Qed.

Lemma checkForNewCasts_loop (tracked : list Z) (refused : Cast -> bool)
    (casts : list Cast) (feed : Feed) :
  tracked <> [] ->
  checkForNewCasts true tracked refused casts feed
  = fold_left postAndRemember (castsPosted refused casts feed) feed.
Proof.
  intro Hne. unfold checkForNewCasts, castsPosted.
  destruct tracked; [contradiction|]. cbn [negb orb List.length Nat.eqb].
  apply forEachUntilThrow_beforeThrow. reflexivity.
Qed.

Lemma embedThrows_no_text (refused : Cast -> bool) (cast : Cast) :
  embedThrows refused cast = false -> text cast <> "".
Proof.
  unfold embedThrows. intros H E. rewrite E in H. discriminate.
Qed.

(** After the turns the set holds no hash but those it held and those of
    the casts handled. *)
Lemma loop_hashes (l : list Cast) (feed : Feed) (h : string) :
  In h (postedCastHashes (fold_left postAndRemember l feed)) ->
  In h (postedCastHashes feed) \/ In h (map hash l).
Proof.
  revert feed. induction l as [|c l IH]; intros feed H; [now left|].
  cbn [fold_left] in H. apply IH in H. cbn [map In].
  destruct H as [H|H]; [|tauto].
  assert (Hp : In h (pushNew (postedCastHashes feed) (hash c))).
  { unfold postAndRemember in H. cbn [postedCastHashes] in H.
    destruct (Nat.ltb 1000 _); [|assumption].
    apply filter_In in H. tauto. }
  unfold pushNew in Hp. destruct (arrayIncludes (hash c) (postedCastHashes feed)).
  - now left.
  - apply in_app_or in Hp. destruct Hp as [Hp|[<-|[]]]; tauto.
Qed.

(** The hashes of the casts handled last sit at the end of the set, out
    of reach of the eviction, as long as they are at most 500. *)
Lemma loop_remembers (l : list Cast) (old recent : list string) (log : list Post) :
  NoDup (old ++ recent) ->
  (forall c, In c l -> ~ In (hash c) old) ->
  Nat.le (List.length recent + List.length l) 500 ->
  exists old' recent',
    postedCastHashes (fold_left postAndRemember l {| postedCastHashes := old ++ recent;
                                             sent := log |})
    = old' ++ recent'
    /\ (forall h, In h recent -> In h recent')
    /\ (forall c, In c l -> In (hash c) recent').
Proof.
  revert old recent log.
  induction l as [|c l IH]; intros old recent log Hnd Hfresh Hlen.
  - exists old, recent. cbn. repeat split; auto. intros c [].
  - cbn [fold_left]. cbn [List.length] in Hlen.
    set (feed := {| postedCastHashes := old ++ recent; sent := log |}).
    assert (Hpost : postedCastHashes (postAndRemember feed c)
                    = if Nat.ltb 1000 (List.length (pushNew (old ++ recent) (hash c)))
                      then skipn 500 (pushNew (old ++ recent) (hash c))
                      else pushNew (old ++ recent) (hash c))
      by (now apply postAndRemember_posted).
    assert (Hc : ~ In (hash c) old) by (apply Hfresh; now left).
    (* the set after the add, as [old ++ recent1] *)
    assert (Hpush : exists recent1,
               pushNew (old ++ recent) (hash c) = old ++ recent1
               /\ (forall h, In h recent -> In h recent1)
               /\ In (hash c) recent1
               /\ Nat.le (List.length recent1) (S (List.length recent))).
    { unfold pushNew. destruct (arrayIncludes (hash c) (old ++ recent)) eqn:E.
      - apply arrayIncludes_In, in_app_or in E. destruct E as [E|E]; [contradiction|].
        exists recent. repeat split; auto.
      - exists (recent ++ [hash c]). rewrite app_assoc. repeat split.
        + intros h Hh. apply in_or_app. now left.
        + apply in_or_app. right. now left.
        + rewrite length_app. cbn. lia. }
    destruct Hpush as (recent1 & Hpush & Hkeep & Hin & Hlen1).
    assert (Hnd1 : NoDup (old ++ recent1)).
    { rewrite <- Hpush. now apply pushNew_NoDup. }
    rewrite Hpush in Hpost.
    (* the set after the eviction, as [old1 ++ recent1] *)
    assert (Hev : exists old1,
               postedCastHashes (postAndRemember feed c) = old1 ++ recent1
               /\ (forall h, In h old1 -> In h old)).
    { destruct (Nat.ltb_spec 1000 (List.length (old ++ recent1))) as [Hbig|Hsmall].
      - exists (skipn 500 old). split.
        + rewrite Hpost, skipn_app.
          rewrite length_app in Hbig.
          replace (500 - List.length old)%nat with 0%nat by lia.
          reflexivity.
        + intros h Hh. rewrite <- (firstn_skipn 500 old). apply in_or_app. now right.
      - exists old. split; [exact Hpost | auto]. }
    destruct Hev as (old1 & Hev & Hsub).
    assert (Hnd2 : NoDup (old1 ++ recent1)).
    { rewrite <- Hev. apply postAndRemember_bounded_NoDup. exact Hnd. }
    destruct (IH old1 recent1 (sent (postAndRemember feed c))) as (old' & recent' & Hfin & Hk & Hl).
    + exact Hnd2.
    + intros c' Hc' Hold. apply (Hfresh c'); [now right | now apply Hsub].
    + lia.
    + exists old', recent'.
      replace (postAndRemember feed c)
        with {| postedCastHashes := old1 ++ recent1; sent := sent (postAndRemember feed c) |}
        by (rewrite <- Hev; now destruct (postAndRemember feed c)).
      split; [exact Hfin|]. split.
      * intros h Hh. apply Hk, Hkeep, Hh.
      * intros c' [<-|Hc']; [now apply Hk | now apply Hl].
Qed.

(** X23.  [checkForNewCasts] takes as new the casts of the response that
    are not replies and whose hash is not in the set of posted hashes, and
    posts them in the reverse order of the response up to the first one for
    which [postCast] throws: that cast and those after it are not sent.  A
    cast without text is never sent; when no new cast throws, all are sent.
    Nothing at all is sent without a channel or tracked FIDs.  The set of
    posted hashes stays a set of at most 1000 hashes. *)
Theorem checkForNewCasts_posts (channel : bool) (tracked : list Z)
    (refused : Cast -> bool) (casts : list Cast) (feed : Feed) :
  let feed' := checkForNewCasts channel tracked refused casts feed in
  let posted := castsPosted refused casts feed in
  (channel = false \/ tracked = [] -> feed' = feed)
  /\ (channel = true -> tracked <> [] ->
      sent feed' = sent feed ++ map postCast posted)
  /\ (exists rest,
        rev (newCasts feed casts) = posted ++ rest
        /\ (forall cast, In cast posted ->
              embedThrows refused cast = false /\ text cast <> "")
        /\ (rest = [] \/ exists cast rest',
                            rest = cast :: rest' /\ embedThrows refused cast = true)
        /\ ((forall cast, In cast (newCasts feed casts) ->
                          embedThrows refused cast = false) -> rest = []))
  /\ (forall cast,
        In cast (newCasts feed casts)
        <-> In cast casts
            /\ ~ In (hash cast) (postedCastHashes feed)
            /\ truthyOpt (parent_hash cast) = false)
  /\ (NoDup (postedCastHashes feed) ->
      Nat.le (List.length (postedCastHashes feed)) 1000 ->
      NoDup (postedCastHashes feed')
      /\ Nat.le (List.length (postedCastHashes feed')) 1000).
Proof.
  intros feed' posted. unfold feed', posted.
  split; [|split; [|split; [|split]]].
  - unfold checkForNewCasts. intros [-> | ->]; [reflexivity|]. now rewrite orb_true_r.
  - intros -> Hne. rewrite checkForNewCasts_loop by assumption. apply loop_sent.
  - unfold castsPosted.
    destruct (beforeThrow_prefix (embedThrows refused) (rev (newCasts feed casts)))
      as (rest & Hl & Hok & Hrest).
    exists rest. split; [exact Hl|]. split; [|split; [exact Hrest|]].
    + intros cast Hcast. split; [now apply Hok|].
      apply (embedThrows_no_text refused). now apply Hok.
    + intro Hall. destruct Hrest as [Hnil|(x & rest' & Hx & Hthrows)]; [exact Hnil|].
      assert (Hin : In x (rev (newCasts feed casts))).
      { rewrite Hl, Hx. apply in_or_app. right. now left. }
      apply in_rev, Hall in Hin. congruence.
  - intro cast. apply newCasts_In.
  - intros Hnd Hlen. unfold checkForNewCasts.
    destruct (negb channel || Nat.eqb (List.length tracked) 0); [now split|].
    rewrite (forEachUntilThrow_beforeThrow (postOne refused) (embedThrows refused)
               postAndRemember) by reflexivity.
    now apply loop_bounded.
Qed.

(** A new cast is posted and a reply to it is not; an older cast without
    text ends the run before anything is sent. *)
Lemma checkForNewCasts_posts_witness :
  sent (checkForNewCasts true [42] Casts.lenient [Casts.reply; Casts.picture]
          Casts.emptyFeed)
  = [postCast Casts.picture]
  /\ sent (checkForNewCasts true [42] Casts.lenient [Casts.picture; Casts.silent]
             Casts.emptyFeed)
     = []
  /\ NoDup (postedCastHashes
              (checkForNewCasts true [42] Casts.lenient [Casts.reply; Casts.picture]
                 Casts.emptyFeed)).
Proof.
  split; [|split].
  - apply (proj1 (proj2 (checkForNewCasts_posts true [42] Casts.lenient
                           [Casts.reply; Casts.picture] Casts.emptyFeed)));
      [reflexivity | discriminate].
  - apply (proj1 (proj2 (checkForNewCasts_posts true [42] Casts.lenient
                           [Casts.picture; Casts.silent] Casts.emptyFeed)));
      [reflexivity | discriminate].
  - apply (proj2 (proj2 (proj2 (proj2 (checkForNewCasts_posts true [42] Casts.lenient
                                  [Casts.reply; Casts.picture] Casts.emptyFeed))))).
    + constructor.
    + cbn. repeat constructor.
Defined.

(** X24.  A cast posted by [checkForNewCasts] is not posted again by the
    next run: when the response brings at most 500 new casts, the hash of
    each cast the run posted is in the set of posted hashes after the run
    (the eviction of the 500 oldest hashes cannot reach it), so the next run
    does not take that cast for a new one, whatever the response.  A new cast
    the run did not post, because [postCast] threw for it or for one before
    it, is not remembered (unless a posted cast has its hash): the same
    response gives it as new again. *)
Theorem posted_casts_remembered (channel : bool) (tracked : list Z)
    (refused : Cast -> bool) (casts : list Cast) (feed : Feed) :
  channel = true ->
  tracked <> [] ->
  NoDup (postedCastHashes feed) ->
  Nat.le (List.length (newCasts feed casts)) 500 ->
  let feed' := checkForNewCasts channel tracked refused casts feed in
  let posted := castsPosted refused casts feed in
  (forall cast,
     In cast posted ->
     In cast (newCasts feed casts)
     /\ In (hash cast) (postedCastHashes feed')
     /\ forall casts', ~ In cast (newCasts feed' casts'))
  /\ (forall cast,
        In cast (newCasts feed casts) ->
        ~ In (hash cast) (map hash posted) ->
        ~ In (hash cast) (postedCastHashes feed')
        /\ In cast (newCasts feed' casts)).
Proof.
  intros -> Hne Hnd Hlen feed' posted. unfold feed', posted.
  rewrite checkForNewCasts_loop by assumption.
  split.
  - intros cast Hcast.
    assert (Hnew : In cast (newCasts feed casts)).
    { unfold castsPosted in Hcast. apply beforeThrow_In in Hcast. now apply in_rev. }
    assert (Hin : In (hash cast)
                     (postedCastHashes
                        (fold_left postAndRemember (castsPosted refused casts feed) feed))).
    { destruct (loop_remembers (castsPosted refused casts feed) (postedCastHashes feed) []
                               (sent feed))
        as (old' & recent' & Hfin & _ & Hl).
      - now rewrite app_nil_r.
      - intros c Hc. unfold castsPosted in Hc. apply beforeThrow_In in Hc.
        apply in_rev, newCasts_In in Hc. tauto.
      - pose proof (beforeThrow_length (embedThrows refused) (rev (newCasts feed casts)))
          as Hpre.
        rewrite length_rev in Hpre. unfold castsPosted. cbn [List.length]. lia.
      - rewrite app_nil_r in Hfin.
        replace {| postedCastHashes := postedCastHashes feed; sent := sent feed |}
          with feed in Hfin by (now destruct feed).
        rewrite Hfin. apply in_or_app. right. now apply Hl. }
    split; [exact Hnew|]. split; [exact Hin|].
    intros casts' Hagain. apply newCasts_In in Hagain. tauto.
  - intros cast Hnew Hother.
    assert (Hout : ~ In (hash cast)
                        (postedCastHashes
                           (fold_left postAndRemember (castsPosted refused casts feed)
                                      feed))).
    { intro Hin. apply loop_hashes in Hin. destruct Hin as [Hin|Hin]; [|tauto].
      apply newCasts_In in Hnew. tauto. }
    split; [exact Hout|].
    apply newCasts_In. apply newCasts_In in Hnew. tauto.
Qed.

(** The picture posted is remembered; after a run that the cast without
    text ended, both casts are new again. *)
Lemma posted_casts_remembered_witness :
  In (hash Casts.picture)
     (postedCastHashes
        (checkForNewCasts true [42] Casts.lenient [Casts.reply; Casts.picture]
           Casts.emptyFeed))
  /\ In Casts.picture
       (newCasts (checkForNewCasts true [42] Casts.lenient [Casts.picture; Casts.silent]
                    Casts.emptyFeed)
                 [Casts.picture; Casts.silent]).
Proof.
  split.
  - refine (proj1 (proj2 (proj1 (posted_casts_remembered true [42] Casts.lenient
                     [Casts.reply; Casts.picture] Casts.emptyFeed eq_refl _ _ _)
                     Casts.picture _))).
    + discriminate.
    + constructor.
    + cbn. repeat constructor.
    + vm_compute. auto.
  - refine (proj2 (proj2 (posted_casts_remembered true [42] Casts.lenient
                     [Casts.picture; Casts.silent] Casts.emptyFeed eq_refl _ _ _)
                     Casts.picture _ _)).
    + discriminate.
    + constructor.
    + cbn. repeat constructor.
    + vm_compute. auto.
    + vm_compute. tauto.
Defined.

End Feed.

(** ** The sales feed *)

Section SalesFeed.

Import SalesBot.

Lemma mathMax_ge (x : Z) (rest : list Z) :
  x <= mathMax x rest /\ (forall y, In y rest -> y <= mathMax x rest).
Proof.
  unfold mathMax. revert x. induction rest as [|a rest IH]; intro x; cbn [fold_left].
  - split; [lia | intros y []].
  - destruct (IH (Z.max x a)) as [H1 H2]. split; [lia|].
    intros y [<-|Hy]; [lia | now apply H2].
Qed.

Lemma mathMax_attained (x : Z) (rest : list Z) : In (mathMax x rest) (x :: rest).
Proof.
  unfold mathMax. revert x. induction rest as [|a rest IH]; intro x; cbn [fold_left].
  - now left.
  - destruct (IH (Z.max x a)) as [H|H].
    + rewrite <- H. destruct (Z.max_spec x a) as [[_ E]|[_ E]]; rewrite E.
      * right. now left.
      * now left.
    + right. now right.
Qed.

Lemma StronglySorted_app {A : Type} (R : A -> A -> Prop) (l1 l2 : list A) :
  StronglySorted R l1 -> StronglySorted R l2 ->
  (forall x y, In x l1 -> In y l2 -> R x y) ->
  StronglySorted R (l1 ++ l2).
Proof.
  induction l1 as [|a l1 IH]; intros H1 H2 Hcross; [assumption|].
  cbn [app]. inversion H1 as [|? ? Hs Hall]; subst. constructor.
  - apply IH; auto. intros x y Hx Hy. apply Hcross; [now right | assumption].
  - apply Forall_app. split; [assumption|].
    apply Forall_forall. intros y Hy. apply Hcross; [now left | assumption].
Qed.

Lemma StronglySorted_rev {A : Type} (R : A -> A -> Prop) (l : list A) :
  StronglySorted R l -> StronglySorted (fun a b => R b a) (rev l).
Proof.
  induction 1 as [|a l Hs IH Hall]; cbn [rev]; [constructor|].
  apply StronglySorted_app; [assumption | repeat constructor |].
  intros x y Hx [<-|[]]. rewrite Forall_forall in Hall. apply Hall. now apply in_rev.
Qed.

Lemma StronglySorted_prefix {A : Type} (R : A -> A -> Prop) (l1 l2 : list A) :
  StronglySorted R (l1 ++ l2) -> StronglySorted R l1.
Proof.
  induction l1 as [|a l1 IH]; cbn [app]; intro H; [constructor|].
  inversion H as [|? ? Hs Hall]; subst. constructor; [now apply IH|].
  apply Forall_app in Hall. tauto.
Qed.

Lemma postSale_loop (refused : Sale -> bool) (l : list Sale) (log : list Sale) :
  Control.forEachUntilThrow (postSale refused) l log
  = log ++ Control.beforeThrow refused l.
Proof.
  revert log. induction l as [|x l IH]; intro log;
    cbn [Control.forEachUntilThrow Control.beforeThrow].
  - now rewrite app_nil_r.
  - unfold postSale at 1. destruct (refused x); [now rewrite app_nil_r|].
    rewrite IH, <- app_assoc. reflexivity.
Qed.

(** X25.  [checkForNewSales] with a non-empty answer moves the time of the
    last check one second past the latest sale of the answer, so that every
    sale of the answer lies before it, and posts the sales in the reverse
    order of the answer up to the first one for which [postSale] throws:
    that sale and those after it are not posted, although the time of the
    last check has passed them.  When the answer comes newest first, the
    sales posted are oldest first.  With an empty answer, or without a
    channel, nothing changes. *)
Theorem checkForNewSales_advances (channel : bool) (refused : Sale -> bool)
    (sales : list Sale) (st : Sales) :
  let st' := checkForNewSales channel refused sales st in
  let done := salesPosted refused sales in
  (channel = false \/ sales = [] -> st' = st)
  /\ (channel = true -> sales <> [] ->
      posted st' = posted st ++ done
      /\ (forall sale, In sale sales -> timestamp sale < lastCheckedTimestamp st')
      /\ exists latest, In latest sales
                        /\ lastCheckedTimestamp st' = timestamp latest + 1)
  /\ (exists rest,
        rev sales = done ++ rest
        /\ (forall sale, In sale done -> refused sale = false)
        /\ (rest = [] \/ exists sale rest', rest = sale :: rest' /\ refused sale = true)
        /\ ((forall sale, In sale sales -> refused sale = false) -> rest = []))
  /\ (StronglySorted (fun a b => timestamp b <= timestamp a) sales ->
      StronglySorted (fun a b => timestamp a <= timestamp b) done).
Proof.
  intros st' done. unfold st', done, checkForNewSales, salesPosted.
  destruct (beforeThrow_prefix refused (rev sales)) as (rest & Hl & Hok & Hrest).
  split; [|split; [|split]].
  - intros [-> | ->]; [reflexivity|]. now destruct channel.
  - intros -> Hne. cbn [negb].
    destruct sales as [|s sales]; [contradiction|]. cbn [map].
    cbn [posted lastCheckedTimestamp].
    destruct (mathMax_ge (timestamp s) (map timestamp sales)) as [H1 H2].
    split; [apply postSale_loop|]. split.
    + intros sale [<-|Hs]; [lia|].
      specialize (H2 (timestamp sale) (in_map timestamp _ _ Hs)). lia.
    + pose proof (mathMax_attained (timestamp s) (map timestamp sales)) as Hatt.
      change (timestamp s :: map timestamp sales) with (map timestamp (s :: sales)) in Hatt.
      apply in_map_iff in Hatt. destruct Hatt as [latest [E Hin]].
      exists latest. split; [assumption | now rewrite E].
  - exists rest. split; [exact Hl|]. split; [exact Hok|]. split; [exact Hrest|].
    intro Hall. destruct Hrest as [Hnil|(x & rest' & Hx & Hthrows)]; [exact Hnil|].
    assert (Hin : In x (rev sales)).
    { rewrite Hl, Hx. apply in_or_app. right. now left. }
    apply in_rev, Hall in Hin. congruence.
  - intro Hsorted. apply StronglySorted_rev in Hsorted.
    rewrite Hl in Hsorted. now apply StronglySorted_prefix in Hsorted.
Qed.

(** Two sales, the later one first in the answer: both are posted, the
    earlier one first.  When the embed of the earlier one cannot be built
    nothing is posted, and the later sale lies before the time of the last
    check all the same. *)
Lemma checkForNewSales_advances_witness :
  posted (checkForNewSales true Sold.lenient [Sold.later; Sold.earlier] Sold.start)
  = [Sold.earlier; Sold.later]
  /\ posted (checkForNewSales true Sold.brokenEarlier [Sold.later; Sold.earlier]
               Sold.start)
     = []
  /\ timestamp Sold.later
     < lastCheckedTimestamp
         (checkForNewSales true Sold.brokenEarlier [Sold.later; Sold.earlier] Sold.start)
  /\ StronglySorted (fun a b => timestamp a <= timestamp b)
       (salesPosted Sold.lenient [Sold.later; Sold.earlier]).
Proof.
  split; [|split; [|split]].
  - apply (proj1 (proj2 (checkForNewSales_advances true Sold.lenient
                           [Sold.later; Sold.earlier] Sold.start)));
      [reflexivity | discriminate].
  - apply (proj1 (proj2 (checkForNewSales_advances true Sold.brokenEarlier
                           [Sold.later; Sold.earlier] Sold.start)));
      [reflexivity | discriminate].
  - destruct (proj1 (proj2 (checkForNewSales_advances true Sold.brokenEarlier
                              [Sold.later; Sold.earlier] Sold.start))
                    eq_refl) as (_ & Hbefore & _).
    + discriminate.
    + apply Hbefore. now left.
  - apply (proj2 (proj2 (proj2 (checkForNewSales_advances true Sold.lenient
                                  [Sold.later; Sold.earlier] Sold.start)))).
    repeat constructor. cbn. lia.
Defined.

End SalesFeed.

(** ** Wallet-only verification *)

Section WalletOnlyFlow.

Import Js Supabase Server WalletOnly.

Lemma filter_wallet_session_absent (sessionId : string)
    (table : list WalletPendingVerification) :
  (forall p, In p table -> session_id p <> sessionId) ->
  filter (fun p => session_id p =? sessionId)%string table = [].
Proof.
  induction table as [|a l IH]; intro H; [reflexivity|].
  cbn [filter]. destruct (String.eqb_spec (session_id a) sessionId) as [E|N].
  - exfalso. apply (H a); [now left | assumption].
  - apply IH. intros p Hp. apply H. now right.
Qed.

Lemma map_wallet_session_absent (sessionId : string)
    (g : WalletPendingVerification -> WalletPendingVerification)
    (table : list WalletPendingVerification) :
  (forall p, In p table -> session_id p <> sessionId) ->
  map (fun p => if (session_id p =? sessionId)%string then g p else p) table = table.
Proof.
  induction table as [|a l IH]; intro H; [reflexivity|].
  cbn [map]. destruct (String.eqb_spec (session_id a) sessionId) as [E|N].
  - exfalso. apply (H a); [now left | assumption].
  - f_equal. apply IH. intros p Hp. apply H. now right.
Qed.

(** X26.  The wallet-only session, from nonce to signature.  A session
    stored under a fresh id is read back unverified, without signature, with
    its nonce and its wallet in lowercase; after [markWalletVerified] it is
    read back verified, with the signature given and the same wallet, nonce
    and time.  Marking a session that does not exist changes nothing, and a
    deleted session is not found. *)
Theorem wallet_pending_flow
    (sessionId wallet_ nonce_ signature_ : string) (now_ : Z)
    (table : list WalletPendingVerification) :
  (forall p, In p table -> session_id p <> sessionId) ->
  getWalletPending sessionId (storeWalletPending sessionId wallet_ nonce_ now_ table)
  = Some {| session_id := sessionId; wallet := toLowerCase wallet_; nonce := nonce_;
            signature := None; verified := false; created_at := now_ |}
  /\ getWalletPending sessionId
       (markWalletVerified sessionId signature_
          (storeWalletPending sessionId wallet_ nonce_ now_ table))
     = Some {| session_id := sessionId; wallet := toLowerCase wallet_; nonce := nonce_;
               signature := Some signature_; verified := true; created_at := now_ |}
  /\ markWalletVerified sessionId signature_ table = table
  /\ getWalletPending sessionId
       (deleteWalletPending sessionId
          (storeWalletPending sessionId wallet_ nonce_ now_ table))
     = None.
Proof.
  intro Habsent.
  assert (Hex : existsb (fun p => session_id p =? sessionId)%string table = false).
  { destruct (existsb (fun p => session_id p =? sessionId)%string table) eqn:E;
      [|reflexivity].
    apply existsb_exists in E. destruct E as [p [Hp E]]. apply String.eqb_eq in E.
    exfalso. exact (Habsent p Hp E). }
  unfold getWalletPending, storeWalletPending, markWalletVerified, deleteWalletPending.
  rewrite Hex. repeat split.
  - rewrite filter_app, (filter_wallet_session_absent _ _ Habsent).
    cbn [filter app session_id]. now rewrite String.eqb_refl.
  - rewrite map_app, (map_wallet_session_absent sessionId _ table Habsent).
    rewrite filter_app, (filter_wallet_session_absent _ _ Habsent).
    cbn [map filter app session_id]. rewrite String.eqb_refl.
    cbn [filter session_id]. now rewrite String.eqb_refl.
  - now apply map_wallet_session_absent.
  - rewrite filter_twice.
    replace (filter _ (table ++ _)) with (@nil WalletPendingVerification); [reflexivity|].
    symmetry. generalize (table ++
      [{| session_id := sessionId; wallet := toLowerCase wallet_; nonce := nonce_;
          signature := None; verified := false; created_at := now_ |}]).
    intro l. induction l as [|a l IH]; [reflexivity|]. cbn [filter].
    now destruct (session_id a =? sessionId)%string.
Qed.

Lemma wallet_pending_flow_witness :
  getWalletPending "session-1"
    (markWalletVerified "session-1" "0xsigned"
       (storeWalletPending "session-1" Sample.walletB "nonce-1" 1000 []))
  = Some {| session_id := "session-1"; wallet := Sample.walletB; nonce := "nonce-1";
            signature := Some "0xsigned"; verified := true; created_at := 1000 |}.
Proof.
  apply (proj1 (proj2 (wallet_pending_flow "session-1" Sample.walletB "nonce-1"
                         "0xsigned" 1000 []
                         (fun p (H : In p []) => match H with end)))).
Defined.

(** X27.  [storeWalletOnlyVerification] is [storeVerification] with FID 0.
    Since FID 0 is never looked up, it keeps the verifications unique (one
    row per Discord id, per positive FID and per wallet) as soon as the
    wallet is not linked to another account: the wallet check alone is
    enough. *)
Theorem storeWalletOnlyVerification_unique
    (wallet_ discordId discordUsername : string) (nftBalance now_ : Z) (d : Database) :
  storeWalletOnlyVerification wallet_ discordId discordUsername nftBalance now_ d
  = storeVerification 0 wallet_ discordId discordUsername nftBalance now_ d
  /\ (bindingsUnique (discord_verifications d) ->
      linkedToOther (getVerificationByWallet wallet_ d) discordId = None ->
      bindingsUnique
        (discord_verifications
           (storeWalletOnlyVerification wallet_ discordId discordUsername
              nftBalance now_ d))).
Proof.
  assert (E : storeWalletOnlyVerification wallet_ discordId discordUsername nftBalance now_ d
              = storeVerification 0 wallet_ discordId discordUsername nftBalance now_ d)
    by reflexivity.
  split; [exact E|].
  intros Hinv Hcheck. rewrite E. now apply storeVerification_unique.
Qed.

Lemma storeWalletOnlyVerification_unique_witness :
  bindingsUnique
    (discord_verifications
       (storeWalletOnlyVerification Sample.walletB (id Sample.alice) "alice" 3 1000
          emptyDatabase)).
Proof.
  apply (proj2 (storeWalletOnlyVerification_unique Sample.walletB (id Sample.alice)
                  "alice" 3 1000 emptyDatabase)).
  - repeat split; constructor.
  - reflexivity.
Defined.

End WalletOnlyFlow.

(** * The flow, end to end *)

(** ** The primary wallet that is recorded *)

Section PrimaryWalletRecorded.

Import Js Supabase Server.

(** C2.  The primary holding wallet is the first wallet, in list order,
    whose lookup is positive (the lookup of the empty string, which is no
    address, being taken as never positive): this is what the wallet loop
    gives for every list, and it is the wallet of the row that a callback
    ending in the success page leaves for the authenticated account, the
    list being the candidate wallets of the session.  When every wallet has
    balance zero, failed lookups included, no primary wallet is recorded and
    the callback ends with the "no NFT" page: the session is deleted and the
    table of verifications is left as it was. *)
Theorem primary_wallet_first_positive (env : Env) (wallets : list string) :
  (positiveBalance (rpc env) EmptyString = false ->
   snd (checkWallets (rpc env) wallets) = find (positiveBalance (rpc env)) wallets)
  /\
  (Forall (fun wallet => Blockchain.getProtardioBalance (rpc env) wallet = 0) wallets ->
   snd (checkWallets (rpc env) wallets) = None
   /\ forall code state w pending discordUser,
        truthy code = true ->
        truthy state = true ->
        getPending state (db w) = Some pending ->
        oauth env code = Some discordUser ->
        callbackWallets env pending = wallets ->
        snd (callback env code state w) = NoNFTPage wallets
        /\ discord_verifications (db (fst (callback env code state w)))
           = discord_verifications (db w))
  /\
  (positiveBalance (rpc env) EmptyString = false ->
   forall code state w pending discordUsername balance sybilScore,
     uniqueDiscordIds (discord_verifications (db w)) ->
     getPending state (db w) = Some pending ->
     callbackWallets env pending = wallets ->
     snd (callback env code state w) = SuccessPage discordUsername balance sybilScore ->
     exists discordUser primary,
       oauth env code = Some discordUser
       /\ find (positiveBalance (rpc env)) wallets = Some primary
       /\ getVerificationByDiscord (id discordUser)
            (db (fst (callback env code state w)))
          = Some {| fid := Pending.fid pending; wallet := primary;
                    discord_id := id discordUser;
                    discord_username := username discordUser;
                    nft_balance := balance;
                    verified_at := now env; last_checked := now env |}).
Proof.
  split; [|split].
  - intro Hempty. unfold checkWallets.
    rewrite (walletLoop_holding (rpc env) wallets 0 None Hempty eq_refl).
    now destruct (find (positiveBalance (rpc env)) wallets).
  - intro Hzero. apply find_none_of_zero in Hzero. split.
    + unfold checkWallets. now rewrite (walletLoop_none _ _ _ Hzero).
    + intros code state w pending discordUser Hc Hs Hp Ho HW. subst wallets.
      rewrite (callback_not_holder env code state w pending discordUser Hc Hs Hp Ho Hzero).
      split; reflexivity.
  - intros Hempty code state w pending discordUsername balance sybilScore Hids Hp HW.
    subst wallets.
    pose proof (callback_outcome env code state w) as Hout.
    destruct Hout
      as [| | | | | | |pending0 discordUser totalBalance holding score_ Hp0 Ho Hr Hc];
      cbn [fst snd]; intro Hpage; try discriminate.
    injection Hpage as E1 E2 _. subst discordUsername balance.
    rewrite Hp in Hp0. injection Hp0 as <-.
    destruct (checkWallets_holding _ _ _ _ Hc) as (Hin & _ & _).
    exists discordUser, holding. split; [exact Ho|]. split.
    + pose proof (walletLoop_holding (rpc env) (callbackWallets env pending) 0 None
                    Hempty eq_refl) as Hfind.
      unfold checkWallets in Hc. rewrite Hc in Hfind. cbn [snd] in Hfind.
      destruct (find (positiveBalance (rpc env)) (callbackWallets env pending));
        congruence.
    + cbn [db].
      rewrite getVerificationByDiscord_deletePending, storeVerification_found
        by assumption.
      now rewrite (callbackWallets_lowercase env pending holding Hin).
Qed.

(** The scenario of the specification: [walletA] with balance 0 and
    [walletB] with balance 3 give [walletB] as primary wallet, and the
    callback of a session whose candidates are [walletA], [walletB] and
    [walletC] records [walletB], with the balance 5 of the three; where
    nobody holds anything there is no primary wallet, and the callback of
    such a session ends with the "no NFT" page and no verification. *)
Lemma primary_wallet_first_positive_witness :
  snd (checkWallets Sample.rpcAB [Sample.walletA; Sample.walletB; Sample.walletC])
  = Some Sample.walletB
  /\ snd (checkWallets Sample.rpcNone [Sample.walletA]) = None
  /\ snd (callback (Sample.envFor Sample.alice Sample.rpcNone true 2000)
                   "code-1" "session-1" Scenario.nonHolderWaiting)
     = NoNFTPage [Sample.walletA]
  /\ discord_verifications
       (db (fst (callback (Sample.envFor Sample.alice Sample.rpcNone true 2000)
                          "code-1" "session-1" Scenario.nonHolderWaiting)))
     = []
  /\ getVerificationByDiscord (id Sample.alice)
       (db (fst (callback Primary.env "code-1" "session-1" Primary.waiting)))
     = Some {| fid := 42; wallet := Sample.walletB;
               discord_id := id Sample.alice;
               discord_username := username Sample.alice;
               nft_balance := 5;
               verified_at := 2000; last_checked := 2000 |}.
Proof.
  split.
  - exact (proj1 (primary_wallet_first_positive
                    (Sample.envFor Sample.alice Sample.rpcAB true 0)
                    [Sample.walletA; Sample.walletB; Sample.walletC])
                 eq_refl).
  - assert (Hzero : Forall (fun wallet =>
                              Blockchain.getProtardioBalance Sample.rpcNone wallet = 0)
                           [Sample.walletA])
      by (repeat constructor).
    destruct (proj1 (proj2 (primary_wallet_first_positive
                       (Sample.envFor Sample.alice Sample.rpcNone true 2000)
                       [Sample.walletA])) Hzero) as [Hnone Hflow].
    split; [exact Hnone|].
    split; [|split].
    + exact (proj1 (Hflow "code-1" "session-1" Scenario.nonHolderWaiting
                 (Scenario.pendingOf Scenario.nonHolderWaiting "session-1")
                 Sample.alice eq_refl eq_refl eq_refl eq_refl eq_refl)).
    + exact (proj2 (Hflow "code-1" "session-1" Scenario.nonHolderWaiting
                 (Scenario.pendingOf Scenario.nonHolderWaiting "session-1")
                 Sample.alice eq_refl eq_refl eq_refl eq_refl eq_refl)).
    + assert (Hids : uniqueDiscordIds (discord_verifications (db Primary.waiting)))
        by (unfold uniqueDiscordIds, uniqueBy; cbn; constructor).
      destruct (proj2 (proj2 (primary_wallet_first_positive Primary.env
                                [Sample.walletA; Sample.walletB; Sample.walletC]))
                      eq_refl "code-1" "session-1" Primary.waiting
                      (Scenario.pendingOf Primary.waiting "session-1") "alice" 5 15
                      Hids eq_refl eq_refl eq_refl)
        as (discordUser & primary & Ho & Hfind & Hrow).
      injection Ho as <-. injection Hfind as <-. exact Hrow.
Defined.

End PrimaryWalletRecorded.

(** ** A session that was deleted stays away *)

Section LaterHistories.

Import Js Supabase Server.

(** The table holds no session under this id. *)
Lemma session_absent_deleted (sessionId : string) (d : Database) :
  filter (fun p => Pending.session_id p =? sessionId)%string
         (discord_pending_verifications (deletePending sessionId d))
  = [].
Proof.
  unfold deletePending. cbn [withPending discord_pending_verifications].
  rewrite filter_twice.
  induction (discord_pending_verifications d) as [|p l IH]; [reflexivity|].
  cbn [filter]. now destruct (Pending.session_id p =? sessionId)%string.
Qed.

Lemma filter_of_filter_nil {A : Type} (f g : A -> bool) (l : list A) :
  filter f l = [] -> filter f (filter g l) = [].
Proof.
  induction l as [|a l IH]; cbn [filter]; intro H; [reflexivity|].
  destruct (f a) eqn:Hf; [discriminate|].
  destruct (g a); cbn [filter]; [rewrite Hf|]; now apply IH.
Qed.

Lemma serve_session_absent (sessionId : string) (w : World) (step : Env * Request) :
  opens sessionId (snd step) = false ->
  filter (fun p => Pending.session_id p =? sessionId)%string
         (discord_pending_verifications (db w)) = [] ->
  filter (fun p => Pending.session_id p =? sessionId)%string
         (discord_pending_verifications (db (serve w step))) = [].
Proof.
  destruct step as [env [other fid_ wallet_|code state| |]];
    cbn [serve snd opens]; intros Hopens Habsent.
  - unfold authDiscord. cbn [db]. rewrite storePending_other_session; [assumption|].
    intro E. subst. now rewrite String.eqb_refl in Hopens.
  - destruct (callback_outcome env code state w);
      cbn [fst db deletePending withPending discord_pending_verifications];
      try assumption; try (now apply filter_of_filter_nil).
    apply filter_of_filter_nil. now rewrite storeVerification_pending.
  - now rewrite reverify_pending.
  - unfold cleanup, cleanupOldPending.
    cbn [fst db withPending discord_pending_verifications].
    now apply filter_of_filter_nil.
Qed.

Lemma run_session_absent (sessionId : string) (later : list (Env * Request)) (w : World) :
  neverOpens sessionId later = true ->
  filter (fun p => Pending.session_id p =? sessionId)%string
         (discord_pending_verifications (db w)) = [] ->
  filter (fun p => Pending.session_id p =? sessionId)%string
         (discord_pending_verifications (db (run later w))) = [].
Proof.
  revert w. induction later as [|step later IH]; intros w Hnever Habsent; [assumption|].
  cbn [neverOpens forallb] in Hnever. apply andb_prop in Hnever.
  destruct Hnever as [Hstep Hlater].
  cbn [run fold_left]. apply IH; [exact Hlater|].
  apply serve_session_absent; [|assumption].
  now destruct (opens sessionId (snd step)).
Qed.

(** C8, as the code has it.  A callback that finds its session either
    ends in one of the two failures that leave the database untouched (the
    OAuth exchange failed, or the role could not be assigned), and then the
    session is still there; or it deletes the session, and from then on,
    whatever requests the server serves afterwards (callbacks, new sessions
    under other ids, the two timers), a callback with that session id finds
    nothing, is answered with an error and changes nothing. *)
Theorem session_deleted_unless_attempt_fails
    (env : Env) (code state : string) (w : World)
    (pending : Pending.DiscordPendingVerification) :
  getPending state (db w) = Some pending ->
  truthy code = true ->
  truthy state = true ->
  let w' := fst (callback env code state w) in
  let response := snd (callback env code state w) in
  ((response = VerificationError \/ response = RoleAssignmentFailed)
   /\ db w' = db w
   /\ getPending state (db w') = Some pending)
  \/
  (response <> VerificationError /\ response <> RoleAssignmentFailed
   /\ getPending state (db w') = None
   /\ forall later,
        neverOpens state later = true ->
        getPending state (db (run later w')) = None
        /\ forall env' code',
             fst (callback env' code' state (run later w')) = run later w'
             /\ (snd (callback env' code' state (run later w')) = MissingParameter
                 \/ snd (callback env' code' state (run later w')) = InvalidSession)).
Proof.
  intros Hpending Hcode Hstate.
  assert (Hgone : forall w0,
             filter (fun p => Pending.session_id p =? state)%string
                    (discord_pending_verifications (db w0)) = [] ->
             forall later,
               neverOpens state later = true ->
               getPending state (db (run later w0)) = None
               /\ forall env' code',
                    fst (callback env' code' state (run later w0)) = run later w0
                    /\ (snd (callback env' code' state (run later w0)) = MissingParameter
                        \/ snd (callback env' code' state (run later w0))
                           = InvalidSession)).
  { intros w0 Habsent later Hnever.
    assert (Hnone : getPending state (db (run later w0)) = None).
    { unfold getPending. now rewrite (run_session_absent state later w0). }
    split; [exact Hnone|]. intros env' code'. now apply callback_without_session. }
  pose proof (callback_outcome env code state w) as Hout.
  destruct Hout as [Hbad|Hnone| | | | | |]; cbn [fst snd db roleCalls];
    try (right; split; [discriminate|]; split; [discriminate|];
         split; [apply getPending_deleted|];
         apply Hgone; cbn [db]; apply session_absent_deleted).
  - destruct Hbad; congruence.
  - congruence.
  - left. auto.
  - left. auto.
Qed.

(** A session for a non-holder is gone after its first callback, and is
    still gone after another session was opened and used and the two timers
    have run. *)
Lemma session_deleted_unless_attempt_fails_witness :
  let w' := fst (callback (Sample.envFor Sample.alice Sample.rpcNone true 2000)
                          "code-1" "session-1" Scenario.nonHolderWaiting) in
  getPending "session-1" (db w') = None
  /\ snd (callback (Sample.envFor Sample.alice Sample.rpcAB true 7000)
                   "code-3" "session-1" (run Replay.later w'))
     = InvalidSession.
Proof.
  intro w'.
  destruct (session_deleted_unless_attempt_fails
              (Sample.envFor Sample.alice Sample.rpcNone true 2000)
              "code-1" "session-1" Scenario.nonHolderWaiting
              (Scenario.pendingOf Scenario.nonHolderWaiting "session-1")
              eq_refl eq_refl eq_refl) as [[[H|H] _]|(_ & _ & H & Hlater)].
  - vm_compute in H. discriminate.
  - vm_compute in H. discriminate.
  - split; [exact H|].
    destruct (Hlater Replay.later eq_refl) as [_ Hreplay].
    destruct (proj2 (Hreplay (Sample.envFor Sample.alice Sample.rpcAB true 7000) "code-3"))
      as [Hmissing|Hinvalid].
    + vm_compute in Hmissing. discriminate.
    + exact Hinvalid.
Defined.

End LaterHistories.
